(** * mch-helper: vacancy-message pipeline

    A shallow embedding of the two bots of the repository:
    - [src/mch_helper/bot.py]: [TemplateManager], [VacancyProcessor]
      (link formatting, HTML cleaning, URL extraction, message generation);
    - [src/main.py]: [TemplateStore], [VacancyBot._call_yandex_llm], and the
      message handlers of [VacancyBot] with the dispatcher's choice among them,
      handled one after the other and overlapping;
    - the update handlers of [src/mch_helper/bot.py] with the conversations
      and the handler list of [main].

    Python [str] values are lists of Unicode code points.  Regular expressions
    are a small syntax with the backtracking order of Python's [re]; the
    external services (HTTP, the HTML parser, the file system) are explicit
    arguments. *)

From Stdlib Require Import ZArith NArith Ascii String Lia.
From stdpp Require Import base list strings gmap pretty.

Local Open Scope nat_scope.

(** ** Text *)

Abbreviation text := (list N).

Fixpoint str (s : string) : text :=
  match s with
  | EmptyString => []
  | String a s' => N_of_ascii a :: str s'
  end.

(** [str.isspace] / the class [\s] of a [str] pattern. *)
Definition isspace (c : N) : bool :=
  ((9 <=? c) && (c <=? 13) || (28 <=? c) && (c <=? 32) || (c =? 133) || (c =? 160)
   || (c =? 5760) || (8192 <=? c) && (c <=? 8202) || (c =? 8232) || (c =? 8233)
   || (c =? 8239) || (c =? 8287) || (c =? 12288))%N.

Definition nonspace (c : N) : bool := negb (isspace c).

Fixpoint lstrip (s : text) : text :=
  match s with
  | c :: s' => if isspace c then lstrip s' else s
  | [] => []
  end.

Definition rstrip (s : text) : text := rev (lstrip (rev s)).

(** [str.strip()] *)
Definition strip (s : text) : text := rstrip (lstrip s).

(** ** Regular expressions

    The patterns of the source only repeat single-character classes, so
    repetition and option are constructors over a class. *)

Abbreviation cls := (N → bool).

Inductive regex :=
| Eps
| Chr (p : cls)                 (* one character of the class *)
| Opt (p : cls)                 (* p?  greedy *)
| Rep (n : nat) (p : cls)       (* p{n,} greedy: * is Rep 0, + is Rep 1 *)
| Seq (r1 r2 : regex)
| Alt (r1 r2 : regex)
| Bos                           (* ^ without MULTILINE *)
| Eos                           (* $ without MULTILINE *)
| NotAhead (r : regex)          (* (?!r) *)
| NotBehind (w : text).         (* (?<!w) for a literal w *)

Infix "⊙" := Seq (at level 60, right associativity).

(** Length of the longest prefix of [s] inside the class. *)
Fixpoint run (p : cls) (s : text) : nat :=
  match s with
  | c :: s' => if p c then S (run p s') else 0
  | [] => 0
  end.

(** [starts w s]: [s] begins with [w]. *)
Fixpoint starts (w s : text) : bool :=
  match w, s with
  | [], _ => true
  | a :: w', c :: s' => (a =? c)%N && starts w' s'
  | _ :: _, [] => false
  end.

(** Where [$] matches: at the end, or before a newline that ends the text. *)
Definition at_end (s : text) : bool :=
  match s with
  | [] => true
  | [c] => (c =? 10)%N
  | _ => false
  end.

(** [ends r b s]: the lengths of the matches of [r] that start at the
    position with reversed left context [b] and right context [s], in the
    order in which the backtracking matcher tries them.  The head is the
    match [re] reports. *)
Fixpoint ends (r : regex) (b s : text) : list nat :=
  match r with
  | Eps => [0]
  | Chr p => match s with c :: _ => if p c then [1] else [] | [] => [] end
  | Opt p => match s with c :: _ => if p c then [1; 0] else [0] | [] => [0] end
  | Rep n p => rev (seq n (S (run p s) - n))
  | Seq r1 r2 =>
      n1 ← ends r1 b s;
      (λ n2, n1 + n2) <$> ends r2 (rev (take n1 s) ++ b) (drop n1 s)
  | Alt r1 r2 => ends r1 b s ++ ends r2 b s
  | Bos => match b with [] => [0] | _ => [] end
  | Eos => if at_end s then [0] else []
  | NotAhead r' => match ends r' b s with [] => [0] | _ => [] end
  | NotBehind w => if starts (rev w) b then [] else [0]
  end.

(** The pair of group lengths of [(r1)(r2)], in the same order. *)
Definition ends2 (r1 r2 : regex) (b s : text) : list (nat * nat) :=
  n1 ← ends r1 b s;
  (λ n2, (n1, n2)) <$> ends r2 (rev (take n1 s) ++ b) (drop n1 s).

Definition match_at (r : regex) (b s : text) : option nat := head (ends r b s).

(** A matcher gives, at a position, the length of the match and the text
    that replaces it. *)
Abbreviation matcher := (text → text → option (nat * text)).

(** [re.sub]: leftmost non-overlapping matches, scanned on the original
    string.  [skip] counts the characters of the current match still to be
    passed over.  After an empty match one character is copied; every
    pattern of the source has a mandatory literal, see [nullable]. *)
Fixpoint sub_scan (m : matcher) (b s : text) (skip : nat) : text :=
  match skip, s with
  | S k, c :: s' => sub_scan m (c :: b) s' k
  | S _, [] => []
  | 0, c :: s' =>
      match m b s with
      | Some (S k, out) => out ++ sub_scan m (c :: b) s' k
      | Some (0, out) => out ++ c :: sub_scan m (c :: b) s' 0
      | None => c :: sub_scan m (c :: b) s' 0
      end
  | 0, [] => match m b [] with Some (_, out) => out | None => [] end
  end.

Definition with_repl (r : regex) (f : text → text) : matcher :=
  λ b s, n ← match_at r b s; Some (n, f (take n s)).

(** [re.sub(r, repl, s)] for a constant replacement. *)
Definition re_sub (r : regex) (repl : text) (s : text) : text :=
  sub_scan (with_repl r (λ _, repl)) [] s 0.

(** [re.findall(r, s)] for a pattern without groups. *)
Fixpoint findall_scan (r : regex) (b s : text) (skip : nat) : list text :=
  match skip, s with
  | S k, c :: s' => findall_scan r (c :: b) s' k
  | S _, [] => []
  | 0, c :: s' =>
      match match_at r b s with
      | Some (S k) => take (S k) s :: findall_scan r (c :: b) s' k
      | Some 0 => [] :: findall_scan r (c :: b) s' 0
      | None => findall_scan r (c :: b) s' 0
      end
  | 0, [] => match match_at r b [] with Some _ => [[]] | None => [] end
  end.

Definition re_findall (r : regex) (s : text) : list text := findall_scan r [] s 0.

(** A pattern that cannot match the empty string. *)
Fixpoint nullable (r : regex) : bool :=
  match r with
  | Eps | Opt _ | Bos | Eos | NotAhead _ | NotBehind _ => true
  | Chr _ => false
  | Rep n _ => match n with 0 => true | S _ => false end
  | Seq r1 r2 => nullable r1 && nullable r2
  | Alt r1 r2 => nullable r1 || nullable r2
  end.

(** *** Classes and literals *)

Definition lit (c : N) : cls := N.eqb c.
Definition chr (a : ascii) : cls := lit (N_of_ascii a).
Definition other_than (a : ascii) : cls := λ c, negb (chr a c).
Definition one_of (w : string) : cls := λ c, existsb (N.eqb c) (str w).

(** A sequence of single characters, one class each. *)
Fixpoint chars (ps : list cls) : regex :=
  match ps with
  | [] => Eps
  | p :: ps' => Chr p ⊙ chars ps'
  end.

(** A literal word. *)
Definition lits (w : text) : regex := chars (lit <$> w).

(** The characters equal to a pattern literal under [re.IGNORECASE]: the
    two cases of a letter, with the characters whose simple lower-case
    mapping or case equivalence lands on it (dotted and dotless i, long s,
    the Kelvin, Angstrom and Ohm signs).  Beyond ASCII the table covers the
    literals that occur in the patterns of the source. *)
Definition ignorecase_class (c : N) : list N :=
  let l := (if (65 <=? c) && (c <=? 90) then c + 32 else c)%N in
  if ((97 <=? l) && (l <=? 122))%N then
    l :: (l - 32)%N ::
      (if (l =? 105)%N then [304; 305]
       else if (l =? 115)%N then [383]
       else if (l =? 107)%N then [8490] else [])%N
  else if ((c =? 197) || (c =? 229))%N then [197; 229; 8491]%N
  else if (c =? 199)%N then [199; 231]%N
  else if (c =? 225)%N then [193; 225]%N
  else if (c =? 227)%N then [195; 227]%N
  else if (c =? 230)%N then [198; 230]%N
  else if (c =? 233)%N then [201; 233]%N
  else if (c =? 937)%N then [937; 969; 8486]%N
  else [c].

Definition ilit (c : N) : cls := λ x, existsb (N.eqb x) (ignorecase_class c).
Definition ichr (a : ascii) : cls := ilit (N_of_ascii a).

(** A literal word under [re.IGNORECASE]. *)
Definition ilits (w : text) : regex := chars (ilit <$> w).

(** [re.sub] for a pattern [(r1)(r2)] whose replacement reads both groups. *)
Definition with_groups (r1 r2 : regex) (f : text → text → text) : matcher :=
  λ b s, '(n1, n2) ← head (ends2 r1 r2 b s);
         Some (n1 + n2, f (take n1 s) (take n2 (drop n1 s))).

(** ** [VacancyProcessor] of [mch_helper/bot.py]: the output sanitizer *)

Definition backslash : N := 92.
Definition dquote : N := 34.
Definition newline : N := 10.

(** The call-to-action literal of [format_contact_links], as the source
    file has it. *)
Definition phrase : text :=
  [8211; 176; 8212; 199; 8211; 8734; 8212; 199; 8212; 229; 32; 8212; 225; 8211;
   8734; 8212; 197; 8212; 199; 8212; 229; 8212; 233; 32; 8211; 8747; 8211; 230;
   8211; 186; 8211; 8734; 8211; 937; 8211; 165; 8212; 227]%N.

(** The generic anchor label of the third rule. *)
Definition link_label : text :=
  [8212; 197; 8212; 197; 8212; 227; 8211; 170; 8211; 8747; 8211; 8734]%N.

(** [f'<a href="{url}">{label}</a>'] *)
Definition anchor (url label : text) : text :=
  str "<a href=" ++ [dquote] ++ url ++ [dquote] ++ str ">" ++ label ++ str "</a>".

(** Group 1 of rules 1 and 2: PHRASE, an optional colon, then [\\s*], all
    under IGNORECASE.  The pattern is a raw string, so [\\s*] is a backslash
    followed by the letter s repeated. *)
Definition team_prefix : regex :=
  ilits phrase ⊙ Opt (chr ":") ⊙ Chr (lit backslash) ⊙ Rep 0 (ichr "s").

(** [(@\\w+)] under IGNORECASE *)
Definition handle_group : regex :=
  Chr (chr "@") ⊙ Chr (lit backslash) ⊙ Rep 1 (ichr "w").

(** [(https?://\\S+)] under IGNORECASE *)
Definition team_url_group : regex :=
  ilits (str "http") ⊙ Opt (ichr "s") ⊙ lits (str "://")
  ⊙ Chr (lit backslash) ⊙ Rep 1 (ichr "S").

(** [(?<!href=\")(?<!\">)(https?://\\S+)], no flags *)
Definition bare_url : regex :=
  NotBehind (str "href=" ++ [dquote]) ⊙ NotBehind (dquote :: str ">")
  ⊙ lits (str "http") ⊙ Opt (chr "s") ⊙ lits (str "://")
  ⊙ Chr (lit backslash) ⊙ Rep 1 (chr "S").

Definition format_contact_links (t : text) : text :=
  let t := sub_scan (with_groups team_prefix handle_group (λ g1 g2, g1 ++ g2)) [] t 0 in
  let t := sub_scan (with_groups team_prefix team_url_group (λ _ g2, anchor g2 phrase)) [] t 0 in
  let t := sub_scan (with_repl bare_url (λ g1, anchor g1 link_label)) [] t 0 in
  t.

Definition backtick : cls := lit 96.

(** [^`{3,}\s*] *)
Definition fence_open : regex := Bos ⊙ Rep 3 backtick ⊙ Rep 0 isspace.
(** [\s*`{3,}$] *)
Definition fence_close : regex := Rep 0 isspace ⊙ Rep 3 backtick ⊙ Eos.
(** [<br\s*/?>] *)
Definition br_tag : regex :=
  lits (str "<br") ⊙ Rep 0 isspace ⊙ Opt (chr "/") ⊙ Chr (chr ">").
(** [<p[^>]*>] *)
Definition p_open : regex := lits (str "<p") ⊙ Rep 0 (other_than ">") ⊙ Chr (chr ">").
(** [<div[^>]*>] *)
Definition div_open : regex := lits (str "<div") ⊙ Rep 0 (other_than ">") ⊙ Chr (chr ">").
(** [</?span[^>]*>] *)
Definition span_tag : regex :=
  Chr (chr "<") ⊙ Opt (chr "/") ⊙ lits (str "span") ⊙ Rep 0 (other_than ">") ⊙ Chr (chr ">").

(** The lookahead [/?[biusa]|/?code|/?pre|/?blockquote|a\s] *)
Definition kept_tag_start : regex :=
  Alt (Opt (chr "/") ⊙ Chr (one_of "biusa"))
 (Alt (Opt (chr "/") ⊙ lits (str "code"))
 (Alt (Opt (chr "/") ⊙ lits (str "pre"))
 (Alt (Opt (chr "/") ⊙ lits (str "blockquote"))
      (Chr (chr "a") ⊙ Chr isspace)))).

(** [<(?!/?[biusa]|/?code|/?pre|/?blockquote|a\s)[^>]+>] *)
Definition other_tag : regex :=
  Chr (chr "<") ⊙ NotAhead kept_tag_start ⊙ Rep 1 (other_than ">") ⊙ Chr (chr ">").

(** [vseti\.app] under IGNORECASE *)
Definition aggregator : regex := ilits (str "vseti.app").
(** [https?://\S*vseti\.app\S*] under IGNORECASE *)
Definition aggregator_url : regex :=
  ilits (str "http") ⊙ Opt (ichr "s") ⊙ lits (str "://") ⊙ Rep 0 nonspace
  ⊙ aggregator ⊙ Rep 0 nonspace.
(** [\n{3,}] *)
Definition blank_lines : regex := Rep 3 (lit newline).
(** [^\s*(html|body)\s*[:>\-]?\s*] under IGNORECASE *)
Definition service_word : regex :=
  Bos ⊙ Rep 0 isspace ⊙ Alt (ilits (str "html")) (ilits (str "body"))
  ⊙ Rep 0 isspace ⊙ Opt (one_of ":>-") ⊙ Rep 0 isspace.

Definition clean_html_for_telegram (t : text) : text :=
  let t := re_sub fence_open [] t in
  let t := re_sub fence_close [] t in
  let t := re_sub br_tag [newline] t in
  let t := re_sub p_open [newline] t in
  let t := re_sub (lits (str "</p>")) [newline] t in
  let t := re_sub div_open [newline] t in
  let t := re_sub (lits (str "</div>")) [newline] t in
  let t := re_sub span_tag [] t in
  let t := re_sub (lits (str "<strong>")) (str "<b>") t in
  let t := re_sub (lits (str "</strong>")) (str "</b>") t in
  let t := re_sub (lits (str "<em>")) (str "<i>") t in
  let t := re_sub (lits (str "</em>")) (str "</i>") t in
  let t := re_sub other_tag [] t in
  let t := re_sub aggregator_url [] t in
  let t := re_sub aggregator [] t in
  let t := re_sub blank_lines [newline; newline] t in
  let t := re_sub service_word [] t in
  strip t.

(** The post-processing of a completion in [generate_message]: links are
    formatted first, then the HTML is cleaned. *)
Definition sanitize (t : text) : text :=
  clean_html_for_telegram (format_contact_links t).

(** ** Python values, exceptions, the file system *)

Local Unset Elimination Schemes.

(** The values [json.load] produces and the stores hold. *)
Inductive pyval :=
| PNone
| PBool (b : bool)
| PInt (z : Z)
| PStr (s : text)
| PList (l : list pyval)
| PDict (d : gmap text pyval).

Local Set Elimination Schemes.

Inductive exn :=
| OSError | JSONDecodeError | TypeError | AttributeError | KeyError | IndexError
| RuntimeError | HTTPError | ConnectionError | UnicodeEncodeError.

Inductive outcome (A : Type) :=
| Ret (a : A)
| Raise (e : exn).
Arguments Ret {A} a.
Arguments Raise {A} e.

Definition bind {A B} (m : outcome A) (f : A → outcome B) : outcome B :=
  match m with Ret a => f a | Raise e => Raise e end.

Notation "x ←! m ; k" := (bind m (λ x, k))
  (at level 20, m at level 100, k at level 200, only parsing).

(** [try: body / except Exception: handler] *)
Definition try_except {A} (body : outcome A) (handler : exn → outcome A) : outcome A :=
  match body with Ret a => Ret a | Raise e => handler e end.

(** ** Computations with a state

    A function of the state that returns a value or raises, and leaves a
    state behind in both cases. *)

Definition act (W A : Type) : Type := W → outcome A * W.

Definition act_ret {W A} (a : A) : act W A := λ w, (Ret a, w).

Definition act_bind {W A B} (m : act W A) (k : A → act W B) : act W B :=
  λ w, match m w with
       | (Ret a, w') => k a w'
       | (Raise e, w') => (Raise e, w')
       end.

Notation "x ⟵ m ; k" := (act_bind m (λ x, k))
  (at level 20, m at level 100, k at level 200, only parsing).

(** A computation that touches nothing. *)
Definition act_lift {W A} (o : outcome A) : act W A := λ w, (o, w).

(** [try: body / except Exception as exc: handler(exc)] *)
Definition act_try {W A} (body : act W A) (handler : exn → act W A) : act W A :=
  λ w, match body w with
       | (Ret a, w') => (Ret a, w')
       | (Raise e, w') => handler e w'
       end.

(** [keeps R f]: whatever [f] returns or raises, the state it leaves is
    related by [R] to the state it started from. *)
Definition keeps {W A} (R : W → W → Prop) (f : act W A) : Prop := ∀ w, R w (f w).2.

(** ** Files

    What the templates file holds: something that cannot be read or
    decoded, text that is not JSON (the empty text and a document cut
    short are such texts), or a JSON document.  A document is held as the
    value [json.load] gives for it: two texts that differ in white space
    or in the order of the keys of an object are the same document. *)
Inductive file :=
| Unreadable
| NotJson
| Document (v : pyval).

(** [None] when the file does not exist. *)
Abbreviation disk := (option file).

(** [open(..).read()] followed by [json.load] / [json.loads]. *)
Definition read_json (f : file) : outcome pyval :=
  match f with
  | Unreadable => Raise OSError
  | NotJson => Raise JSONDecodeError
  | Document v => Ret v
  end.

(** A [str] is encoded as UTF-8 unless one of its code points is a
    surrogate (U+D800 to U+DFFF); then encoding raises
    [UnicodeEncodeError]. *)
Definition surrogate (c : N) : bool := ((55296 <=? c) && (c <=? 57343))%N.

Definition encodable (s : text) : bool := forallb (λ c, negb (surrogate c)) s.

(** Every string of a value, the keys of its dicts included, is
    encodable. *)
Fixpoint encodable_val (v : pyval) : bool :=
  match v with
  | PStr s => encodable s
  | PList l => forallb encodable_val l
  | PDict d => map_fold (λ k x b, encodable k && encodable_val x && b) true d
  | _ => true
  end.

(** Writing the dump of [v] with [ensure_ascii=False] to a file opened
    with [open(path, 'w', encoding='utf-8')]: opening empties the file,
    and the write of a string that cannot be encoded raises, which leaves
    the empty text or the beginning of the document.  The file system
    itself is taken to accept the write. *)
Definition write_json (v : pyval) : outcome unit * disk :=
  if encodable_val v then (Ret (), Some (Document v))
  else (Raise UnicodeEncodeError, Some NotJson).

(** [str(user_id)] *)
Definition key_of (user_id : Z) : text := str (pretty user_id).

(** [obj[key]] for a string key *)
Definition getitem (v : pyval) (k : text) : outcome pyval :=
  match v with
  | PDict d => match d !! k with Some x => Ret x | None => Raise KeyError end
  | _ => Raise TypeError
  end.

(** [obj[0]] *)
Definition getitem0 (v : pyval) : outcome pyval :=
  match v with
  | PList (x :: _) => Ret x
  | PList [] => Raise IndexError
  | PStr (c :: _) => Ret (PStr [c])
  | PStr [] => Raise IndexError
  | PDict _ => Raise KeyError
  | _ => Raise TypeError
  end.

(** [obj.strip()] *)
Definition call_strip (v : pyval) : outcome text :=
  match v with
  | PStr s => Ret (strip s)
  | _ => Raise AttributeError
  end.

(** [result['result']['alternatives'][0]['message']['text'].strip()] *)
Definition completion_text (result : pyval) : outcome text :=
  r ←! getitem result (str "result");
  a ←! getitem r (str "alternatives");
  a0 ←! getitem0 a;
  m ←! getitem a0 (str "message");
  t ←! getitem m (str "text");
  call_strip t.

(** [w in s] for two strings *)
Fixpoint contains (w s : text) : bool :=
  starts w s || match s with _ :: s' => contains w s' | [] => false end.

(** ** [TemplateManager] of [mch_helper/bot.py]

    The state is the value of [self.templates] together with the file
    [templates.json]. *)
Module TemplateManager.

(** [load_templates] *)
Definition load_templates (d : disk) : outcome pyval :=
  match d with
  | Some f => read_json f
  | None => Ret (PDict ∅)
  end.

(** [save_templates]: [json.dump(self.templates, f, ensure_ascii=False,
    indent=2)] into the file opened for writing. *)
Definition save_templates (templates : pyval) : outcome unit * disk := write_json templates.

Definition entry (example description : text) : pyval :=
  PDict (<[str "example" := PStr example]> (<[str "description" := PStr description]> ∅)).

(** [set_template]: item assignment, then the save.  When the save
    raises, the assignment has been made. *)
Definition set_template (user_id : Z) (example description : text)
    : act (pyval * disk) unit :=
  λ st, match st.1 with
        | PDict d =>
            let t := PDict (<[key_of user_id := entry example description]> d) in
            ((save_templates t).1, (t, (save_templates t).2))
        | _ => (Raise TypeError, st)
        end.

(** [key in self.templates] *)
Definition has_key (templates : pyval) (k : text) : outcome bool :=
  match templates with
  | PDict d => Ret (bool_decide (is_Some (d !! k)))
  | PList l => Ret (existsb (λ v, match v with PStr s => bool_decide (s = k) | _ => false end) l)
  | PStr s => Ret (contains k s)
  | _ => Raise TypeError
  end.

(** [update_description]: the membership test, the item assignment in
    the user's entry, then the save. *)
Definition update_description (user_id : Z) (description : text)
    : act (pyval * disk) unit :=
  λ st, match has_key st.1 (key_of user_id) with
        | Raise e => (Raise e, st)
        | Ret false => (Ret (), st)
        | Ret true =>
            match st.1 with
            | PDict d =>
                match d !! key_of user_id with
                | Some (PDict e) =>
                    let t := PDict (<[key_of user_id :=
                                       PDict (<[str "description" := PStr description]> e)]> d) in
                    ((save_templates t).1, (t, (save_templates t).2))
                | _ => (Raise TypeError, st)
                end
            | _ => (Raise TypeError, st)
            end
        end.

(** [get_template]: [self.templates.get(str(user_id))] *)
Definition get_template (user_id : Z) (templates : pyval) : outcome (option pyval) :=
  match templates with
  | PDict d => Ret (d !! key_of user_id)
  | _ => Raise AttributeError
  end.

(** Module start-up: [template_manager = TemplateManager()]. *)
Definition start (d : disk) : outcome (pyval * disk) :=
  t ←! load_templates d; Ret (t, d).

End TemplateManager.

(** ** [TemplateStore] of [main.py] *)
Module TemplateStore.

Record UserTemplate := { template : pyval; description : pyval }.

(** [UserTemplate(template=payload.get("template", ""), ...)] *)
Definition of_payload (payload : pyval) : outcome UserTemplate :=
  match payload with
  | PDict p =>
      Ret {| template := default (PStr []) (p !! str "template");
             description := default (PStr []) (p !! str "description") |}
  | _ => Raise AttributeError
  end.

Definition is_dict (v : pyval) : bool :=
  match v with PDict _ => true | _ => false end.

Definition payload_entry (v : pyval) : option UserTemplate :=
  match of_payload v with Ret u => Some u | Raise _ => None end.

(** The loop over [raw.items()]: one payload that is not a dict raises. *)
Definition load_items (raw : pyval) : outcome (gmap text UserTemplate) :=
  match raw with
  | PDict r =>
      if bool_decide (map_Forall (λ _ v, is_dict v = true) r)
      then Ret (omap payload_entry r)
      else Raise AttributeError
  | _ => Raise AttributeError
  end.

(** [_load], called on the empty [_data] of [__init__]. *)
Definition _load (d : disk) : gmap text UserTemplate :=
  match d with
  | None => ∅
  | Some f =>
      match try_except (raw ←! read_json f; load_items raw) (λ _, Ret ∅) with
      | Ret m => m
      | Raise _ => ∅
      end
  end.

(** [asdict(tpl)] *)
Definition asdict (u : UserTemplate) : pyval :=
  PDict (<[str "template" := template u]> (<[str "description" := description u]> ∅)).

(** [_save]: the dump of the payload, written with
    [Path.write_text(.., encoding="utf-8")]. *)
Definition _save (data : gmap text UserTemplate) : outcome unit * disk :=
  write_json (PDict (asdict <$> data)).

(** [set_template]: the assignment, then the save.  When the save raises,
    the assignment has been made and the file is empty. *)
Definition set_template (user_id : Z) (template description : text)
    (data : gmap text UserTemplate) : outcome unit * (gmap text UserTemplate * disk) :=
  let data' := <[key_of user_id :=
                  {| template := PStr template; description := PStr description |}]> data in
  ((_save data').1, (data', (_save data').2)).

Definition get_template (user_id : Z) (data : gmap text UserTemplate) : option UserTemplate :=
  data !! key_of user_id.

End TemplateStore.

(** ** [VacancyProcessor.extract_url_content] of [mch_helper/bot.py] *)

Record response := { status_code : Z; body : text; json : outcome pyval }.

(** [https?://[^\s]+] *)
Definition url_pattern : regex :=
  lits (str "http") ⊙ Opt (chr "s") ⊙ lits (str "://") ⊙ Rep 1 nonspace.

(** [text.split('\n')] *)
Fixpoint split_lines (s : text) : list text :=
  match s with
  | [] => [[]]
  | c :: s' =>
      if (c =? newline)%N then [] :: split_lines s'
      else match split_lines s' with
           | l :: ls => (c :: l) :: ls
           | [] => [[c]]
           end
  end.

(** ['\n'.join(lines)] *)
Fixpoint join_lines (ls : list text) : text :=
  match ls with
  | [] => []
  | [l] => l
  | l :: ls' => l ++ newline :: join_lines ls'
  end.

(** [[line.strip() for line in t.split('\n') if line.strip()]], joined *)
Definition clean_lines (t : text) : text :=
  join_lines (filter (λ l, l ≠ []) (strip <$> split_lines t)).

(** [requests]: [raise_for_status] raises on 4xx and 5xx. *)
Definition raise_for_status (r : response) : outcome unit :=
  if ((400 <=? status_code r) && (status_code r <? 600))%Z then Raise HTTPError else Ret ().

Section Extractor.

(** [requests.get(url, headers=headers, timeout=10)] *)
Variable http_get : text → outcome response.
(** [BeautifulSoup(html, 'html.parser')], the removal of script, style,
    nav, footer and header, and [get_text(separator='\n', strip=True)]. *)
Variable soup_text : text → outcome text.

Definition fetch_page (url : text) : outcome text :=
  r ←! http_get url;
  _ ←! raise_for_status r;
  text_content ←! soup_text (body r);
  Ret (clean_lines text_content).

(** The result pair, and the list of the URLs that were requested. *)
Definition extract_url_content (t : text) : (text * option text) * list text :=
  match re_findall url_pattern t with
  | [] => ((t, None), [])
  | url :: _ =>
      (match fetch_page url with
       | Ret clean_text => (clean_text, Some url)
       | Raise _ => (t, Some url)
       end, [url])
  end.

End Extractor.

(** ** Message generation *)

(** [not value] for an environment value: unset or empty. *)
Definition falsy (v : option text) : bool :=
  match v with
  | None | Some [] => true
  | Some (_ :: _) => false
  end.

(** The completion request: the endpoint, the authorisation header, the
    model, the token ceiling and the values interpolated into the prompt
    (the fixed instruction text around them is left out). *)
Record completion_request := {
  api_url : text;
  authorization : text;
  folder_header : option text;
  model_uri : text;
  max_tokens : Z;
  prompt_values : list pyval
}.

Definition completion_endpoint : text :=
  str "https://llm.api.cloud.yandex.net/foundationModels/v1/completion".

Module VacancyProcessor.

Definition banner : text :=
  [8218; 246; 8224; 212; 8719; 232; 32; 65; 73; 32; 8211; 8805; 8211; 181; 8211;
   937; 8211; 181; 8212; 196; 8211; 8734; 8212; 220; 8211; 8719; 8212; 232; 32;
   8211; 937; 8211; 181; 8211; 165; 8211; 230; 8212; 197; 8212; 199; 8212; 201;
   8211; 248; 8211; 937; 8211; 8734; 46; 32; 8211; 252; 8211; 230; 8211; 8747;
   8211; 8734; 8211; 8721; 8212; 227; 8211; 8804; 8211; 8734; 8212; 233; 32; 8211;
   248; 8212; 196; 8211; 8719; 8211; 186; 8211; 181; 8212; 196; 58; 10; 10]%N.

Definition example_label : text :=
  [42; 42; 8211; 237; 8211; 8734; 8212; 224; 32; 8211; 248; 8212; 196; 8211; 8719;
   8211; 186; 8211; 181; 8212; 196; 58; 42; 42; 10]%N.

Definition vacancy_label : text :=
  [42; 42; 8211; 249; 8211; 230; 8211; 8804; 8211; 8734; 8212; 232; 32; 8211; 8804;
   8211; 8734; 8211; 8747; 8211; 8734; 8211; 937; 8212; 197; 8211; 8719; 8212; 232;
   58; 42; 42; 10]%N.

Definition footer : text :=
  [63743; 252; 237; 176; 32; 8211; 249; 8211; 8734; 8212; 197; 8212; 199; 8212;
   196; 8211; 230; 8211; 960; 8212; 199; 8211; 181; 32; 89; 97; 110; 100; 101; 120;
   32; 65; 80; 73; 32; 8211; 165; 8211; 170; 8212; 232; 32; 8211; 8734; 8211; 8804;
   8212; 199; 8211; 230; 8211; 186; 8211; 8734; 8212; 199; 8211; 8719; 8212; 225;
   8211; 181; 8212; 197; 8211; 8747; 8211; 230; 8211; 960; 32; 8211; 8805; 8211;
   181; 8211; 937; 8211; 181; 8212; 196; 8211; 8734; 8212; 220; 8211; 8719; 8211;
   8719; 32; 8211; 8804; 32; 8212; 197; 8212; 199; 8211; 8719; 8211; 170; 8211;
   181; 32; 8211; 248; 8212; 196; 8211; 8719; 8211; 186; 8211; 181; 8212; 196;
   8211; 8734; 46]%N.

(** [_generate_simple_message]; [contact_info] is not used. *)
Definition _generate_simple_message (vacancy_text example : text)
    (contact_info : option text) : text :=
  banner
  ++ (example_label ++ example ++ [newline; newline])
  ++ (vacancy_label ++ vacancy_text ++ [newline; newline])
  ++ footer.

Section Generate.

(** [self.api_key], [self.folder_id]: the values of [os.getenv]. *)
Variables api_key folder_id : option text.
(** [requests.post(self.api_url, headers=headers, json=data, timeout=30)] *)
Variable post : completion_request → outcome response.

Definition request (vacancy_text example description : text)
    (contact_info : option text) : completion_request :=
  {| api_url := completion_endpoint;
     authorization := str "Api-Key " ++ default [] api_key;
     folder_header := None;
     model_uri := str "gpt://" ++ default [] folder_id ++ str "/yandexgpt-32k/latest";
     max_tokens := 2000;
     prompt_values :=
       [PStr example; PStr description; PStr vacancy_text;
        PStr (if falsy contact_info then [] else default [] contact_info)] |}.

(** [generate_message].  The result, and the list of the requests that were
    posted.  Building the prompt cannot raise; its f-string has a backslash
    inside a replacement field, so the module is read as Python 3.12 or
    later. *)
Definition generate_message (vacancy_text example description : text)
    (contact_info : option text) : outcome text * list completion_request :=
  if falsy api_key || falsy folder_id then
    (Ret (_generate_simple_message vacancy_text example contact_info), [])
  else
    let req := request vacancy_text example description contact_info in
    (try_except
       (response ←! post req;
        if (status_code response =? 200)%Z then
          result ←! json response;
          generated_text ←! completion_text result;
          let generated_text := format_contact_links generated_text in
          Ret (clean_html_for_telegram generated_text)
        else Ret (_generate_simple_message vacancy_text example contact_info))
       (λ _, Ret (_generate_simple_message vacancy_text example contact_info)),
     [req]).

End Generate.

End VacancyProcessor.

(** ** [VacancyBot] of [main.py] *)
Module VacancyBot.

(** [httpx]: [raise_for_status] raises unless the status is 2xx. *)
Definition raise_for_status (r : response) : outcome unit :=
  if ((200 <=? status_code r) && (status_code r <? 300))%Z then Ret () else Raise HTTPError.

Section Generate.

Variable YANDEX_API_KEY : option text.
Variables YANDEX_MODEL_URI YANDEX_FOLDER_ID : text.
(** [client.post(url, json=payload, headers=headers)], timeout 60 *)
Variable post : completion_request → outcome response.

Definition request (template description : pyval) (vacancy_text : text)
    : completion_request :=
  {| api_url := completion_endpoint;
     authorization := str "Api-Key " ++ default [] YANDEX_API_KEY;
     folder_header := Some YANDEX_FOLDER_ID;
     model_uri := YANDEX_MODEL_URI;
     max_tokens := 800;
     prompt_values := [template; description; PStr vacancy_text] |}.

Definition _call_yandex_llm (template description : pyval) (vacancy_text : text)
    : outcome text * list completion_request :=
  if falsy YANDEX_API_KEY then (Raise RuntimeError, [])
  else
    let req := request template description vacancy_text in
    (response ←! post req;
     _ ←! raise_for_status response;
     data ←! json response;
     try_except (completion_text data) (λ _, Raise RuntimeError),
     [req]).

Inductive reply :=
| NeedTemplate                 (* "Please add a template first ..." *)
| Working                      (* "Working on it..." *)
| Answer (t : text)
| Failed (e : exn).            (* "Failed to generate text: ..." *)

(** [generate_response]: the messages answered to the user. *)
Definition generate_response (data : gmap text TemplateStore.UserTemplate)
    (user_id : Z) (message_text : text) : list reply :=
  match TemplateStore.get_template user_id data with
  | None => [NeedTemplate]
  | Some tpl =>
      match (_call_yandex_llm (TemplateStore.template tpl)
               (TemplateStore.description tpl) (strip message_text)).1 with
      | Ret reply_text => [Working; Answer reply_text]
      | Raise e => [Working; Failed e]
      end
  end.

End Generate.

End VacancyBot.

(** ** Notions used in the statements *)

(** No white space at either end. *)
Definition trimmed (t : text) : Prop :=
  (∀ c, head t = Some c → isspace c = false)
  ∧ (∀ c, last t = Some c → isspace c = false).

(** [re.search(r, s) is not None] *)
Fixpoint search_scan (r : regex) (b s : text) : bool :=
  match match_at r b s with
  | Some _ => true
  | None => match s with c :: s' => search_scan r (c :: b) s' | [] => false end
  end.

Definition re_search (r : regex) (s : text) : bool := search_scan r [] s.

(** The URL of the spec at the start of [t]: the scheme [http://] or
    [https://] followed by a non-empty run of characters that are not
    white space, taken as far as it goes. *)
Definition spec_url_len (t : text) : option nat :=
  let after (k : nat) := run nonspace (drop k t) in
  if starts (str "http://") t && (0 <? after 7) then Some (7 + after 7)
  else if starts (str "https://") t && (0 <? after 8) then Some (8 + after 8)
  else None.

Definition spec_url_at (t : text) : option text := (λ n, take n t) <$> spec_url_len t.

(** The leftmost URL of [t], if there is one. *)
Fixpoint spec_first_url (t : text) : option text :=
  match spec_url_at t with
  | Some u => Some u
  | None => match t with _ :: t' => spec_first_url t' | [] => None end
  end.

(** [s] begins with one character of each class, in order. *)
Fixpoint starts_cls (ps : list cls) (s : text) : bool :=
  match ps, s with
  | [], _ => true
  | p :: ps', c :: s' => p c && starts_cls ps' s'
  | _ :: _, [] => false
  end.

(** The text has a place where [http://] or [https://] is followed by a
    character that is not white space. *)
Definition mentions_url (t : text) : Prop :=
  ∃ a c rest, nonspace c = true
    ∧ (t = a ++ str "http://" ++ c :: rest ∨ t = a ++ str "https://" ++ c :: rest).

(** What a pattern needs from a text whose characters all lie in [P]: a
    pattern with a mandatory character outside [P] cannot match in it. *)
Fixpoint feasible (P : cls) (r : regex) : Prop :=
  match r with
  | Chr q | Rep (S _) q => ∃ c, P c = true ∧ q c = true
  | Seq r1 r2 => feasible P r1 ∧ feasible P r2
  | Alt r1 r2 => feasible P r1 ∨ feasible P r2
  | _ => True
  end.

(** No run of three newlines. *)
Definition calm (t : text) : Prop :=
  ∀ a s, t = a ++ s → run (lit newline) s < 3.

(** The patterns whose matches the sanitizer rewrites, apart from the
    first link rule (which puts back what it matched) and the collapsing
    of newlines. *)
Definition rewrite_patterns : list regex :=
  [ team_prefix ⊙ team_url_group; bare_url; fence_open; fence_close; br_tag; p_open;
    lits (str "</p>"); div_open; lits (str "</div>"); span_tag;
    lits (str "<strong>"); lits (str "</strong>"); lits (str "<em>"); lits (str "</em>");
    other_tag; aggregator_url; aggregator; service_word ].

(** None of the [rewrite_patterns] matches anywhere in [y]. *)
Definition settled (y : text) : bool :=
  forallb (λ r, negb (re_search r y)) rewrite_patterns.

(** *** Tags *)

Definition notgt : cls := other_than ">".

(** How the text after [<] must begin for the tag rule to keep the tag:
    one of the letters b, i, u, s, a, or [code], or [pre], each also after
    a slash.  (The [blockquote] and [a\s] alternatives of the pattern
    begin with b and a.) *)
Definition kept_prefixes : list (list cls) :=
  [ [one_of "biusa"]; [chr "/"; one_of "biusa"];
    lit <$> str "code"; lit <$> str "/code"; lit <$> str "pre"; lit <$> str "/pre" ].

Definition kept_start (X : text) : bool :=
  existsb (λ ps, starts_cls ps X) kept_prefixes.

(** The text has a tag [<X>], [X] not empty and without [>], that does not
    begin in one of the kept ways. *)
Definition tag_left (t : text) : Prop :=
  ∃ a X s, t = a ++ str "<" ++ X ++ str ">" ++ s
    ∧ X ≠ [] ∧ Forall (λ c, notgt c = true) X ∧ kept_start X = false.

(** [strips_tags t t']: [t'] is [t] without some of its tags [<X>] of that
    kind; every other character is kept, in order. *)
Inductive strips_tags : text → text → Prop :=
| strips_nil : strips_tags [] []
| strips_keep c t t' : strips_tags t t' → strips_tags (c :: t) (c :: t')
| strips_drop X t t' :
    X ≠ [] → Forall (λ c, notgt c = true) X → kept_start X = false →
    strips_tags t t' → strips_tags (str "<" ++ X ++ str ">" ++ t) t'.

(** After a [<] that stays, the tag rule has nothing to match: the text
    begins in a kept way, or [>] follows at once, or no [>] follows. *)
Definition open_ok (X : text) : Prop :=
  kept_start X = true ∨ run notgt X = 0 ∨ run notgt X = length X.

Definition tagfree (t : text) : Prop :=
  ∀ a X, t = a ++ N_of_ascii "<" :: X → open_ok X.

(** [edits H O t t']: [t'] is [t] with some segments replaced; a replaced
    segment begins with a character of [H], its replacement satisfies [O]. *)
Inductive edits (H : cls) (O : text → Prop) : text → text → Prop :=
| edits_nil : edits H O [] []
| edits_keep c t t' : edits H O t t' → edits H O (c :: t) (c :: t')
| edits_cut c seg t out t' :
    H c = true → O out → edits H O t t' → edits H O (c :: seg ++ t) (out ++ t').

(** Where the rules after the tag rule start an edit: on [<], on h or v in
    either case, or on white space; what they put in: nothing, or two
    newlines. *)
Definition edit_start : cls := λ c, chr "<" c || ichr "h" c || ichr "v" c || isspace c.
Definition edit_out (out : text) : Prop := out = [] ∨ out = [newline; newline].

(** A matcher whose matches are non-empty and inside the text. *)
Definition proper (m : matcher) : Prop :=
  ∀ b s n out, m b s = Some (n, out) → 0 < n ≤ length s.

(** Any character but the backslash. *)
Definition no_backslash : cls := λ c, negb (c =? backslash)%N.

(** All the patterns of the two sanitizing functions and of the extractor. *)
Definition source_patterns : list regex :=
  [ team_prefix ⊙ handle_group; team_prefix ⊙ team_url_group; bare_url;
    fence_open; fence_close; br_tag; p_open; lits (str "</p>"); div_open;
    lits (str "</div>"); span_tag; lits (str "<strong>"); lits (str "</strong>");
    lits (str "<em>"); lits (str "</em>"); other_tag; aggregator_url; aggregator;
    blank_lines; service_word; url_pattern ].

(** ** Sequences of store operations *)







(** ** Lengths of matches *)

(** The least number of characters a match of the pattern takes. *)
Fixpoint min_len (r : regex) : nat :=
  match r with
  | Chr _ => 1
  | Rep n _ => n
  | Seq r1 r2 => min_len r1 + min_len r2
  | Alt r1 r2 => min_len r1 `min` min_len r2
  | _ => 0
  end.

(** ** The message handlers of [VacancyBot] in [main.py] *)
Module VacancyBotHandlers.

(** [TemplateStates] *)
Inductive TemplateStates := waiting_template | waiting_description.

(** What [MemoryStorage] keeps for a chat and a user: the state and the
    data.  The handlers put only strings into the data. *)
Record context := { state : option TemplateStates; data : gmap text text }.

Definition fresh : context := {| state := None; data := ∅ |}.

(** A [State] used as a filter: the current state is this one. *)
Definition in_state (s : TemplateStates) (c : context) : bool :=
  match state c, s with
  | Some waiting_template, waiting_template
  | Some waiting_description, waiting_description => true
  | _, _ => false
  end.

(** A message: the chat, the sender, the text if it has one, and the
    caption if it is a photo or a file sent with one. *)
Record message := {
  chat : Z;
  from_user : Z;
  message_text : option text;
  caption : option text
}.

(** [message.text or message.caption] *)
Definition text_or_caption (m : message) : option text :=
  match message_text m with
  | Some (c :: t) => Some (c :: t)
  | _ => caption m
  end.

(** The texts the handlers answer with; the fixed ones by name. *)
Inductive notice :=
| Greeting                    (* "Hi! Send me a vacancy link or description ..." *)
| SendTemplate                (* "Send me the template text I should use ..." *)
| GotTemplate                 (* "Got the template. Now send a short description ..." *)
| TemplateSaved               (* "Template saved" *)
| NoTemplateYet               (* "No template saved yet. Tap 'Update template' ..." *)
| Template (template description : pyval)  (* the two fields under their headings *)
| NeedTemplate                (* "Please add a template first ..." *)
| Working                     (* "Working on it..." *)
| Completion (reply_text : text)
| Failed (exc : exn).         (* "Failed to generate text: {exc}" *)

(** One call of [message.answer]. *)
Record answer := {
  chat_id : Z;
  sent : notice;
  reply_markup : bool;               (* the main keyboard is attached *)
  disable_web_page_preview : bool
}.

Record world := {
  storage : gmap (Z * Z) context;    (* the FSM storage of the dispatcher *)
  templates : gmap text TemplateStore.UserTemplate;
  path : disk;                       (* the file at [TEMPLATE_STORE_PATH] *)
  answers : list answer;             (* the calls of [message.answer], in order *)
  posted : list completion_request   (* the requests to the completion API *)
}.

(** The FSM context of the message: by chat and user. *)
Definition key (m : message) : Z * Z := (chat m, from_user m).

Definition context_of (k : Z * Z) (w : world) : context := default fresh (storage w !! k).

Definition set_context (k : Z * Z) (c : context) : act world unit :=
  λ w, (Ret (), {| storage := <[k := c]> (storage w); templates := templates w;
                   path := path w; answers := answers w; posted := posted w |}).

(** [state.clear()] *)
Definition clear (m : message) : act world unit := set_context (key m) fresh.

(** [state.set_state(s)] *)
Definition set_state (m : message) (s : TemplateStates) : act world unit :=
  λ w, set_context (key m) {| state := Some s; data := data (context_of (key m) w) |} w.

(** [state.update_data(template_text=t)] *)
Definition update_data (m : message) (t : text) : act world unit :=
  λ w, set_context (key m)
         {| state := state (context_of (key m) w);
            data := <[str "template_text" := t]> (data (context_of (key m) w)) |} w.

(** [state.get_data()] *)
Definition get_data (m : message) : act world (gmap text text) :=
  λ w, (Ret (data (context_of (key m) w)), w).

(** [message.text.strip()] *)
Definition text_strip (m : message) : act world text :=
  act_lift (match message_text m with Some t => Ret (strip t) | None => Raise AttributeError end).

Section Handlers.

(** What Telegram answers to the n-th call of [message.answer]. *)
Variable telegram : nat → answer → outcome unit.
Variable YANDEX_API_KEY : option text.
Variables YANDEX_MODEL_URI YANDEX_FOLDER_ID : text.
Variable post : completion_request → outcome response.
(** What the filter [CommandStart()] finds in the text it reads, and
    [str.casefold]. *)
Variable CommandStart : text → bool.
Variable casefold : text → text.

(** [message.answer(text, reply_markup=..., disable_web_page_preview=...)] *)
Definition message_answer (m : message) (n : notice) (markup preview_off : bool)
    : act world unit :=
  λ w, let a := {| chat_id := chat m; sent := n; reply_markup := markup;
                   disable_web_page_preview := preview_off |} in
       (telegram (length (answers w)) a,
        {| storage := storage w; templates := templates w; path := path w;
           answers := answers w ++ [a]; posted := posted w |}).

(** [self.templates.set_template(...)] *)
Definition templates_set (user_id : Z) (template description : text) : act world unit :=
  λ w, let r := TemplateStore.set_template user_id template description (templates w) in
       (r.1, {| storage := storage w; templates := r.2.1; path := r.2.2;
                answers := answers w; posted := posted w |}).

(** [self.templates.get_template(...)] *)
Definition templates_get (user_id : Z) : act world (option TemplateStore.UserTemplate) :=
  λ w, (Ret (TemplateStore.get_template user_id (templates w)), w).

(** [self._call_yandex_llm(...)] *)
Definition call_llm (template description : pyval) (vacancy_text : text) : act world text :=
  λ w, let r := VacancyBot._call_yandex_llm YANDEX_API_KEY YANDEX_MODEL_URI YANDEX_FOLDER_ID
                  post template description vacancy_text in
       (r.1, {| storage := storage w; templates := templates w; path := path w;
                answers := answers w; posted := posted w ++ r.2 |}).

Definition on_start (m : message) : act world unit :=
  _ ⟵ clear m;
  message_answer m Greeting true false.

Definition ask_template (m : message) : act world unit :=
  _ ⟵ clear m;
  _ ⟵ message_answer m SendTemplate true false;
  set_state m waiting_template.

Definition receive_template (m : message) : act world unit :=
  t ⟵ text_strip m;
  _ ⟵ update_data m t;
  _ ⟵ message_answer m GotTemplate true false;
  set_state m waiting_description.

Definition receive_description (m : message) : act world unit :=
  data ⟵ get_data m;
  let template_text := default [] (data !! str "template_text") in
  description ⟵ text_strip m;
  _ ⟵ templates_set (from_user m) template_text description;
  _ ⟵ message_answer m TemplateSaved true false;
  clear m.

Definition show_template (m : message) : act world unit :=
  _ ⟵ clear m;
  tpl ⟵ templates_get (from_user m);
  match tpl with
  | None => message_answer m NoTemplateYet true false
  | Some tpl =>
      message_answer m (Template (TemplateStore.template tpl) (TemplateStore.description tpl))
        true false
  end.

Definition generate_response (m : message) : act world unit :=
  _ ⟵ clear m;
  tpl ⟵ templates_get (from_user m);
  match tpl with
  | None => message_answer m NeedTemplate true false
  | Some tpl =>
      vacancy_text ⟵ text_strip m;
      _ ⟵ message_answer m Working true false;
      r ⟵ act_try
            (reply_text ⟵ call_llm (TemplateStore.template tpl)
                             (TemplateStore.description tpl) vacancy_text;
             act_ret (Some reply_text))
            (λ exc, _ ⟵ message_answer m (Failed exc) false false; act_ret None);
      match r with
      | None => act_ret ()
      | Some reply_text => message_answer m (Completion reply_text) true true
      end
  end.

(** The text of the message is [w] up to case folding. *)
Definition text_is (w : string) (m : message) : bool :=
  match message_text m with
  | Some t => bool_decide (casefold t = str w)
  | None => false
  end.

(** The filter [CommandStart()] on a message: it reads the text, or the
    caption of a message without text, and rejects a message that has
    neither. *)
Definition command_start (m : message) : bool :=
  match text_or_caption m with
  | Some (c :: t) => CommandStart (c :: t)
  | _ => false
  end.

(** [_register_handlers]: the filters and their handlers, in the order of
    registration.  A filter sees the message and the FSM context. *)
Definition _register_handlers
    : list ((message → context → bool) * (message → act world unit)) :=
  [ (λ m _, command_start m, on_start);
    (λ m _, text_is "update template" m, ask_template);
    (λ m _, text_is "show current template" m, show_template);
    (λ _ c, in_state waiting_template c, receive_template);
    (λ _ c, in_state waiting_description c, receive_description);
    (λ m _, match message_text m with Some (_ :: _) => true | _ => false end, generate_response) ].

(** The dispatcher gives a message to the first handler whose filter
    accepts it, and to none if no filter does. *)
Fixpoint propagate (hs : list ((message → context → bool) * (message → act world unit)))
    (m : message) : act world unit :=
  match hs with
  | [] => act_ret ()
  | (accepts, handler) :: hs' =>
      λ w, if accepts m (context_of (key m) w) then handler m w else propagate hs' m w
  end.

Definition feed_update (m : message) : act world unit := propagate _register_handlers m.

(** Messages handled one after the other, each to its end before the
    next is taken, as when every message is sent after the answer to the
    one before; a handler that raises does not stop the polling. *)
Fixpoint feed_updates (ms : list message) (w : world) : world :=
  match ms with
  | [] => w
  | m :: ms' => feed_updates ms' (feed_update m w).2
  end.

(** *** Handlers that overlap

    [start_polling] gives every update to a task of its own
    ([handle_as_tasks] is on unless it is switched off, and main.py leaves
    it on), so a handler that waits for Telegram or for the completion API
    leaves the event loop to the handlers of the messages that came after
    it.  A handler is then a sequence of pieces, each of which runs
    without interruption up to the next call that waits; the calls of
    [state] on the [MemoryStorage] do not wait. *)
Inductive task :=
| Finished (o : outcome unit)
| Bind {A : Type} (f : act world A) (k : A → task)     (* runs at once *)
| Answer (a : answer) (k : task)                        (* [await message.answer(..)] *)
| Llm (template description : pyval) (vacancy_text : text)
      (k : outcome text → task).                        (* [await self._call_yandex_llm(..)] *)

Definition answering (m : message) (n : notice) (markup preview_off : bool) (k : task) : task :=
  Answer {| chat_id := chat m; sent := n; reply_markup := markup;
            disable_web_page_preview := preview_off |} k.

Definition on_start_task (m : message) : task :=
  Bind (clear m) (λ _, answering m Greeting true false (Finished (Ret ()))).

Definition ask_template_task (m : message) : task :=
  Bind (clear m) (λ _,
    answering m SendTemplate true false
      (Bind (set_state m waiting_template) (λ _, Finished (Ret ())))).

Definition receive_template_task (m : message) : task :=
  Bind (t ⟵ text_strip m; update_data m t) (λ _,
    answering m GotTemplate true false
      (Bind (set_state m waiting_description) (λ _, Finished (Ret ())))).

Definition receive_description_task (m : message) : task :=
  Bind (data ⟵ get_data m;
        let template_text := default [] (data !! str "template_text") in
        description ⟵ text_strip m;
        templates_set (from_user m) template_text description) (λ _,
    answering m TemplateSaved true false
      (Bind (clear m) (λ _, Finished (Ret ())))).

Definition show_template_task (m : message) : task :=
  Bind (_ ⟵ clear m; templates_get (from_user m)) (λ tpl,
    match tpl with
    | None => answering m NoTemplateYet true false (Finished (Ret ()))
    | Some tpl =>
        answering m (Template (TemplateStore.template tpl) (TemplateStore.description tpl))
          true false (Finished (Ret ()))
    end).

Definition generate_response_task (m : message) : task :=
  Bind (_ ⟵ clear m; templates_get (from_user m)) (λ tpl,
    match tpl with
    | None => answering m NeedTemplate true false (Finished (Ret ()))
    | Some tpl =>
        Bind (text_strip m) (λ vacancy_text,
          answering m Working true false
            (Llm (TemplateStore.template tpl) (TemplateStore.description tpl) vacancy_text
               (λ r, match r with
                     | Ret reply_text =>
                         answering m (Completion reply_text) true true (Finished (Ret ()))
                     | Raise exc =>
                         answering m (Failed exc) false false (Finished (Ret ()))
                     end)))
    end).

(** The request of [message.answer] has gone out. *)
Definition sent_answer (a : answer) (w : world) : world :=
  {| storage := storage w; templates := templates w; path := path w;
     answers := answers w ++ [a]; posted := posted w |}.

(** A task run to its end with nothing in between. *)
Fixpoint finish (t : task) : act world unit :=
  match t with
  | Finished o => act_lift o
  | Bind f k =>
      λ w, match f w with
           | (Ret a, w') => finish (k a) w'
           | (Raise e, w') => (Raise e, w')
           end
  | Answer a k =>
      λ w, match telegram (length (answers w)) a with
           | Ret _ => finish k (sent_answer a w)
           | Raise e => (Raise e, sent_answer a w)
           end
  | Llm tp de v k => λ w, match call_llm tp de v w with (r, w') => finish (k r) w' end
  end.

(** A task run up to the call it waits for: what is left of it, or
    [None] when it has come to its end, and the world it leaves.
    [_call_yandex_llm] waits only when it posts. *)
Fixpoint advance (t : task) (w : world) : option task * world :=
  match t with
  | Finished _ => (None, w)
  | Bind f k =>
      match f w with
      | (Ret a, w') => advance (k a) w'
      | (Raise _, w') => (None, w')
      end
  | Answer a k =>
      (Some match telegram (length (answers w)) a with
            | Ret _ => k
            | Raise e => Finished (Raise e)
            end,
       sent_answer a w)
  | Llm tp de v k =>
      let r := VacancyBot._call_yandex_llm YANDEX_API_KEY YANDEX_MODEL_URI YANDEX_FOLDER_ID
                 post tp de v in
      match r.2 with
      | [] => advance (k r.1) w
      | _ :: _ => (Some (k r.1), (call_llm tp de v w).2)
      end
  end.

(** The handlers of [_register_handlers] as tasks, under the same
    filters. *)
Definition _register_tasks : list ((message → context → bool) * (message → task)) :=
  [ (λ m _, command_start m, on_start_task);
    (λ m _, text_is "update template" m, ask_template_task);
    (λ m _, text_is "show current template" m, show_template_task);
    (λ _ c, in_state waiting_template c, receive_template_task);
    (λ _ c, in_state waiting_description c, receive_description_task);
    (λ m _, match message_text m with Some (_ :: _) => true | _ => false end,
     generate_response_task) ].

(** The task of the first handler whose filter accepts the message. *)
Fixpoint choose (hs : list ((message → context → bool) * (message → task)))
    (m : message) (w : world) : task :=
  match hs with
  | [] => Finished (Ret ())
  | (accepts, handler) :: hs' =>
      if accepts m (context_of (key m) w) then handler m else choose hs' m w
  end.

(** What the event loop does next: it takes the next message, whose
    handler runs up to its first wait, or the call that the i-th waiting
    task waits for has returned and that task goes on. *)
Inductive turn := Take | Resume (i : nat).

(** The event loop under a given order of turns: the messages not yet
    taken, the tasks that wait, the world. *)
Fixpoint polling (ts : list turn) (ms : list message) (waiting : list task) (w : world)
    : list message * list task * world :=
  match ts with
  | [] => (ms, waiting, w)
  | Take :: ts' =>
      match ms with
      | [] => polling ts' ms waiting w
      | m :: ms' =>
          let r := advance (choose _register_tasks m w) w in
          polling ts' ms' (waiting ++ match r.1 with Some t => [t] | None => [] end) r.2
      end
  | Resume i :: ts' =>
      match waiting !! i with
      | None => polling ts' ms waiting w
      | Some t =>
          let r := advance t w in
          polling ts' ms
            match r.1 with Some t' => <[i := t']> waiting | None => delete i waiting end r.2
      end
  end.

End Handlers.

End VacancyBotHandlers.

(** A text that is neither the start command nor one of the two button
    texts, for the filters of [_register_handlers]. *)
Definition plain (CommandStart : text → bool) (casefold : text → text) (t : text) : Prop :=
  CommandStart t = false
  ∧ casefold t ≠ str "update template" ∧ casefold t ≠ str "show current template".

(** Telegram accepts every call. *)
Definition accepting {A} (telegram : nat → A → outcome unit) : Prop :=
  ∀ n a, telegram n a = Ret ().

(** The world after a handler has replaced the context of [k] and sent
    the answers [new]. *)
Definition put (w : VacancyBotHandlers.world) (k : Z * Z) (c : VacancyBotHandlers.context)
    (new : list VacancyBotHandlers.answer) : VacancyBotHandlers.world :=
  {| VacancyBotHandlers.storage := <[k := c]> (VacancyBotHandlers.storage w);
     VacancyBotHandlers.templates := VacancyBotHandlers.templates w;
     VacancyBotHandlers.path := VacancyBotHandlers.path w;
     VacancyBotHandlers.answers := VacancyBotHandlers.answers w ++ new;
     VacancyBotHandlers.posted := VacancyBotHandlers.posted w |}.

(** An answer with the main keyboard. *)
Definition with_keyboard (m : VacancyBotHandlers.message) (n : VacancyBotHandlers.notice)
    : VacancyBotHandlers.answer :=
  {| VacancyBotHandlers.chat_id := VacancyBotHandlers.chat m;
     VacancyBotHandlers.sent := n;
     VacancyBotHandlers.reply_markup := true;
     VacancyBotHandlers.disable_web_page_preview := false |}.

(** A dispatcher that has seen nothing yet, with the given store. *)
Definition new_world (data : gmap text TemplateStore.UserTemplate) : VacancyBotHandlers.world :=
  {| VacancyBotHandlers.storage := ∅;
     VacancyBotHandlers.templates := data;
     VacancyBotHandlers.path := (TemplateStore._save data).2;
     VacancyBotHandlers.answers := [];
     VacancyBotHandlers.posted := [] |}.

(** ** The handlers of [mch_helper/bot.py] *)
Module BotHandlers.

(** [TEMPLATE_INPUT, DESCRIPTION_INPUT, DESCRIPTION_EDIT_INPUT, VACANCY_INPUT
    = range(4)], and [ConversationHandler.END]. *)
Definition TEMPLATE_INPUT : Z := 0.
Definition DESCRIPTION_INPUT : Z := 1.
Definition DESCRIPTION_EDIT_INPUT : Z := 2.
Definition VACANCY_INPUT : Z := 3.
Definition END : Z := -1.

(** What an update carries: a command (by its name, without the slash), a
    text message that is not a command, or the press of an inline button
    (by its callback data). *)
Inductive event :=
| Command (name : text)
| Text (t : text)
| Callback (data : text).

Record update := {
  chat : Z;                 (* [effective_chat.id] *)
  user : Z;                 (* [effective_user.id] *)
  first_name : text;        (* [effective_user.first_name] *)
  what : event
}.

(** The inline keyboards of the source. *)
Inductive keyboard :=
| no_keyboard
| menu                      (* load, view, update description, help *)
| back                      (* back to the menu *)
| load_example              (* load an example *)
| generate_or_back.         (* generate a message, back to the menu *)

Inductive parse_mode := no_mode | Markdown | HTML.

(** The texts the handlers send; the fixed ones by name. *)
Inductive notice :=
| Welcome (first_name : text)
| SendExample
| YourExample (description example : pyval)
| NoExampleYet
| Help
| ChooseAction
| ReadyToGenerate
| LoadExampleAgain
| LoadExampleFirst
| SendNewDescription
| ExampleReceived
| ExampleSaved (description : text)
| NoSavedExample
| DescriptionUpdated (description : text)
| NeedExample
| Processing
| Extracting
| Generating
| Generated (message : text)
| MessageReady
| SomethingWentWrong
| Cancelled
| NeedExampleForCommand
| ReadyForCommand.

(** The calls of the Telegram API. *)
Inductive call :=
| answer_query                                              (* [query.answer()] *)
| edit_message_text (n : notice) (k : keyboard) (p : parse_mode)
| reply_text (n : notice) (k : keyboard) (p : parse_mode) (preview_off : bool)
| edit_text (n : notice)                                    (* on the processing message *)
| delete_message.                                           (* [delete] of the processing message *)

Record world := {
  manager : pyval * disk;                  (* [template_manager] and its file *)
  user_data : gmap Z (gmap text text);     (* [context.user_data], by user *)
  template_conv : gmap (Z * Z) Z;          (* the states of [template_conv_handler] *)
  description_conv : gmap (Z * Z) Z;       (* the states of [description_conv_handler] *)
  calls : list (Z * call);                 (* the Telegram calls, with the chat *)
  fetched : list text;                     (* the addresses requested *)
  posted : list completion_request         (* the requests to the completion API *)
}.

(** [bool(value)] *)
Definition truthy (v : pyval) : bool :=
  match v with
  | PNone => false
  | PBool b => b
  | PInt z => negb (z =? 0)%Z
  | PStr s => match s with [] => false | _ => true end
  | PList l => match l with [] => false | _ => true end
  | PDict d => negb (bool_decide (d = ∅))
  end.

(** [bool(template_data)] for the result of [get_template]. *)
Definition found (o : option pyval) : bool :=
  match o with Some v => truthy v | None => false end.

Definition with_manager (st : pyval * disk) (w : world) : world :=
  {| manager := st; user_data := user_data w; template_conv := template_conv w;
     description_conv := description_conv w; calls := calls w; fetched := fetched w;
     posted := posted w |}.

Definition with_user_data (u : Z) (d : gmap text text) (w : world) : world :=
  {| manager := manager w; user_data := <[u := d]> (user_data w);
     template_conv := template_conv w; description_conv := description_conv w;
     calls := calls w; fetched := fetched w; posted := posted w |}.

Definition with_calls (ch : Z) (cs : list call) (w : world) : world :=
  {| manager := manager w; user_data := user_data w; template_conv := template_conv w;
     description_conv := description_conv w; calls := calls w ++ (pair ch <$> cs);
     fetched := fetched w; posted := posted w |}.

Definition with_template_conv (s : gmap (Z * Z) Z) (w : world) : world :=
  {| manager := manager w; user_data := user_data w; template_conv := s;
     description_conv := description_conv w; calls := calls w; fetched := fetched w;
     posted := posted w |}.

Definition with_description_conv (s : gmap (Z * Z) Z) (w : world) : world :=
  {| manager := manager w; user_data := user_data w; template_conv := template_conv w;
     description_conv := s; calls := calls w; fetched := fetched w; posted := posted w |}.

(** [context.user_data] of the user: empty until something is put in. *)
Definition user_data_of (u : Z) (w : world) : gmap text text := default ∅ (user_data w !! u).

(** [template_manager.get_template(user_id)] *)
Definition get_template (u : Z) : act world (option pyval) :=
  λ w, (TemplateManager.get_template u (manager w).1, w).

(** [template_manager.set_template(...)] *)
Definition set_template (u : Z) (example description : text) : act world unit :=
  λ w, let r := TemplateManager.set_template u example description (manager w) in
       (r.1, with_manager r.2 w).

(** [template_manager.update_description(...)] *)
Definition update_description (u : Z) (description : text) : act world unit :=
  λ w, let r := TemplateManager.update_description u description (manager w) in
       (r.1, with_manager r.2 w).

Section Handlers.

(** What Telegram answers to the n-th call. *)
Variable telegram : nat → Z * call → outcome unit.
Variables api_key folder_id : option text.
Variable post : completion_request → outcome response.
Variable http_get : text → outcome response.
Variable soup_text : text → outcome text.
(** [str(value)] for a value that is not a string, as an f-string formats it. *)
Variable python_str : pyval → text.

Definition send (up : update) (c : call) : act world unit :=
  λ w, (telegram (length (calls w)) (chat up, c),
        {| manager := manager w; user_data := user_data w;
           template_conv := template_conv w; description_conv := description_conv w;
           calls := calls w ++ [(chat up, c)]; fetched := fetched w; posted := posted w |}).

(** The text an f-string puts in for a value. *)
Definition formatted (v : pyval) : text :=
  match v with PStr s => s | _ => python_str v end.

(** [vacancy_processor.extract_url_content(text)] *)
Definition extract (t : text) : act world (text * option text) :=
  λ w, let r := extract_url_content http_get soup_text t in
       (Ret r.1,
        {| manager := manager w; user_data := user_data w;
           template_conv := template_conv w; description_conv := description_conv w;
           calls := calls w; fetched := fetched w ++ r.2; posted := posted w |}).

(** [vacancy_processor.generate_message(...)] *)
Definition generate (vacancy_text example description : text) (contact_info : option text)
    : act world text :=
  λ w, let r := VacancyProcessor.generate_message api_key folder_id post
                  vacancy_text example description contact_info in
       (r.1,
        {| manager := manager w; user_data := user_data w;
           template_conv := template_conv w; description_conv := description_conv w;
           calls := calls w; fetched := fetched w; posted := posted w ++ r.2 |}).

(** The text of the message the handler was registered for. *)
Definition message_text (up : update) : text :=
  match what up with Text t => t | Command _ | Callback _ => [] end.

(** The data of the callback query. *)
Definition query_data (up : update) : text :=
  match what up with Callback d => d | Command _ | Text _ => [] end.

Definition start (up : update) : act world (option Z) :=
  _ ⟵ send up (reply_text (Welcome (first_name up)) menu no_mode false);
  act_ret None.

Definition button_callback (up : update) : act world (option Z) :=
  _ ⟵ send up answer_query;
  if bool_decide (query_data up = str "set_template") then
    _ ⟵ send up (edit_message_text SendExample no_keyboard Markdown);
    act_ret (Some TEMPLATE_INPUT)
  else if bool_decide (query_data up = str "view_template") then
    template_data ⟵ get_template (user up);
    n ⟵ (if found template_data then
            let v := default PNone template_data in
            description ⟵ act_lift (getitem v (str "description"));
            example ⟵ act_lift (getitem v (str "example"));
            act_ret (YourExample description example)
          else act_ret NoExampleYet);
    _ ⟵ send up (edit_message_text n back Markdown);
    act_ret None
  else if bool_decide (query_data up = str "help") then
    _ ⟵ send up (edit_message_text Help back Markdown);
    act_ret None
  else if bool_decide (query_data up = str "back_to_menu") then
    _ ⟵ send up (edit_message_text ChooseAction menu no_mode);
    act_ret None
  else if bool_decide (query_data up = str "generate_now") then
    template_data ⟵ get_template (user up);
    _ ⟵ (if found template_data
          then send up (edit_message_text ReadyToGenerate no_keyboard Markdown)
          else send up (edit_message_text LoadExampleAgain no_keyboard no_mode));
    act_ret None
  else if bool_decide (query_data up = str "set_description") then
    template_data ⟵ get_template (user up);
    if found template_data then
      _ ⟵ send up (edit_message_text SendNewDescription no_keyboard no_mode);
      act_ret (Some DESCRIPTION_EDIT_INPUT)
    else
      _ ⟵ send up (edit_message_text LoadExampleFirst load_example no_mode);
      act_ret None
  else act_ret None.

Definition receive_template (up : update) : act world (option Z) :=
  _ ⟵ (λ w, (Ret (), with_user_data (user up)
                        (<[str "template" := message_text up]> (user_data_of (user up) w)) w));
  _ ⟵ send up (reply_text ExampleReceived no_keyboard no_mode false);
  act_ret (Some DESCRIPTION_INPUT).

Definition receive_template_description (up : update) : act world (option Z) :=
  let description := message_text up in
  template ⟵ (λ w, (Ret (user_data_of (user up) w !! str "template"), w));
  _ ⟵ match template with
       | Some (c :: t) =>
           _ ⟵ set_template (user up) (c :: t) description;
           send up (reply_text (ExampleSaved description) generate_or_back no_mode false)
       | Some [] | None => act_ret ()
       end;
  _ ⟵ (λ w, (Ret (), with_user_data (user up) ∅ w));
  act_ret (Some END).

Definition receive_description_update (up : update) : act world (option Z) :=
  let description := message_text up in
  template_data ⟵ get_template (user up);
  if found template_data then
    _ ⟵ update_description (user up) description;
    _ ⟵ send up (reply_text (DescriptionUpdated description) generate_or_back Markdown false);
    act_ret (Some END)
  else
    _ ⟵ send up (reply_text NoSavedExample no_keyboard no_mode false);
    act_ret (Some END).

Definition handle_vacancy (up : update) : act world (option Z) :=
  let vacancy_text := message_text up in
  template_data ⟵ get_template (user up);
  if found template_data then
    let v := default PNone template_data in
    _ ⟵ send up (reply_text Processing no_keyboard no_mode false);
    _ ⟵ act_try
          (r ⟵ extract vacancy_text;
           _ ⟵ match r.2 with
                | Some (_ :: _) => send up (edit_text Extracting)
                | Some [] | None => act_ret ()
                end;
           _ ⟵ send up (edit_text Generating);
           example ⟵ act_lift (getitem v (str "example"));
           description ⟵ act_lift (getitem v (str "description"));
           generated_message ⟵ generate r.1 (formatted example) (formatted description) None;
           _ ⟵ send up delete_message;
           _ ⟵ send up (reply_text (Generated generated_message) no_keyboard HTML true);
           send up (reply_text MessageReady no_keyboard no_mode false))
          (λ _, send up (edit_text SomethingWentWrong));
    act_ret None
  else
    _ ⟵ send up (reply_text NeedExample load_example no_mode false);
    act_ret None.

Definition cancel (up : update) : act world (option Z) :=
  _ ⟵ (λ w, (Ret (), with_user_data (user up) ∅ w));
  _ ⟵ send up (reply_text Cancelled no_keyboard no_mode false);
  act_ret (Some END).

Definition generate_command (up : update) : act world (option Z) :=
  template_data ⟵ get_template (user up);
  if found template_data then
    _ ⟵ send up (reply_text ReadyForCommand no_keyboard Markdown false);
    act_ret None
  else
    _ ⟵ send up (reply_text NeedExampleForCommand load_example no_mode false);
    act_ret None.

(** *** The handlers as [main] registers them *)

(** [CallbackQueryHandler(callback, pattern='^word$')]: [re.match] on the
    callback data. *)
Definition pattern (word : string) (up : update) : bool :=
  match what up with
  | Callback d =>
      match match_at (Bos ⊙ lits (str word) ⊙ Eos) [] d with Some _ => true | None => false end
  | Command _ | Text _ => false
  end.

(** [MessageHandler(filters.TEXT & ~filters.COMMAND, callback)] *)
Definition is_text (up : update) : bool :=
  match what up with Text (_ :: _) => true | _ => false end.

(** [CommandHandler(name, callback)] *)
Definition is_command (name : string) (up : update) : bool :=
  match what up with Command n => bool_decide (n = str name) | _ => false end.

(** A [ConversationHandler]: where its states are kept, its entry points,
    the handlers of each state, and its fallbacks; each handler with the
    check that selects it. *)
Record conversation := {
  states_of : world → gmap (Z * Z) Z;
  set_states : gmap (Z * Z) Z → world → world;
  entry_points : list ((update → bool) * (update → act world (option Z)));
  states : Z → list ((update → bool) * (update → act world (option Z)));
  fallbacks : list ((update → bool) * (update → act world (option Z)))
}.

(** The first handler of the list whose check accepts the update. *)
Definition first_match (hs : list ((update → bool) * (update → act world (option Z))))
    (up : update) : option (update → act world (option Z)) :=
  snd <$> head (filter (λ h, h.1 up = true) hs).

(** [ConversationHandler.check_update]: outside a conversation the entry
    points, inside the handlers of the state and then the fallbacks. *)
Definition conversation_check (cv : conversation) (up : update) (w : world)
    : option (update → act world (option Z)) :=
  match states_of cv w !! (chat up, user up) with
  | None => first_match (entry_points cv) up
  | Some s =>
      match first_match (states cv s) up with
      | Some h => Some h
      | None => first_match (fallbacks cv) up
      end
  end.

(** [ConversationHandler.handle_update]: the state the callback returns
    is the new state; [END] leaves the conversation and [None] keeps the
    state.  A callback that raises changes nothing. *)
Definition conversation_handle (cv : conversation)
    (h : update → act world (option Z)) (up : update) : act world unit :=
  λ w, match h up w with
       | (Ret new_state, w') =>
           let k := (chat up, user up) in
           (Ret (),
            match new_state with
            | None => w'
            | Some s =>
                if (s =? END)%Z then set_states cv (delete k (states_of cv w')) w'
                else set_states cv (<[k := s]> (states_of cv w')) w'
            end)
       | (Raise e, w') => (Raise e, w')
       end.

Definition template_conv_handler : conversation :=
  {| states_of := template_conv;
     set_states := with_template_conv;
     entry_points := [(pattern "set_template", button_callback)];
     states := λ s,
       if (s =? TEMPLATE_INPUT)%Z then [(is_text, receive_template)]
       else if (s =? DESCRIPTION_INPUT)%Z then [(is_text, receive_template_description)]
       else [];
     fallbacks := [(is_command "cancel", cancel)] |}.

Definition description_conv_handler : conversation :=
  {| states_of := description_conv;
     set_states := with_description_conv;
     entry_points := [(pattern "set_description", button_callback)];
     states := λ s,
       if (s =? DESCRIPTION_EDIT_INPUT)%Z then [(is_text, receive_description_update)]
       else [];
     fallbacks := [(is_command "cancel", cancel)] |}.

(** A handler of the application: a plain one, or a conversation. *)
Inductive handler :=
| Plain (check : update → bool) (callback : update → act world (option Z))
| Conversation (cv : conversation).

(** [main]: the handlers in the order of [add_handler]. *)
Definition main : list handler :=
  [ Plain (is_command "start") start;
    Plain (is_command "generate") generate_command;
    Plain (is_command "cancel") cancel;
    Conversation template_conv_handler;
    Conversation description_conv_handler;
    Plain (λ up, match what up with Callback _ => true | _ => false end) button_callback;
    Plain is_text handle_vacancy ].

(** [Application.process_update]: the first handler that accepts the
    update handles it, and no other. *)
Fixpoint process (hs : list handler) (up : update) : act world unit :=
  match hs with
  | [] => act_ret ()
  | Plain check callback :: hs' =>
      if check up then (_ ⟵ callback up; act_ret ()) else process hs' up
  | Conversation cv :: hs' =>
      λ w, match conversation_check cv up w with
           | Some h => conversation_handle cv h up w
           | None => process hs' up w
           end
  end.

Definition process_update (up : update) : act world unit := process main up.

(** The updates in order; a handler that raises does not stop the bot. *)
Fixpoint process_updates (ups : list update) (w : world) : world :=
  match ups with
  | [] => w
  | up :: ups' => process_updates ups' (process_update up w).2
  end.

End Handlers.

End BotHandlers.

(** The bot of bot.py before any update, with the given store. *)
Definition idle (st : pyval * disk) : BotHandlers.world :=
  {| BotHandlers.manager := st; BotHandlers.user_data := ∅;
     BotHandlers.template_conv := ∅; BotHandlers.description_conv := ∅;
     BotHandlers.calls := []; BotHandlers.fetched := []; BotHandlers.posted := [] |}.

(** What an update of bot.py may change: the entry, the user data and the
    conversations of its sender, and the calls, which go to its chat. *)
Definition touches_only_sender (up : BotHandlers.update) (w w' : BotHandlers.world) : Prop :=
  (∀ other, other ≠ BotHandlers.user up →
     TemplateManager.get_template other (BotHandlers.manager w').1
     = TemplateManager.get_template other (BotHandlers.manager w).1)
  ∧ (∀ other, other ≠ BotHandlers.user up →
       BotHandlers.user_data_of other w' = BotHandlers.user_data_of other w)
  ∧ (∀ k, k ≠ (BotHandlers.chat up, BotHandlers.user up) →
       BotHandlers.template_conv w' !! k = BotHandlers.template_conv w !! k
       ∧ BotHandlers.description_conv w' !! k = BotHandlers.description_conv w !! k)
  ∧ (∃ new, BotHandlers.calls w' = BotHandlers.calls w ++ new
       ∧ Forall (λ a, a.1 = BotHandlers.chat up) new).

(** * Properties *)

(** ** The model on small inputs *)

(** No pattern of the source matches the empty string, so [re.sub] and
    [re.findall] never meet an empty match. *)
Example source_patterns_not_nullable :
  forallb (λ r, negb (nullable r)) source_patterns = true.
Proof. reflexivity. Qed.

Example clean_paragraphs :
  clean_html_for_telegram (str "<p class=x>one</p><strong>two</strong><br/><h1>three</h1>")
  = str "one" ++ [newline] ++ str "<b>two</b>" ++ [newline] ++ str "three".
Proof. vm_compute. reflexivity. Qed.

Example clean_fence_and_service_word :
  clean_html_for_telegram (str "```html" ++ [newline] ++ str "<b>x</b>" ++ [newline] ++ str "```")
  = str "<b>x</b>".
Proof. vm_compute. reflexivity. Qed.

Example clean_aggregator :
  clean_html_for_telegram (str "see https://VSETI.app/job/1 at Vseti.App now")
  = str "see  at  now".
Proof. vm_compute. reflexivity. Qed.

Example clean_keeps_tags_on_first_letter :
  clean_html_for_telegram (str "<ul><img src=x><script>y</script></ul>")
  = str "<ul><img src=x><script>y</script></ul>".
Proof. vm_compute. reflexivity. Qed.

Example paragraph_rule_takes_pre :
  clean_html_for_telegram (str "<pre>x</pre>") = str "x</pre>".
Proof. vm_compute. reflexivity. Qed.

Example findall_two_urls :
  re_findall url_pattern (str "a http://x.com b https://y.org/z?q=1")
  = [str "http://x.com"; str "https://y.org/z?q=1"].
Proof. vm_compute. reflexivity. Qed.

Example team_link_with_backslash :
  format_contact_links (phrase ++ str ":" ++ [backslash] ++ str "shttp://" ++ [backslash] ++ str "SS")
  = anchor (str "http://" ++ [backslash] ++ str "SS") phrase.
Proof. vm_compute. reflexivity. Qed.

(** ** The template stores *)

Lemma key_of_inj (u v : Z) : key_of u = key_of v → u = v.
Proof.
  unfold key_of. intros H. apply (inj pretty).
  revert H. generalize (pretty u) (pretty v). intros s.
  induction s as [|a s IH]; intros [|a' s']; simpl; intros H; try done.
  injection H as Ha Hs. f_equal; [|by apply IH].
  rewrite <- (ascii_N_embedding a), <- (ascii_N_embedding a'). by rewrite Ha.
Qed.


(** *** Texts that can be encoded *)



















(** ** Message generation *)

Lemma simple_message_contains (vacancy_text example : text) (contact_info : option text) :
  let m := VacancyProcessor._generate_simple_message vacancy_text example contact_info in
  (∃ a b, m = a ++ example ++ b) ∧ (∃ a b, m = a ++ vacancy_text ++ b).
Proof.
  unfold VacancyProcessor._generate_simple_message. split.
  - exists (VacancyProcessor.banner ++ VacancyProcessor.example_label). eexists.
    rewrite <- !app_assoc. reflexivity.
  - exists (VacancyProcessor.banner
            ++ (VacancyProcessor.example_label ++ example ++ [newline; newline])
            ++ VacancyProcessor.vacancy_label). eexists.
    rewrite <- !app_assoc. reflexivity.
Qed.

(** C1, as stated, fails for [_call_yandex_llm] of main.py: without an API
    key it raises instead of returning a fallback text. *)
Lemma call_yandex_llm_without_key_raises :
  ¬ ∃ t, (VacancyBot._call_yandex_llm None (str "gpt://f/m") (str "f")
            (λ _, Raise ConnectionError) (PStr (str "T")) (PStr (str "D")) (str "V")).1 = Ret t.
Proof. intros [t H]. discriminate H. Qed.

(** C1, amended. [generate_message] of bot.py never raises.  Without an
    API key or folder id it posts nothing and returns the fallback text,
    which contains the example and the vacancy text verbatim; otherwise it
    posts one request and returns the same fallback when the post raises,
    the status is not 200, the body is not JSON or the completion text
    cannot be read from it.  [_call_yandex_llm] of main.py has no fallback:
    it raises in each of these cases (without a key before any request),
    and its caller [generate_response] answers with a failure message. *)
Theorem generate_message_fails_open
    (api_key folder_id : option text) (post : completion_request → outcome response)
    (vacancy_text example description : text) (contact_info : option text)
    (YANDEX_API_KEY : option text) (YANDEX_MODEL_URI YANDEX_FOLDER_ID : text)
    (template description' : pyval) :
  let fallback := VacancyProcessor._generate_simple_message vacancy_text example contact_info in
  let r := VacancyProcessor.generate_message api_key folder_id post
             vacancy_text example description contact_info in
  let req := VacancyProcessor.request api_key folder_id
               vacancy_text example description contact_info in
  let r' := VacancyBot._call_yandex_llm YANDEX_API_KEY YANDEX_MODEL_URI YANDEX_FOLDER_ID post
              template description' vacancy_text in
  let req' := VacancyBot.request YANDEX_API_KEY YANDEX_MODEL_URI YANDEX_FOLDER_ID
                template description' vacancy_text in
  ((∃ t, r.1 = Ret t)
   ∧ (falsy api_key || falsy folder_id = true → r = (Ret fallback, []))
   ∧ ((∃ a b, fallback = a ++ example ++ b) ∧ (∃ a b, fallback = a ++ vacancy_text ++ b))
   ∧ (falsy api_key || falsy folder_id = false →
        r.2 = [req]
        ∧ (∀ e, post req = Raise e → r.1 = Ret fallback)
        ∧ (∀ resp, post req = Ret resp → status_code resp ≠ 200%Z → r.1 = Ret fallback)
        ∧ (∀ resp e, post req = Ret resp → json resp = Raise e → r.1 = Ret fallback)
        ∧ (∀ resp v e, post req = Ret resp → json resp = Ret v →
             completion_text v = Raise e → r.1 = Ret fallback)))
  ∧ ((falsy YANDEX_API_KEY = true → r' = (Raise RuntimeError, []))
     ∧ (falsy YANDEX_API_KEY = false →
          r'.2 = [req']
          ∧ (∀ e, post req' = Raise e → r'.1 = Raise e)
          ∧ (∀ resp, post req' = Ret resp →
               ¬ (200 ≤ status_code resp < 300)%Z → r'.1 = Raise HTTPError)
          ∧ (∀ resp e, post req' = Ret resp → (200 ≤ status_code resp < 300)%Z →
               json resp = Raise e → r'.1 = Raise e)
          ∧ (∀ resp v e, post req' = Ret resp → (200 ≤ status_code resp < 300)%Z →
               json resp = Ret v → completion_text v = Raise e → r'.1 = Raise RuntimeError))
     ∧ (∀ data user_id e,
          TemplateStore.get_template user_id data
          = Some {| TemplateStore.template := template;
                    TemplateStore.description := description' |} →
          strip vacancy_text = vacancy_text →
          r'.1 = Raise e →
          VacancyBot.generate_response YANDEX_API_KEY YANDEX_MODEL_URI YANDEX_FOLDER_ID post
            data user_id vacancy_text = [VacancyBot.Working; VacancyBot.Failed e])).
Proof.
  intros fallback r req r' req'. split; [split; [|split; [|split]]|split; [|split]].
  - subst r. unfold VacancyProcessor.generate_message.
    destruct (falsy api_key || falsy folder_id); simpl; [eauto|].
    destruct (post _) as [resp|e]; simpl; [|eauto].
    destruct (status_code resp =? 200)%Z; [|eauto].
    destruct (json resp) as [v|e]; simpl; [|eauto].
    destruct (completion_text v); simpl; eauto.
  - intros H. subst r. unfold VacancyProcessor.generate_message. by rewrite H.
  - apply simple_message_contains.
  - intros H. subst r. unfold VacancyProcessor.generate_message. rewrite H.
    fold req. cbn [fst snd]. split; [done|]. split; [|split; [|split]].
    + intros e He. by rewrite He.
    + intros resp He Hs. rewrite He. simpl.
      destruct (Z.eqb_spec (status_code resp) 200); [done|reflexivity].
    + intros resp e He Hj. rewrite He. simpl. rewrite Hj.
      by destruct (status_code resp =? 200)%Z.
    + intros resp v e He Hj Hc. rewrite He. simpl. rewrite Hj. simpl. rewrite Hc.
      by destruct (status_code resp =? 200)%Z.
  - intros H. subst r'. unfold VacancyBot._call_yandex_llm. by rewrite H.
  - intros H. subst r'. unfold VacancyBot._call_yandex_llm. rewrite H.
    fold req'. cbn [fst snd]. split; [done|]. split; [|split; [|split]].
    + intros e He. by rewrite He.
    + intros resp He Hs. rewrite He. simpl. unfold VacancyBot.raise_for_status.
      destruct (Z.leb_spec 200 (status_code resp)), (Z.ltb_spec (status_code resp) 300);
        simpl; try done. lia.
    + intros resp e He [Hs1 Hs2] Hj. rewrite He. simpl. unfold VacancyBot.raise_for_status.
      rewrite (proj2 (Z.leb_le _ _) Hs1), (proj2 (Z.ltb_lt _ _) Hs2). simpl. by rewrite Hj.
    + intros resp v e He [Hs1 Hs2] Hj Hc. rewrite He. simpl.
      unfold VacancyBot.raise_for_status.
      rewrite (proj2 (Z.leb_le _ _) Hs1), (proj2 (Z.ltb_lt _ _) Hs2). simpl.
      rewrite Hj. simpl. by rewrite Hc.
  - intros data user_id e Hg Hst Hr. unfold VacancyBot.generate_response.
    rewrite Hg. cbn [TemplateStore.template TemplateStore.description].
    rewrite Hst. fold r'. by rewrite Hr.
Qed.

Lemma generate_message_fails_open_witness :
  let post : completion_request → outcome response := λ _, Raise ConnectionError in
  (VacancyProcessor.generate_message None None post (str "V") (str "T") (str "D") None
   = (Ret (VacancyProcessor._generate_simple_message (str "V") (str "T") None), []))
  ∧ (VacancyProcessor.generate_message (Some (str "k")) (Some (str "f")) post
       (str "V") (str "T") (str "D") None).1
    = Ret (VacancyProcessor._generate_simple_message (str "V") (str "T") None)
  ∧ VacancyBot._call_yandex_llm None (str "m") (str "f") post (PStr (str "T")) (PStr (str "D"))
      (str "V") = (Raise RuntimeError, []).
Proof.
  intros post. split; [|split].
  - apply (generate_message_fails_open None None post (str "V") (str "T") (str "D") None
             None (str "m") (str "f") (PStr (str "T")) (PStr (str "D"))).
    reflexivity.
  - apply (generate_message_fails_open (Some (str "k")) (Some (str "f")) post
             (str "V") (str "T") (str "D") None
             None (str "m") (str "f") (PStr (str "T")) (PStr (str "D"))) with (e := ConnectionError).
    + reflexivity.
    + reflexivity.
  - apply (generate_message_fails_open None None post (str "V") (str "T") (str "D") None
             None (str "m") (str "f") (PStr (str "T")) (PStr (str "D"))).
    reflexivity.
Defined.

(** ** The matcher *)

Lemma run_le (p : cls) (s : text) : run p s ≤ length s.
Proof. induction s as [|c s IH]; simpl; [lia|]. destruct (p c); simpl; lia. Qed.

Lemma elem_of_rev {A} (l : list A) (x : A) : x ∈ rev l ↔ x ∈ l.
Proof. rewrite !list_elem_of_In. symmetry. apply in_rev. Qed.

Lemma elem_of_rep (n k : nat) (p : cls) (s : text) :
  k ∈ ends (Rep n p) [] s ↔ n ≤ k ≤ run p s.
Proof.
  simpl. rewrite elem_of_rev, elem_of_seq. lia.
Qed.

Lemma ends_le (r : regex) (b s : text) (n : nat) : n ∈ ends r b s → n ≤ length s.
Proof.
  revert b s n. induction r as [|p|p|k p|r1 IH1 r2 IH2|r1 IH1 r2 IH2| | |r IH|w];
    intros b s n; simpl.
  - intros ->%list_elem_of_singleton. lia.
  - destruct s as [|c s]; [by intros ?%elem_of_nil|].
    destruct (p c); [|by intros ?%elem_of_nil].
    intros ->%list_elem_of_singleton. simpl. lia.
  - destruct s as [|c s]; [intros ->%list_elem_of_singleton; simpl; lia|].
    destruct (p c); rewrite ?elem_of_cons, ?elem_of_nil; simpl; lia.
  - rewrite elem_of_rev, elem_of_seq. pose proof (run_le p s). lia.
  - intros (n1 & H2 & H1)%list_elem_of_bind.
    apply list_elem_of_fmap in H2 as (n2 & -> & H2).
    apply IH1 in H1. apply IH2 in H2. rewrite length_drop in H2. lia.
  - intros [H|H]%elem_of_app; eauto.
  - destruct b; [|by intros ?%elem_of_nil]. intros ->%list_elem_of_singleton. lia.
  - destruct (at_end s); [|by intros ?%elem_of_nil].
    intros ->%list_elem_of_singleton. lia.
  - destruct (ends r b s); [|by intros ?%elem_of_nil].
    intros ->%list_elem_of_singleton. lia.
  - destruct (starts _ _); [by intros ?%elem_of_nil|].
    intros ->%list_elem_of_singleton. lia.
Qed.

Lemma ends_nonempty (r : regex) (b s : text) (n : nat) :
  nullable r = false → n ∈ ends r b s → 0 < n.
Proof.
  revert b s n. induction r as [|p|p|k p|r1 IH1 r2 IH2|r1 IH1 r2 IH2| | |r IH|w];
    intros b s n; simpl; try discriminate.
  - intros _. destruct s as [|c s]; [by intros ?%elem_of_nil|].
    destruct (p c); [|by intros ?%elem_of_nil].
    intros ->%list_elem_of_singleton. lia.
  - destruct k; [discriminate|]. intros _. rewrite elem_of_rev, elem_of_seq. lia.
  - intros Hn (n1 & H2 & H1)%list_elem_of_bind.
    apply list_elem_of_fmap in H2 as (n2 & -> & H2).
    apply andb_false_iff in Hn as [Hn|Hn].
    + apply (IH1 _ _ _ Hn) in H1. lia.
    + apply (IH2 _ _ _ Hn) in H2. lia.
  - intros [Hn1 Hn2]%orb_false_iff [H|H]%elem_of_app; eauto.
Qed.

Lemma head_elem_of {A} (l : list A) (x : A) : head l = Some x → x ∈ l.
Proof. destruct l; simpl; [done|]. intros [= ->]. apply list_elem_of_here. Qed.

Lemma with_repl_proper (r : regex) (f : text → text) :
  nullable r = false → proper (with_repl r f).
Proof.
  intros Hn b s n out. unfold with_repl, match_at.
  destruct (head (ends r b s)) as [k|] eqn:Hk; simpl; [|done].
  intros [= <- _]. apply head_elem_of in Hk. split.
  - by apply (ends_nonempty r b s).
  - by apply (ends_le r b).
Qed.

Lemma ends_seq_ends2 (r1 r2 : regex) (b s : text) :
  ends (r1 ⊙ r2) b s = (λ p, p.1 + p.2) <$> ends2 r1 r2 b s.
Proof.
  simpl. unfold ends2. generalize (ends r1 b s). intros l.
  induction l as [|n1 l IH]; [done|].
  cbn [mbind list_bind]. rewrite fmap_app, <- IH. f_equal.
  rewrite <- list_fmap_compose. reflexivity.
Qed.

Lemma with_groups_proper (r1 r2 : regex) (f : text → text → text) :
  nullable (r1 ⊙ r2) = false → proper (with_groups r1 r2 f).
Proof.
  intros Hn b s n out. unfold with_groups.
  destruct (head (ends2 r1 r2 b s)) as [[n1 n2]|] eqn:Hk; simpl; [|done].
  intros [= <- _].
  assert (n1 + n2 ∈ ends (r1 ⊙ r2) b s) as Hin.
  { rewrite ends_seq_ends2. apply list_elem_of_fmap. exists (n1, n2).
    split; [done|]. by apply head_elem_of. }
  split; [by apply (ends_nonempty (r1 ⊙ r2) b s)|by apply (ends_le (r1 ⊙ r2) b)].
Qed.

Lemma sub_scan_skip (m : matcher) (b s : text) (k : nat) :
  k ≤ length s →
  sub_scan m b s k = sub_scan m (rev (take k s) ++ b) (drop k s) 0.
Proof.
  revert b s. induction k as [|k IH]; intros b s Hk.
  - by rewrite take_0, drop_0.
  - destruct s as [|c s]; simpl in Hk; [lia|].
    cbn [sub_scan take drop rev]. rewrite IH by lia.
    by rewrite <- app_assoc.
Qed.

Lemma sub_scan_unfold (m : matcher) (b s : text) :
  proper m →
  sub_scan m b s 0 =
    match m b s with
    | Some (n, out) => out ++ sub_scan m (rev (take n s) ++ b) (drop n s) 0
    | None => match s with c :: s' => c :: sub_scan m (c :: b) s' 0 | [] => [] end
    end.
Proof.
  intros Hm. destruct s as [|c s]; cbn [sub_scan].
  - destruct (m b []) as [[n out]|] eqn:E; [|done].
    apply Hm in E. simpl in E. lia.
  - destruct (m b (c :: s)) as [[n out]|] eqn:E; [|done].
    apply Hm in E. destruct n as [|k]; [lia|].
    simpl in E. rewrite (sub_scan_skip m (c :: b) s k) by lia.
    cbn [take drop rev]. by rewrite <- app_assoc.
Qed.

(** Induction along the scan of [re.sub]. *)
Lemma sub_scan_ind (m : matcher) (P : text → text → text → Prop) :
  proper m →
  (∀ b, P b [] []) →
  (∀ b c s out, m b (c :: s) = None → P (c :: b) s out → P b (c :: s) (c :: out)) →
  (∀ b s n rep out, m b s = Some (n, rep) → 0 < n ≤ length s →
     P (rev (take n s) ++ b) (drop n s) out → P b s (rep ++ out)) →
  ∀ b s, P b s (sub_scan m b s 0).
Proof.
  intros Hm Hnil Hkeep Hcut b s.
  remember (length s) as k eqn:Hk. revert b s Hk.
  induction k as [k IH] using lt_wf_ind. intros b s ->.
  rewrite sub_scan_unfold by done.
  destruct (m b s) as [[n rep]|] eqn:E.
  - pose proof (Hm _ _ _ _ E) as Hn. apply (Hcut _ _ n); [done..|].
    apply (IH (length (drop n s))); [rewrite length_drop; lia|done].
  - destruct s as [|c s]; [apply Hnil|].
    apply Hkeep; [done|]. apply (IH (length s)); [simpl; lia|done].
Qed.

(** Without a match anywhere, [re.sub] returns its argument. *)
Lemma sub_scan_none (m : matcher) (b s : text) :
  (∀ a s', s = a ++ s' → m (rev a ++ b) s' = None) → sub_scan m b s 0 = s.
Proof.
  revert b. induction s as [|c s IH]; intros b H.
  - pose proof (H [] [] eq_refl) as H0. simpl in H0. cbn. by rewrite H0.
  - pose proof (H [] (c :: s) eq_refl) as H0. simpl in H0.
    cbn [sub_scan]. rewrite H0. f_equal.
    apply IH. intros a s' ->. specialize (H (c :: a) s' eq_refl).
    cbn [rev] in H. by rewrite <- app_assoc in H.
Qed.

(** ** Trimming *)

Lemma lstrip_head (s : text) (c : N) : head (lstrip s) = Some c → isspace c = false.
Proof.
  induction s as [|a s IH]; simpl; [done|].
  destruct (isspace a) eqn:E; [done|]. simpl. by intros [= <-].
Qed.

Lemma lstrip_suffix (s : text) : ∃ w, s = w ++ lstrip s ∧ Forall (λ c, isspace c = true) w.
Proof.
  induction s as [|a s (w & IH & Hw)]; simpl; [by exists []|].
  destruct (isspace a) eqn:E.
  - exists (a :: w). split; [simpl; by f_equal|by constructor].
  - by exists [].
Qed.

Lemma last_rev {A} (l : list A) : last (rev l) = head l.
Proof. destruct l as [|a l]; [done|]. simpl. apply last_snoc. Qed.

Lemma rstrip_prefix (s : text) : ∃ w, s = rstrip s ++ w ∧ Forall (λ c, isspace c = true) w.
Proof.
  unfold rstrip. destruct (lstrip_suffix (rev s)) as (w & H & Hw).
  exists (rev w). split.
  - rewrite <- rev_app_distr, <- H. by rewrite rev_involutive.
  - rewrite Forall_forall in Hw. apply Forall_forall.
    intros c Hc. rewrite elem_of_rev in Hc. by apply Hw.
Qed.

Lemma rstrip_last (s : text) (c : N) : last (rstrip s) = Some c → isspace c = false.
Proof. unfold rstrip. rewrite last_rev. apply lstrip_head. Qed.

Lemma strip_trimmed (s : text) : trimmed (strip s).
Proof.
  unfold strip. split; [|apply rstrip_last].
  intros c Hc. apply (lstrip_head s).
  destruct (rstrip_prefix (lstrip s)) as (w & H & _). rewrite H.
  destruct (rstrip (lstrip s)); [done|]. exact Hc.
Qed.

Lemma lstrip_id (s : text) :
  (∀ c, head s = Some c → isspace c = false) → lstrip s = s.
Proof. destruct s as [|a s]; simpl; [done|]. intros H. by rewrite (H a eq_refl). Qed.

Lemma strip_id (s : text) : trimmed s → strip s = s.
Proof.
  intros [Hh Hl]. unfold strip. rewrite (lstrip_id s Hh). unfold rstrip.
  rewrite lstrip_id; [apply rev_involutive|].
  intros c. rewrite <- last_rev, rev_involutive. apply Hl.
Qed.

(** C10. The cleaner is a function defined on every text, and its result
    has no white space at the start and none at the end; the same holds
    with the link formatting in front. *)
Theorem clean_html_for_telegram_trimmed (x : text) :
  (∃ y, clean_html_for_telegram x = y ∧ trimmed y)
  ∧ (∃ y, sanitize x = y ∧ trimmed y)
  ∧ clean_html_for_telegram [] = []
  ∧ clean_html_for_telegram (str "  " ++ [newline; 9%N]) = [].
Proof.
  split; [|split; [|split]].
  - eexists. split; [reflexivity|]. apply strip_trimmed.
  - eexists. split; [reflexivity|]. apply strip_trimmed.
  - reflexivity.
  - vm_compute. reflexivity.
Qed.

(** ** Sequences that start with single characters *)

Lemma fmap_add_0 (l : list nat) : (λ n, 0 + n) <$> l = l.
Proof. induction l; simpl; by f_equal. Qed.

Lemma ends_chr_seq (p : cls) (r : regex) (b s : text) :
  ends (Chr p ⊙ r) b s =
    match s with
    | c :: s' => if p c then S <$> ends r (c :: b) s' else []
    | [] => []
    end.
Proof.
  simpl. destruct s as [|c s]; [done|]. destruct (p c); [|done].
  simpl. by rewrite app_nil_r.
Qed.

Lemma ends_opt_seq (p : cls) (r : regex) (b s : text) :
  ends (Opt p ⊙ r) b s =
    match s with
    | c :: s' => if p c then (S <$> ends r (c :: b) s') ++ ends r b s else ends r b s
    | [] => ends r b []
    end.
Proof.
  simpl. destruct s as [|c s]; simpl.
  - by rewrite app_nil_r, fmap_add_0.
  - destruct (p c); simpl; by rewrite ?app_nil_r, fmap_add_0.
Qed.

Lemma head_fmap {A B} (f : A → B) (l : list A) : head (f <$> l) = f <$> head l.
Proof. by destruct l. Qed.

Lemma head_rep (n : nat) (p : cls) (b s : text) :
  head (ends (Rep n p) b s) = if decide (n ≤ run p s) then Some (run p s) else None.
Proof.
  simpl. case_decide as H.
  - replace (S (run p s) - n) with (S (run p s - n)) by lia.
    rewrite seq_S, rev_app_distr. simpl. f_equal. lia.
  - by replace (S (run p s) - n) with 0 by lia.
Qed.

Lemma ends_chars (ps : list cls) (b s : text) :
  ends (chars ps) b s = if starts_cls ps s then [length ps] else [].
Proof.
  revert b s. induction ps as [|p ps IH]; intros b s; [done|].
  cbn [chars]. rewrite ends_chr_seq. destruct s as [|c s]; [done|].
  cbn [starts_cls]. destruct (p c); [|done]. rewrite IH.
  by destruct (starts_cls ps s).
Qed.

Lemma ends_chars_seq (ps : list cls) (r : regex) (b s : text) :
  ends (chars ps ⊙ r) b s =
    if starts_cls ps s
    then (λ n, length ps + n) <$> ends r (rev (take (length ps) s) ++ b) (drop (length ps) s)
    else [].
Proof.
  cbn [ends]. rewrite ends_chars. destruct (starts_cls ps s); [|done].
  simpl. by rewrite app_nil_r.
Qed.

Lemma starts_cls_lits (w s : text) : starts_cls (lit <$> w) s = starts w s.
Proof.
  revert s. induction w as [|a w IH]; intros [|c s]; simpl; try done.
  by rewrite IH.
Qed.

Lemma starts_app (w s : text) : starts w s = true ↔ ∃ s', s = w ++ s'.
Proof.
  revert s. induction w as [|a w IH]; intros s; simpl.
  - split; [by exists s|done].
  - destruct s as [|c s]; [split; [done|by intros [? ?]]|].
    rewrite andb_true_iff, N.eqb_eq, IH. split.
    + intros [-> [s' ->]]. by exists s'.
    + intros [s' [= -> ->]]. eauto.
Qed.

Lemma starts_drop (w s : text) : starts w s = true → s = w ++ drop (length w) s.
Proof.
  intros [s' ->]%starts_app. by rewrite drop_app_length.
Qed.

(** ** The URL pattern of the extractor *)

(** Replaces the code points of literal words by their values. *)
Ltac norm_chars :=
  repeat match goal with
    | |- context [str ?w] => let v := eval vm_compute in (str w) in change (str w) with v
    | |- context [N_of_ascii ?a] =>
        let v := eval vm_compute in (N_of_ascii a) in change (N_of_ascii a) with v
    end.

Lemma starts_cons_ne (a c : N) (w s : text) : a ≠ c → starts (a :: w) (c :: s) = false.
Proof. intros H. simpl. by rewrite (proj2 (N.eqb_neq _ _) H). Qed.

Lemma starts_cons_eq (a : N) (w s : text) : starts (a :: w) (a :: s) = starts w s.
Proof. simpl. by rewrite N.eqb_refl. Qed.

Lemma match_at_url_pattern (b s : text) : match_at url_pattern b s = spec_url_len s.
Proof.
  unfold match_at, url_pattern, spec_url_len, lits, chr. norm_chars.
  rewrite ends_chars_seq, starts_cls_lits, length_fmap.
  destruct (starts [104; 116; 116; 112]%N s) eqn:E.
  - apply starts_drop in E. cbn [length] in E. revert E.
    generalize (drop 4 s). intros x ->.
    cbn [length take drop app]. rewrite ?take_0, ?drop_0, !starts_cons_eq.
    generalize (rev [104; 116; 116; 112]%N ++ b). clear b. intros b.
    rewrite head_fmap, ends_opt_seq.
    destruct x as [|c x]; [done|].
    rewrite !ends_chars_seq, !starts_cls_lits, !length_fmap. unfold lit at 1.
    destruct (N.eqb_spec 115 c) as [<-|Hc].
    + rewrite (starts_cons_ne 58 115) by done. rewrite app_nil_r, starts_cons_eq.
      rewrite andb_false_l.
      destruct (starts [58; 47; 47]%N x) eqn:E; [|done].
      apply starts_drop in E. cbn [length] in E. revert E.
      generalize (drop 3 x). intros y ->.
      cbn [length take drop app andb]. rewrite ?take_0, ?drop_0.
      rewrite !head_fmap, head_rep.
      destruct (run nonspace y) as [|k] eqn:Hr; case_decide; try lia; simpl; f_equal; lia.
    + rewrite (starts_cons_ne 115 c) by done. rewrite andb_false_l.
      destruct (starts [58; 47; 47]%N (c :: x)) eqn:E; [|done].
      apply starts_drop in E. cbn [length] in E. rewrite E at 1 2. clear E.
      generalize (drop 3 (c :: x)). intros y.
      cbn [length take drop app andb]. rewrite ?take_0, ?drop_0.
      rewrite !head_fmap, head_rep.
      destruct (run nonspace y) as [|k] eqn:Hr; case_decide; try lia; simpl; f_equal; lia.
  - assert (∀ w, starts ([104; 116; 116; 112]%N ++ w) s = false) as H.
    { intros w. apply not_true_is_false. intros [s' ->]%starts_app.
      rewrite <- app_assoc in E.
      assert (starts [104; 116; 116; 112]%N ([104; 116; 116; 112]%N ++ w ++ s') = true) as H
        by (apply starts_app; eauto).
      congruence. }
    pose proof (H [58; 47; 47]%N) as H1. pose proof (H [115; 58; 47; 47]%N) as H2.
    cbn [app] in H1, H2. by rewrite H1, H2.
Qed.

Lemma spec_url_len_pos (t : text) (n : nat) : spec_url_len t = Some n → 0 < n.
Proof.
  unfold spec_url_len. repeat case_match; intros [= <-]; lia.
Qed.

Lemma findall_head_url (b t : text) :
  head (findall_scan url_pattern b t 0) = spec_first_url t.
Proof.
  revert b. induction t as [|c t IH]; intros b; cbn [findall_scan spec_first_url].
  - by rewrite match_at_url_pattern.
  - rewrite match_at_url_pattern. unfold spec_url_at.
    destruct (spec_url_len (c :: t)) as [n|] eqn:E; cbn [fmap option_fmap option_map].
    + apply spec_url_len_pos in E. destruct n as [|k]; [lia|done].
    + apply IH.
Qed.

Lemma findall_first_url (t : text) : head (re_findall url_pattern t) = spec_first_url t.
Proof. apply findall_head_url. Qed.

Lemma run_pos (p : cls) (s : text) :
  0 < run p s ↔ ∃ c rest, s = c :: rest ∧ p c = true.
Proof.
  destruct s as [|c s]; simpl.
  - split; [lia|by intros (? & ? & ? & ?)].
  - destruct (p c) eqn:E; split; try lia; eauto.
    intros (? & ? & [= <- <-] & ?). congruence.
Qed.

Lemma spec_url_len_mentions (t : text) (n : nat) : spec_url_len t = Some n → mentions_url t.
Proof.
  unfold spec_url_len.
  destruct (starts (str "http://") t && (0 <? run nonspace (drop 7 t))) eqn:E1.
  - intros _. apply andb_true_iff in E1 as [E1 E2].
    apply starts_drop in E1. apply Nat.ltb_lt, run_pos in E2 as (c & rest & E2 & Hc).
    exists [], c, rest. split; [done|]. left. cbn [app length] in *. by rewrite <- E2.
  - destruct (starts (str "https://") t && (0 <? run nonspace (drop 8 t))) eqn:E2; [|done].
    intros _. apply andb_true_iff in E2 as [E2 E3].
    apply starts_drop in E2. apply Nat.ltb_lt, run_pos in E3 as (c & rest & E3 & Hc).
    exists [], c, rest. split; [done|]. right. cbn [app length] in *. by rewrite <- E3.
Qed.

Lemma spec_url_len_here (c : N) (rest : text) :
  nonspace c = true →
  is_Some (spec_url_len (str "http://" ++ c :: rest))
  ∧ is_Some (spec_url_len (str "https://" ++ c :: rest)).
Proof.
  intros Hc. unfold spec_url_len. norm_chars. cbn [app].
  rewrite !starts_cons_eq. cbn [drop run]. rewrite Hc.
  split; [by eexists|].
  rewrite (starts_cons_ne 58 115) by done. simpl. by eexists.
Qed.

Lemma spec_first_url_mentions (t u : text) : spec_first_url t = Some u → mentions_url t.
Proof.
  induction t as [|x t IH]; cbn [spec_first_url]; unfold spec_url_at.
  - destruct (spec_url_len []) eqn:E; [|done].
    intros _. by eapply spec_url_len_mentions.
  - destruct (spec_url_len (x :: t)) eqn:E.
    + intros _. by eapply spec_url_len_mentions.
    + simpl. intros (a & c & rest & Hc & Ht)%IH.
      exists (x :: a), c, rest. split; [done|].
      destruct Ht as [->| ->]; [by left|by right].
Qed.

(** [spec_first_url] finds a URL exactly when the text mentions one. *)
Lemma spec_first_url_none (t : text) : spec_first_url t = None ↔ ¬ mentions_url t.
Proof.
  split.
  - intros H (a & c & rest & Hc & Ht).
    assert (∃ w, t = a ++ w ∧ is_Some (spec_url_len w)) as (w & -> & Hw).
    { destruct (spec_url_len_here c rest Hc) as [H1 H2].
      destruct Ht as [->| ->]; eauto. }
    clear Ht. induction a as [|x a IH]; cbn [app] in H.
    + destruct Hw as [n Hn].
      assert (spec_first_url w = Some (take n w)) as Hs; [|congruence].
      destruct w; cbn [spec_first_url]; unfold spec_url_at; by rewrite Hn.
    + cbn [spec_first_url] in H.
      destruct (spec_url_at (x :: a ++ w)); [done|]. by apply IH.
  - intros H. destruct (spec_first_url t) as [u|] eqn:E; [|done].
    destruct H. by apply (spec_first_url_mentions t u).
Qed.

(** ** The extractor *)

(** C7. A text in which no position starts with [http://] or [https://]
    followed by a character that is not white space is returned as it is,
    with no source URL, and nothing is fetched. *)
Theorem extract_url_content_without_url
    (http_get : text → outcome response) (soup_text : text → outcome text) (t : text) :
  ¬ mentions_url t →
  extract_url_content http_get soup_text t = ((t, None), []).
Proof.
  intros H%spec_first_url_none. unfold extract_url_content.
  pose proof (findall_first_url t) as Hf. rewrite H in Hf.
  by destruct (re_findall url_pattern t).
Qed.

Lemma extract_url_content_without_url_witness :
  extract_url_content (λ _, Raise ConnectionError) (λ h, Ret h)
    (str "Backend Engineer at Acme, remote")
  = ((str "Backend Engineer at Acme, remote", None), []).
Proof.
  apply extract_url_content_without_url. apply spec_first_url_none.
  vm_compute. reflexivity.
Defined.

(** C8. When the text mentions a URL, only the leftmost one is requested,
    once; if the request raises, the status is 4xx or 5xx, or the parser
    raises, the result is the original text with that URL, and otherwise it
    is the cleaned page text with that URL. *)
Theorem extract_url_content_first_url
    (http_get : text → outcome response) (soup_text : text → outcome text) (t : text) :
  mentions_url t →
  ∃ url, spec_first_url t = Some url
    ∧ let r := extract_url_content http_get soup_text t in
      r.2 = [url]
      ∧ r.1.2 = Some url
      ∧ (∀ e, http_get url = Raise e → r.1 = (t, Some url))
      ∧ (∀ resp, http_get url = Ret resp →
           (400 ≤ status_code resp < 600)%Z → r.1 = (t, Some url))
      ∧ (∀ resp e, http_get url = Ret resp → soup_text (body resp) = Raise e →
           r.1 = (t, Some url))
      ∧ (∀ resp page, http_get url = Ret resp →
           ¬ (400 ≤ status_code resp < 600)%Z → soup_text (body resp) = Ret page →
           r.1 = (clean_lines page, Some url)).
Proof.
  intros Hm. destruct (spec_first_url t) as [url|] eqn:H;
    [|by apply spec_first_url_none in H].
  exists url. split; [done|]. intros r. subst r. unfold extract_url_content.
  pose proof (findall_first_url t) as Hf. rewrite H in Hf.
  destruct (re_findall url_pattern t) as [|u us]; [done|].
  injection Hf as ->. cbn [fst snd]. split; [done|].
  unfold fetch_page, raise_for_status. split; [|split; [|split; [|split]]].
  - by destruct (bind _ _).
  - intros e He. by rewrite He.
  - intros resp He [H1 H2]. rewrite He. simpl.
    by rewrite (proj2 (Z.leb_le _ _) H1), (proj2 (Z.ltb_lt _ _) H2).
  - intros resp e He Hs. rewrite He. simpl.
    destruct (_ && _); [done|]. simpl. by rewrite Hs.
  - intros resp page He Hn Hs. rewrite He. simpl.
    destruct (Z.leb_spec 400 (status_code resp)), (Z.ltb_spec (status_code resp) 600);
      simpl; try lia; by rewrite Hs.
Qed.

Lemma extract_url_content_first_url_witness :
  let t := str "see https://a.example/job?id=1 and http://b.example now" in
  let r := extract_url_content (λ _, Raise ConnectionError) (λ h, Ret h) t in
  r.2 = [str "https://a.example/job?id=1"]
  ∧ r.1 = (t, Some (str "https://a.example/job?id=1")).
Proof.
  intros t r.
  destruct (extract_url_content_first_url (λ _, Raise ConnectionError) (λ h, Ret h) t)
    as (url & Hu & H1 & _ & H3 & _).
  - apply (spec_first_url_mentions t (str "https://a.example/job?id=1")).
    vm_compute. reflexivity.
  - assert (url = str "https://a.example/job?id=1") as ->.
    { assert (spec_first_url t = Some (str "https://a.example/job?id=1")) as Hc
        by (vm_compute; reflexivity).
      congruence. }
    split; [exact H1|]. by apply (H3 ConnectionError).
Defined.

(** ** Link formatting *)

Lemma ends_feasible (P : cls) (r : regex) (b s : text) (n : nat) :
  n ∈ ends r b s → Forall (λ c, P c = true) (take n s) → feasible P r.
Proof.
  revert b s n. induction r as [|p|p|k p|r1 IH1 r2 IH2|r1 IH1 r2 IH2| | |r IH|w];
    intros b s n; cbn [feasible]; try done.
  - simpl. destruct s as [|c s]; [by intros ?%elem_of_nil|].
    destruct (p c) eqn:E; [|by intros ?%elem_of_nil].
    intros ->%list_elem_of_singleton Hf. cbn in Hf.
    apply Forall_cons in Hf as [Hc _]. eauto.
  - destruct k as [|k]; [done|].
    intros Hn Hf. simpl in Hn. rewrite elem_of_rev, elem_of_seq in Hn.
    destruct s as [|c s]; simpl in Hn; [lia|].
    destruct (p c) eqn:E; [|lia]. destruct n as [|n]; [lia|].
    cbn in Hf. apply Forall_cons in Hf as [Hc _]. eauto.
  - intros Hn Hf. simpl in Hn.
    apply list_elem_of_bind in Hn as (n1 & H2 & H1).
    apply list_elem_of_fmap in H2 as (n2 & -> & H2).
    rewrite <- take_take_drop in Hf. apply Forall_app in Hf as [Hf1 Hf2]. eauto.
  - intros [Hn|Hn]%elem_of_app Hf; eauto.
Qed.

(** A text whose characters all lie in [P] has no match of a pattern that
    is not feasible in [P]. *)
Lemma infeasible_no_match (P : cls) (r : regex) (b s : text) :
  ¬ feasible P r → Forall (λ c, P c = true) s → ends r b s = [].
Proof.
  intros Hr Hs. destruct (ends r b s) as [|n l] eqn:E; [done|].
  destruct Hr. apply (ends_feasible P r b s n).
  - rewrite E. apply list_elem_of_here.
  - by apply Forall_take.
Qed.

Lemma Forall_suffix {A} (P : A → Prop) (a s : list A) : Forall P (a ++ s) → Forall P s.
Proof. by intros [_ ?]%Forall_app. Qed.

(** A replacement that puts the matched text back changes nothing. *)
Lemma sub_scan_same (m : matcher) :
  proper m →
  (∀ b s n out, m b s = Some (n, out) → out = take n s) →
  ∀ b s, sub_scan m b s 0 = s.
Proof.
  intros Hm Hsame. apply (sub_scan_ind m (λ _ s out, out = s)); [done|done|..].
  - by intros b c s out _ ->.
  - intros b s n rep out E _ ->. rewrite (Hsame _ _ _ _ E). apply take_drop.
Qed.

Lemma with_groups_none (r1 r2 : regex) (f : text → text → text) (b s : text) :
  ends (r1 ⊙ r2) b s = [] → with_groups r1 r2 f b s = None.
Proof.
  rewrite ends_seq_ends2. unfold with_groups.
  by destruct (ends2 r1 r2 b s).
Qed.

Lemma with_repl_none (r : regex) (f : text → text) (b s : text) :
  ends r b s = [] → with_repl r f b s = None.
Proof. unfold with_repl, match_at. by intros ->. Qed.

(** The second and third link rules need a backslash after the scheme, so
    a text without backslashes comes back unchanged. *)
Lemma format_contact_links_no_backslash (t : text) :
  Forall (λ c, no_backslash c = true) t → format_contact_links t = t.
Proof.
  intros Ht. unfold format_contact_links.
  rewrite (sub_scan_same (with_groups team_prefix handle_group (λ g1 g2, g1 ++ g2))).
  - rewrite (sub_scan_none (with_groups team_prefix team_url_group _)).
    + apply sub_scan_none. intros a s' ->. apply with_repl_none.
      apply (infeasible_no_match no_backslash); [|by eapply Forall_suffix].
      unfold bare_url. cbn [feasible].
      intros (_ & _ & _ & _ & _ & (c & H1 & H2) & _). revert H1 H2.
      unfold no_backslash, lit. intros H1 H2%N.eqb_eq. subst c. done.
    + intros a s' ->. apply with_groups_none.
      apply (infeasible_no_match no_backslash); [|by eapply Forall_suffix].
      unfold team_prefix. cbn [feasible].
      intros ((_ & _ & (c & H1 & H2) & _) & _). revert H1 H2.
      unfold no_backslash, lit. intros H1 H2%N.eqb_eq. subst c. done.
  - by apply with_groups_proper.
  - intros b s n out. unfold with_groups.
    destruct (head _) as [[n1 n2]|]; simpl; [|done].
    intros [= <- <-]. apply take_take_drop.
Qed.

(** C6. The bare-link rule leaves a bare address as it is (its pattern
    asks for a backslash and capital S letters after the scheme), and it
    leaves an anchored address as it is. *)
Theorem format_contact_links_bare_url :
  format_contact_links (str "see http://x.com") = str "see http://x.com"
  ∧ (let anchored := anchor (str "http://x.com") (str "click") in
     format_contact_links anchored = anchored)
  ∧ format_contact_links (str "see http://" ++ backslash :: str "SS x")
    = str "see " ++ anchor (str "http://" ++ backslash :: str "SS") link_label ++ str " x".
Proof. vm_compute. done. Qed.

(** ** Texts in which a pattern has no match *)

Lemma head_none_nil {A} (l : list A) : head l = None → l = [].
Proof. by destruct l. Qed.

Lemma search_scan_false (r : regex) (b s : text) :
  search_scan r b s = false →
  ∀ a s', s = a ++ s' → ends r (rev a ++ b) s' = [].
Proof.
  revert b. induction s as [|c s IH]; intros b H a s' Hs; cbn [search_scan] in H.
  - symmetry in Hs. apply app_nil in Hs as [-> ->]. apply head_none_nil.
    unfold match_at in H. cbn [rev app]. by destruct (head (ends r b [])).
  - destruct (match_at r b (c :: s)) eqn:E; [done|].
    destruct a as [|x a]; cbn [app] in Hs.
    + subst s'. by apply head_none_nil.
    + injection Hs as <- ->. cbn [rev]. rewrite <- app_assoc. by apply IH.
Qed.

Lemma re_search_false (r : regex) (y : text) :
  re_search r y = false → ∀ a s, y = a ++ s → ends r (rev a ++ []) s = [].
Proof. apply search_scan_false. Qed.

Lemma re_sub_quiet (r : regex) (repl y : text) :
  re_search r y = false → re_sub r repl y = y.
Proof.
  intros H. apply sub_scan_none. intros a s Hs.
  apply with_repl_none. by apply (re_search_false r y).
Qed.

Lemma settled_quiet (y : text) (r : regex) :
  settled y = true → In r rewrite_patterns → re_search r y = false.
Proof.
  unfold settled. rewrite forallb_forall. intros H Hr.
  apply negb_true_iff. by apply H.
Qed.

(** ** Runs of newlines *)

Lemma run_drop_run (p : cls) (s : text) : run p (drop (run p s) s) = 0.
Proof.
  induction s as [|c s IH]; [done|]. simpl.
  destruct (p c) eqn:E; simpl; [done|by rewrite E].
Qed.

Lemma run_app_le (p : cls) (s w : text) : run p s ≤ run p (s ++ w).
Proof. induction s as [|c s IH]; simpl; [lia|]. destruct (p c); lia. Qed.

Lemma calm_nil : calm [].
Proof. intros a s Hs. symmetry in Hs. apply app_nil in Hs as [_ ->]. simpl. lia. Qed.

Lemma calm_cons (c : N) (t : text) :
  run (lit newline) (c :: t) < 3 → calm t → calm (c :: t).
Proof.
  intros Hr Ht [|x a] s Hs; cbn [app] in Hs.
  - by subst s.
  - injection Hs as _ ->. by apply (Ht a).
Qed.

Lemma calm_infix (a t c : text) : calm (a ++ t ++ c) → calm t.
Proof.
  intros H a' s ->. specialize (H (a ++ a') (s ++ c)).
  rewrite <- !app_assoc in H. specialize (H eq_refl).
  pose proof (run_app_le (lit newline) s c). lia.
Qed.

Lemma calm_no_blank_lines (t a s b : text) :
  calm t → t = a ++ s → ends blank_lines b s = [].
Proof.
  intros Ht Hs. apply head_none_nil. unfold blank_lines. rewrite head_rep.
  specialize (Ht a s Hs). case_decide; [lia|done].
Qed.

(** After the collapsing rule no run of three newlines is left. *)
Lemma collapse_calm (t : text) : calm (re_sub blank_lines [newline; newline] t).
Proof.
  unfold re_sub.
  apply (sub_scan_ind (with_repl blank_lines (λ _, [newline; newline]))
           (λ _ s out, calm out ∧ run (lit newline) out ≤ run (lit newline) s)).
  - by apply with_repl_proper.
  - intros _. split; [apply calm_nil|done].
  - intros b c s out E [Hc Hr]. unfold with_repl, match_at, blank_lines in E.
    rewrite head_rep in E. case_decide as Hrun; [done|].
    assert (run (lit newline) (c :: out) ≤ run (lit newline) (c :: s)) as Hle.
    { cbn [run]. destruct (lit newline c); lia. }
    split; [|done]. apply calm_cons; [lia|done].
  - intros b s n rep out E _ [Hc Hr]. unfold with_repl, match_at, blank_lines in E.
    rewrite head_rep in E. case_decide as Hrun; [|done].
    simpl in E. injection E as <- <-. rewrite run_drop_run in Hr.
    assert (run (lit newline) out = 0) as H0 by lia.
    split.
    + apply calm_cons; [cbn [run app]; unfold lit in *; rewrite !N.eqb_refl, H0; lia|].
      apply calm_cons; [cbn [run app]; unfold lit in *; rewrite !N.eqb_refl, H0; lia|done].
    + cbn [run app]. unfold lit in *. rewrite !N.eqb_refl. lia.
Qed.

(** A pattern anchored at the start only rewrites a prefix. *)
Lemma anchored_sub_suffix (r : regex) (t : text) :
  nullable (Bos ⊙ r) = false → ∃ w, t = w ++ re_sub (Bos ⊙ r) [] t.
Proof.
  intros Hn. unfold re_sub.
  set (m := with_repl (Bos ⊙ r) (λ _, [])).
  assert (proper m) as Hm by by apply with_repl_proper.
  assert (∀ b s, b ≠ [] → sub_scan m b s 0 = s) as Hlater.
  { intros b s Hb. apply sub_scan_none. intros a s' _. apply with_repl_none.
    simpl. destruct (rev a ++ b) eqn:E; [|done].
    apply app_nil in E as [_ ->]. done. }
  rewrite sub_scan_unfold by done.
  destruct (m [] t) as [[n out]|] eqn:E.
  - pose proof (Hm _ _ _ _ E) as Hlen.
    unfold m, with_repl in E. destruct (match_at _ _ _); [|done].
    simpl in E. injection E as -> <-.
    exists (take n t). rewrite Hlater; [cbn [app]; by rewrite take_drop|].
    rewrite app_nil_r. intros Hr. apply (f_equal length) in Hr.
    rewrite length_rev, length_take in Hr. simpl in Hr. lia.
  - exists []. destruct t as [|c t]; [done|]. by rewrite Hlater.
Qed.

Lemma strip_infix (t : text) : ∃ w1 w2, t = w1 ++ strip t ++ w2.
Proof.
  destruct (lstrip_suffix t) as (w1 & H1 & _).
  destruct (rstrip_prefix (lstrip t)) as (w2 & H2 & _).
  exists w1, w2. unfold strip. by rewrite <- H2.
Qed.

Lemma clean_calm (x : text) : calm (clean_html_for_telegram x).
Proof.
  unfold clean_html_for_telegram.
  match goal with |- calm (strip (re_sub service_word [] ?u)) => set (t := u) end.
  assert (calm t) as Ht by apply collapse_calm.
  destruct (anchored_sub_suffix (Rep 0 isspace ⊙ Alt (ilits (str "html")) (ilits (str "body"))
              ⊙ Rep 0 isspace ⊙ Opt (one_of ":>-") ⊙ Rep 0 isspace) t eq_refl) as (w & Hw).
  fold service_word in Hw.
  destruct (strip_infix (re_sub service_word [] t)) as (w1 & w2 & Hs).
  apply (calm_infix (w ++ w1) _ w2). rewrite <- app_assoc, <- Hs, <- Hw. done.
Qed.

(** ** Idempotence *)

(** C2, as stated, fails: a second pass can find work that the first pass
    uncovered, here a second leading service word. *)
Lemma sanitize_not_idempotent :
  let x := str "<div>html</div>body <br>see http://x.com" in
  sanitize x = str "body " ++ [newline] ++ str "see http://x.com"
  ∧ sanitize (sanitize x) = str "see http://x.com"
  ∧ sanitize (sanitize x) ≠ sanitize x.
Proof. vm_compute. repeat split. discriminate. Qed.

(** C2, amended. When no rewrite pattern of the sanitizer matches in the
    result of the first pass, the second pass returns it unchanged; the
    collapsing of newlines and the trimming never need a second pass. *)
Theorem sanitize_idempotent_when_settled (x : text) :
  settled (sanitize x) = true → sanitize (sanitize x) = sanitize x.
Proof.
  intros Hs. set (y := sanitize x) in *.
  assert (trimmed y) as Htrim by apply strip_trimmed.
  assert (calm y) as Hcalm by apply clean_calm.
  assert (∀ r, In r rewrite_patterns → re_search r y = false) as Hq
    by (intros r; by apply settled_quiet).
  assert (format_contact_links y = y) as Hf.
  { unfold format_contact_links.
    rewrite (sub_scan_same (with_groups team_prefix handle_group (λ g1 g2, g1 ++ g2))).
    - rewrite (sub_scan_none (with_groups team_prefix team_url_group _)).
      + apply sub_scan_none. intros a s Hy. apply with_repl_none.
        apply (re_search_false bare_url y); [|done]. apply Hq. cbn. tauto.
      + intros a s Hy. apply with_groups_none.
        apply (re_search_false _ y); [|done]. apply Hq. cbn. tauto.
    - by apply with_groups_proper.
    - intros b s n out. unfold with_groups.
      destruct (head _) as [[n1 n2]|]; simpl; [|done].
      intros [= <- <-]. apply take_take_drop. }
  unfold sanitize at 1. rewrite Hf. unfold clean_html_for_telegram.
  repeat (rewrite (re_sub_quiet _ _ y); [|apply Hq; cbn; tauto]).
  assert (re_sub blank_lines [newline; newline] y = y) as Hb.
  { apply sub_scan_none. intros a s Hy. apply with_repl_none.
    by apply (calm_no_blank_lines y a). }
  rewrite Hb. rewrite (re_sub_quiet _ _ y); [|apply Hq; cbn; tauto]. by apply strip_id.
Qed.

Lemma sanitize_idempotent_when_settled_witness :
  let x := str "<div><b>Role</b><br>Acme <span>remote</span></div>

<p>see http://x.com</p>" in
  sanitize (sanitize x) = sanitize x.
Proof.
  intros x. apply sanitize_idempotent_when_settled. vm_compute. reflexivity.
Defined.

(** ** The tag rule *)

Lemma elem_of_rep_seq (k0 : nat) (p : cls) (r : regex) (b s : text) (n : nat) :
  n ∈ ends (Rep k0 p ⊙ r) b s ↔
  ∃ k n2, k0 ≤ k ≤ run p s ∧ n2 ∈ ends r (rev (take k s) ++ b) (drop k s) ∧ n = k + n2.
Proof.
  cbn [ends]. rewrite list_elem_of_bind. split.
  - intros (k & H2 & H1). apply list_elem_of_fmap in H2 as (n2 & -> & H2).
    rewrite elem_of_rev, elem_of_seq in H1. exists k, n2. split; [lia|done].
  - intros (k & n2 & Hk & H2 & ->). exists k. split.
    + apply list_elem_of_fmap. eauto.
    + rewrite elem_of_rev, elem_of_seq. lia.
Qed.

Lemma run_drop_lt (p : cls) (s : text) (k : nat) :
  k < run p s → ∃ c rest, drop k s = c :: rest ∧ p c = true.
Proof.
  revert k. induction s as [|c s IH]; intros k; simpl; [lia|].
  destruct (p c) eqn:E; [|lia]. destruct k as [|k]; [eauto|].
  intros Hk. apply IH. lia.
Qed.

Lemma run_drop_stop (p : cls) (s : text) (c : N) (rest : text) :
  drop (run p s) s = c :: rest → p c = false.
Proof.
  intros H. pose proof (run_drop_run p s) as Hr. rewrite H in Hr. simpl in Hr.
  by destruct (p c).
Qed.

Lemma notgt_false (c : N) : notgt c = false ↔ c = N_of_ascii ">".
Proof.
  unfold notgt, other_than, chr, lit. rewrite negb_false_iff, N.eqb_eq. split; done.
Qed.

Lemma run_lt_length (p : cls) (s : text) :
  run p s < length s → ∃ c rest, drop (run p s) s = c :: rest.
Proof.
  intros H. destruct (drop (run p s) s) as [|c rest] eqn:E; [|eauto].
  apply (f_equal length) in E. rewrite length_drop in E. simpl in E. lia.
Qed.

(** The body of a tag: the longest run without [>], at least one
    character, and then a [>]. *)
Lemma elem_of_tag_body (b X : text) (n : nat) :
  n ∈ ends (Rep 1 notgt ⊙ Chr (chr ">")) b X ↔
  n = S (run notgt X) ∧ 1 ≤ run notgt X < length X.
Proof.
  rewrite elem_of_rep_seq. split.
  - intros (k & n2 & Hk & H2 & ->). cbn [ends] in H2.
    destruct (drop k X) as [|c rest] eqn:E; [by apply elem_of_nil in H2|].
    destruct (chr ">" c) eqn:Hc; [|by apply elem_of_nil in H2].
    apply list_elem_of_singleton in H2 as ->.
    assert (k = run notgt X) as ->.
    { destruct (decide (k < run notgt X)) as [Hlt|]; [|lia].
      apply run_drop_lt in Hlt as (c' & rest' & E' & Hc').
      rewrite E in E'. injection E' as <- <-.
      unfold notgt, other_than in Hc'. by rewrite Hc in Hc'. }
    split; [lia|]. split; [lia|].
    apply (f_equal length) in E. rewrite length_drop in E. simpl in E. lia.
  - intros (-> & H1 & H2). exists (run notgt X), 1. split; [lia|]. split; [|lia].
    apply run_lt_length in H2 as (c & rest & E). cbn [ends]. rewrite E.
    apply run_drop_stop, notgt_false in E as ->.
    unfold chr, lit. rewrite N.eqb_refl. apply list_elem_of_here.
Qed.

Lemma fmap_nil_iff {A B} (f : A → B) (l : list A) : f <$> l = [] ↔ l = [].
Proof. destruct l; split; done. Qed.

Lemma ends_chr_none (p : cls) (b s : text) :
  ends (Chr p) b s = [] ↔ starts_cls [p] s = false.
Proof.
  simpl. destruct s as [|c s]; [done|]. rewrite andb_true_r.
  by destruct (p c).
Qed.

Lemma ends_chars_none (ps : list cls) (b s : text) :
  ends (chars ps) b s = [] ↔ starts_cls ps s = false.
Proof. rewrite ends_chars. by destruct (starts_cls ps s). Qed.

Lemma ends_chr_chr_none (p q : cls) (b s : text) :
  ends (Chr p ⊙ Chr q) b s = [] ↔ starts_cls [p; q] s = false.
Proof.
  rewrite ends_chr_seq. destruct s as [|c s]; [done|]. cbn [starts_cls].
  destruct (p c); [|done]. rewrite fmap_nil_iff, ends_chr_none. done.
Qed.

(** An optional slash in front of a word whose first class rejects the
    slash. *)
Lemma ends_opt_slash_none (r : regex) (p : cls) (ps : list cls) :
  p (N_of_ascii "/") = false →
  (∀ b s, ends r b s = [] ↔ starts_cls (p :: ps) s = false) →
  ∀ b X, ends (Opt (chr "/") ⊙ r) b X = [] ↔
         starts_cls (p :: ps) X = false ∧ starts_cls (chr "/" :: p :: ps) X = false.
Proof.
  intros Hp Hr b X. rewrite ends_opt_seq. destruct X as [|c X].
  - rewrite Hr. split; [done|by intros [? _]].
  - destruct (chr "/" c) eqn:E.
    + apply N.eqb_eq in E as <-.
      rewrite app_nil, fmap_nil_iff, !Hr. cbn [starts_cls]. rewrite Hp.
      unfold chr, lit. rewrite N.eqb_refl. simpl. tauto.
    + rewrite Hr. cbn [starts_cls]. rewrite E. simpl. tauto.
Qed.

Lemma starts_cls_weaken (p q : cls) (ps : list cls) (X : text) :
  (∀ c, p c = true → q c = true) → starts_cls (p :: ps) X = true → starts_cls [q] X = true.
Proof.
  intros Hpq. destruct X as [|c X]; [done|]. cbn [starts_cls].
  intros [Hc _]%andb_true_iff. by rewrite (Hpq c Hc).
Qed.

Lemma starts_cls_weaken2 (s p q : cls) (ps : list cls) (X : text) :
  (∀ c, p c = true → q c = true) →
  starts_cls (s :: p :: ps) X = true → starts_cls [s; q] X = true.
Proof.
  intros Hpq. destruct X as [|c X]; [done|]. cbn [starts_cls].
  intros [Hc H]%andb_true_iff. rewrite Hc. simpl.
  change (starts_cls [q] X = true). by apply (starts_cls_weaken p q ps).
Qed.

Lemma ends_alt (r1 r2 : regex) (b s : text) :
  ends (Alt r1 r2) b s = ends r1 b s ++ ends r2 b s.
Proof. reflexivity. Qed.

(** The lookahead of the tag rule fails exactly on the kept beginnings. *)
Lemma lookahead_kept_start (b X : text) :
  ends kept_tag_start b X = [] ↔ kept_start X = false.
Proof.
  unfold kept_tag_start. rewrite !ends_alt, !app_nil.
  rewrite (ends_opt_slash_none (Chr (one_of "biusa")) (one_of "biusa") []);
    [|done|intros; apply ends_chr_none].
  unfold lits.
  rewrite (ends_opt_slash_none (chars (lit <$> str "code")) (lit 99) (lit <$> str "ode"));
    [|done|intros; apply ends_chars_none].
  rewrite (ends_opt_slash_none (chars (lit <$> str "pre")) (lit 112) (lit <$> str "re"));
    [|done|intros; apply ends_chars_none].
  rewrite (ends_opt_slash_none (chars (lit <$> str "blockquote")) (lit 98)
             (lit <$> str "lockquote")); [|done|intros; apply ends_chars_none].
  change (ends (Chr (chr "a") ⊙ Chr isspace) b X) with (ends (Chr (lit 97) ⊙ Chr isspace) b X).
  rewrite ends_chr_chr_none.
  unfold kept_start, kept_prefixes. cbn [existsb].
  change (lit <$> str "code") with (lit 99 :: (lit <$> str "ode")).
  change (lit <$> str "/code") with (chr "/" :: lit 99 :: (lit <$> str "ode")).
  change (lit <$> str "pre") with (lit 112 :: (lit <$> str "re")).
  change (lit <$> str "/pre") with (chr "/" :: lit 112 :: (lit <$> str "re")).
  assert (∀ c, lit 98 c = true → one_of "biusa" c = true) as Hb
    by (by intros c <-%N.eqb_eq).
  assert (∀ c, lit 97 c = true → one_of "biusa" c = true) as Ha
    by (by intros c <-%N.eqb_eq).
  pose proof (starts_cls_weaken (lit 98) (one_of "biusa") (lit <$> str "lockquote") X Hb) as H1.
  pose proof (starts_cls_weaken2 (chr "/") (lit 98) (one_of "biusa")
                (lit <$> str "lockquote") X Hb) as H2.
  pose proof (starts_cls_weaken (lit 97) (one_of "biusa") [isspace] X Ha) as H3.
  destruct (starts_cls [one_of "biusa"] X), (starts_cls [chr "/"; one_of "biusa"] X),
    (starts_cls (lit 99 :: (lit <$> str "ode")) X),
    (starts_cls (chr "/" :: lit 99 :: (lit <$> str "ode")) X),
    (starts_cls (lit 112 :: (lit <$> str "re")) X),
    (starts_cls (chr "/" :: lit 112 :: (lit <$> str "re")) X),
    (starts_cls (lit 98 :: (lit <$> str "lockquote")) X),
    (starts_cls (chr "/" :: lit 98 :: (lit <$> str "lockquote")) X),
    (starts_cls [lit 97; isspace] X); simpl; try tauto;
    try (specialize (H1 eq_refl)); try (specialize (H2 eq_refl));
    try (specialize (H3 eq_refl)); try discriminate; tauto.
Qed.

Lemma ends_notahead_seq (k r : regex) (b s : text) :
  ends (NotAhead k ⊙ r) b s = match ends k b s with [] => ends r b s | _ => [] end.
Proof.
  cbn [ends]. destruct (ends k b s); [|done]. simpl.
  by rewrite app_nil_r, fmap_add_0.
Qed.

(** What the tag rule matches: a [<], a text that does not begin in a kept
    way, taken up to its first [>]. *)
Lemma elem_of_other_tag (b s : text) (n : nat) :
  n ∈ ends other_tag b s ↔
  ∃ X, s = N_of_ascii "<" :: X ∧ kept_start X = false
       ∧ 1 ≤ run notgt X < length X ∧ n = S (S (run notgt X)).
Proof.
  unfold other_tag. rewrite ends_chr_seq. destruct s as [|c X].
  - rewrite elem_of_nil. split; [done|]. by intros (? & ? & _).
  - destruct (chr "<" c) eqn:Hc.
    + apply N.eqb_eq in Hc as <-. rewrite list_elem_of_fmap, ends_notahead_seq.
      split.
      * intros (n' & -> & Hn).
        destruct (ends kept_tag_start _ X) eqn:Hk; [|by apply elem_of_nil in Hn].
        apply lookahead_kept_start in Hk.
        apply elem_of_tag_body in Hn as (-> & Hr). eauto.
      * intros (X' & [= <-] & Hk & Hr & ->). exists (S (run notgt X)). split; [done|].
        apply (lookahead_kept_start (N_of_ascii "<" :: b)) in Hk. rewrite Hk.
        by apply elem_of_tag_body.
    + rewrite elem_of_nil. split; [done|]. intros (X' & [= -> _] & _).
      by vm_compute in Hc.
Qed.

Lemma other_tag_none (b X : text) :
  ends other_tag b (N_of_ascii "<" :: X) = [] → open_ok X.
Proof.
  intros H. unfold open_ok.
  destruct (kept_start X) eqn:Hk; [by left|]. right.
  destruct (decide (run notgt X = 0)) as [|H0]; [by left|]. right.
  destruct (decide (run notgt X = length X)) as [|H1]; [done|].
  pose proof (run_le notgt X).
  assert (S (S (run notgt X)) ∈ ends other_tag b (N_of_ascii "<" :: X)) as Hin.
  { apply elem_of_other_tag. exists X. repeat split; [done|lia|lia]. }
  rewrite H in Hin. by apply elem_of_nil in Hin.
Qed.

(** ** Edits that keep tags apart *)

Section Edits.

Variable H : cls.
Variable O : text → Prop.

(** The edits start neither on a character of a kept beginning nor on [>],
    and put in neither [<] nor [>]. *)
Hypothesis H_prefix :
  Forall (Forall (λ p : cls, ∀ c, p c = true → H c = false)) kept_prefixes.
Hypothesis H_gt : H (N_of_ascii ">") = false.
Hypothesis O_plain :
  ∀ out, O out → Forall (λ c, c ≠ N_of_ascii "<" ∧ notgt c = true) out.

Lemma edits_starts_cls (ps : list cls) (X X' : text) :
  Forall (λ p : cls, ∀ c, p c = true → H c = false) ps →
  edits H O X X' → starts_cls ps X = true → starts_cls ps X' = true.
Proof.
  intros Hps. revert X X'. induction Hps as [|p ps Hp _ IH]; intros X X' He; [done|].
  destruct X as [|c X]; [done|]. cbn [starts_cls].
  intros [Hc Hs]%andb_true_iff. inversion He as [|c0 t t' He'|c0 seg t out t' Hc0]; subst.
  - cbn [starts_cls]. rewrite Hc. simpl. by apply (IH X).
  - rewrite (Hp c Hc) in Hc0. done.
Qed.

Lemma edits_kept_start (X X' : text) :
  edits H O X X' → kept_start X = true → kept_start X' = true.
Proof.
  intros He. unfold kept_start. rewrite !existsb_exists.
  intros (ps & Hin & Hs). exists ps. split; [done|].
  apply (edits_starts_cls ps X); [|done..].
  rewrite Forall_forall in H_prefix. apply H_prefix. by apply list_elem_of_In.
Qed.

Lemma edits_notgt (X X' : text) :
  edits H O X X' → Forall (λ c, notgt c = true) X → Forall (λ c, notgt c = true) X'.
Proof.
  induction 1 as [|c t t' _ IH|c seg t out t' _ Hout _ IH]; [done|..].
  - intros [Hc Ht]%Forall_cons. constructor; auto.
  - intros [_ [_ Ht]%Forall_app]%Forall_cons. apply Forall_app. split; [|auto].
    eapply Forall_impl; [by apply O_plain|]. by intros x [_ ?].
Qed.

Lemma run_length_iff (p : cls) (s : text) :
  run p s = length s ↔ Forall (λ c, p c = true) s.
Proof.
  induction s as [|c s IH]; simpl; [split; [constructor|done]|].
  destruct (p c) eqn:E.
  - rewrite Forall_cons. split; [intros [= Hr]; split; [done|by apply IH]|].
    intros [_ Hs]. f_equal. by apply IH.
  - split; [done|]. intros [Hc _]%Forall_cons. congruence.
Qed.

Lemma edits_open_ok (X X' : text) : edits H O X X' → open_ok X → open_ok X'.
Proof.
  intros He [Hk|[H0|Hl]].
  - left. by apply (edits_kept_start X).
  - right. left. destruct X as [|c X].
    + inversion He. done.
    + simpl in H0. destruct (notgt c) eqn:Hc; [done|].
      apply notgt_false in Hc as ->.
      inversion He as [|c0 t t' He'|c0 seg t out t' Hc0]; subst.
      * simpl. done.
      * change (H (N_of_ascii ">") = true) in Hc0. by rewrite H_gt in Hc0.
  - right. right. apply run_length_iff. apply (edits_notgt X); [done|].
    by apply run_length_iff.
Qed.

(** A [<] of the result is a [<] that was kept. *)
Lemma edits_split (t t' a' X' : text) :
  edits H O t t' → t' = a' ++ N_of_ascii "<" :: X' →
  ∃ a X, t = a ++ N_of_ascii "<" :: X ∧ edits H O X X'.
Proof.
  intros He. revert a'. induction He as [|c t t' He IH|c seg t out t' Hc Hout He IH];
    intros a' Ht.
  - by destruct a'.
  - destruct a' as [|x a']; cbn [app] in Ht.
    + injection Ht as -> ->. by exists [], t.
    + injection Ht as <- Ht. destruct (IH a' Ht) as (a & X & -> & HX).
      by exists (c :: a), X.
  - apply app_eq_inv in Ht as [(k & -> & Ht)|(k & -> & Ht)].
    + destruct k as [|x k]; cbn [app] in Ht.
      * destruct (IH [] (eq_sym Ht)) as (a & X & -> & HX).
        exists (c :: seg ++ a), X. cbn [app]. by rewrite <- app_assoc.
      * apply O_plain in Hout. rewrite Forall_app in Hout.
        destruct Hout as [_ [[Hx _] _]%Forall_cons]. injection Ht as <- _. done.
    + destruct (IH k Ht) as (a & X & -> & HX).
      exists (c :: seg ++ a), X. cbn [app]. by rewrite <- app_assoc.
Qed.

Lemma edits_tagfree (t t' : text) : edits H O t t' → tagfree t → tagfree t'.
Proof.
  intros He Ht a' X' Ht'.
  destruct (edits_split t t' a' X' He Ht') as (a & X & -> & HX).
  apply (edits_open_ok X); [done|]. by apply (Ht a).
Qed.

(** [re.sub] as an edit. *)
Lemma sub_scan_edits (m : matcher) :
  proper m →
  (∀ b s n out, m b s = Some (n, out) → O out ∧ ∃ c rest, s = c :: rest ∧ H c = true) →
  ∀ b s, edits H O s (sub_scan m b s 0).
Proof.
  intros Hm Hcut. apply (sub_scan_ind m (λ _ s out, edits H O s out)); [done|..].
  - intros _. constructor.
  - intros b c s out _ He. by constructor.
  - intros b s n rep out E Hn He.
    destruct (Hcut _ _ _ _ E) as (Hrep & c & rest & -> & Hc).
    destruct n as [|n]; [lia|]. cbn [drop] in He.
    rewrite <- (take_drop n rest). by apply edits_cut.
Qed.

Lemma edits_refl (t : text) : edits H O t t.
Proof. induction t; by constructor. Qed.

(** Dropping a tail that begins with a character of [H]. *)
Lemma edits_drop_tail (t w : text) :
  O [] → (∀ c, head w = Some c → H c = true) → edits H O (t ++ w) t.
Proof.
  intros HO Hw. induction t as [|c t IH]; cbn [app]; [|by constructor].
  destruct w as [|c w]; [constructor|].
  rewrite <- (app_nil_r w). apply (edits_cut H O c w [] [] []); [by apply Hw|done|constructor].
Qed.

End Edits.

Lemma edit_start_prefix :
  Forall (Forall (λ p : cls, ∀ c, p c = true → edit_start c = false)) kept_prefixes.
Proof.
  assert (∀ k, edit_start k = false → ∀ c, lit k c = true → edit_start c = false) as Hlit
    by (by intros k Hk c <-%N.eqb_eq).
  assert (∀ c, one_of "biusa" c = true → edit_start c = false) as Hone.
  { intros c (x & Hx & ->%N.eqb_eq)%existsb_exists.
    simpl in Hx. by repeat (destruct Hx as [<-|Hx]; [done|]). }
  unfold kept_prefixes.
  repeat (first [apply Forall_nil | apply Forall_cons; split]).
  all: first [exact I | exact Hone | apply Hlit; reflexivity].
Qed.

Lemma edit_start_gt : edit_start (N_of_ascii ">") = false.
Proof. reflexivity. Qed.

Lemma edit_out_plain (out : text) :
  edit_out out → Forall (λ c, c ≠ N_of_ascii "<" ∧ notgt c = true) out.
Proof. intros [->| ->]; repeat constructor; done. Qed.

Lemma strips_tags_edits (t t' : text) : strips_tags t t' → edits edit_start edit_out t t'.
Proof.
  induction 1 as [|c t t' _ IH|X t t' _ _ _ _ IH]; [constructor|by constructor|].
  change (str "<" ++ X ++ str ">" ++ t) with (N_of_ascii "<" :: X ++ N_of_ascii ">" :: t).
  rewrite (app_assoc X [N_of_ascii ">"] t : X ++ N_of_ascii ">" :: t = _).
  apply (edits_cut _ _ _ _ t [] t'); [reflexivity|by left|done].
Qed.

Lemma starts_cls_app_stop (ps : list cls) (X : text) (c : N) (s : text) :
  Forall (λ p : cls, p c = false) ps → starts_cls ps (X ++ c :: s) = starts_cls ps X.
Proof.
  intros Hps. revert X. induction Hps as [|p ps Hp _ IH]; intros X; [done|].
  destruct X as [|x X]; cbn [app starts_cls]; [by rewrite Hp|]. by rewrite IH.
Qed.

(** Whether a tag begins in a kept way is decided before its [>]. *)
Lemma kept_start_app (X s : text) : kept_start (X ++ N_of_ascii ">" :: s) = kept_start X.
Proof.
  unfold kept_start, kept_prefixes. cbn [existsb].
  rewrite !starts_cls_app_stop; [done|..]; by repeat constructor.
Qed.

Lemma run_take (p : cls) (s : text) : Forall (λ c, p c = true) (take (run p s) s).
Proof.
  induction s as [|c s IH]; simpl; [constructor|].
  destruct (p c) eqn:E; simpl; [by constructor|constructor].
Qed.

Lemma run_app_stop (p : cls) (X : text) (c : N) (s : text) :
  Forall (λ x, p x = true) X → p c = false → run p (X ++ c :: s) = length X.
Proof.
  intros HX Hc. induction HX as [|x X Hx _ IH]; simpl; [by rewrite Hc|].
  rewrite Hx. by f_equal.
Qed.

Lemma tagfree_nil : tagfree [].
Proof. intros [|? ?] X HX; discriminate HX. Qed.

Lemma tagfree_suffix (w t : text) : tagfree (w ++ t) → tagfree t.
Proof. intros H a X ->. apply (H (w ++ a) X). by rewrite <- app_assoc. Qed.

(** A text without open work for the tag rule has no tag of the dropped
    kind. *)
Lemma tagfree_no_tag_left (t : text) : tagfree t → ¬ tag_left t.
Proof.
  intros Ht (a & X & s & -> & HX & Hgt & Hk).
  specialize (Ht a (X ++ N_of_ascii ">" :: s) eq_refl).
  destruct Ht as [Hk'|[H0|Hl]].
  - rewrite kept_start_app in Hk'. congruence.
  - rewrite (run_app_stop notgt X) in H0; [|done..].
    destruct X; [done|]. simpl in H0. lia.
  - rewrite (run_app_stop notgt X) in Hl; [|done..].
    rewrite length_app in Hl. simpl in Hl. lia.
Qed.

(** The tag rule removes whole tags of the dropped kind and nothing else,
    and leaves none behind. *)
Lemma other_tag_sub (b s : text) :
  let out := sub_scan (with_repl other_tag (λ _, [])) b s 0 in
  strips_tags s out ∧ tagfree out.
Proof.
  apply (sub_scan_ind (with_repl other_tag (λ _, []))
           (λ _ s out, strips_tags s out ∧ tagfree out)).
  - by apply with_repl_proper.
  - intros _. split; [constructor|apply tagfree_nil].
  - intros b' c s' out E [Hs Ht]. split; [by constructor|].
    intros [|x a] X Heq; cbn [app] in Heq.
    + injection Heq as -> ->.
      apply (edits_open_ok edit_start edit_out edit_start_prefix edit_start_gt
               edit_out_plain s'); [by apply strips_tags_edits|].
      apply (other_tag_none b'). apply head_none_nil.
      unfold with_repl, match_at in E. by destruct (head _).
    + injection Heq as _ ->. by apply (Ht a).
  - intros b' s' n rep out E Hn [Hs Ht].
    unfold with_repl, match_at in E.
    destruct (head (ends other_tag b' s')) as [n'|] eqn:Hh; [|done].
    simpl in E. injection E as -> <-. split; [|done].
    apply head_elem_of, elem_of_other_tag in Hh as (X & -> & Hk & [Hr1 Hr2] & ->).
    cbn [drop] in Hs.
    destruct (run_lt_length notgt X Hr2) as (c & rest & Hd).
    pose proof (run_drop_stop _ _ _ _ Hd) as Hc. apply notgt_false in Hc as ->.
    assert (drop (S (run notgt X)) X = rest) as Hrest.
    { replace (S (run notgt X)) with (run notgt X + 1) by lia.
      by rewrite <- drop_drop, Hd. }
    rewrite Hrest in Hs.
    assert (X = take (run notgt X) X ++ N_of_ascii ">" :: rest) as HX
      by (by rewrite <- Hd, take_drop).
    rewrite HX at 1. rewrite HX in Hk. rewrite kept_start_app in Hk.
    apply (strips_drop (take (run notgt X) X) rest out); [|apply run_take|done..].
    intros Hnil. apply (f_equal length) in Hnil. rewrite length_take in Hnil.
    simpl in Hnil. lia.
Qed.

(** ** From the tag rule to the result *)

Lemma starts_cls_head (p : cls) (ps : list cls) (s : text) :
  starts_cls (p :: ps) s = true → ∃ c rest, s = c :: rest ∧ p c = true.
Proof.
  destruct s as [|c s]; [done|]. cbn [starts_cls].
  intros [Hc _]%andb_true_iff. eauto.
Qed.

Lemma aggregator_url_edits (t : text) :
  edits edit_start edit_out t (re_sub aggregator_url [] t).
Proof.
  apply sub_scan_edits; [by apply with_repl_proper|].
  intros b s n out E. unfold with_repl, match_at in E.
  destruct (head (ends aggregator_url b s)) as [k|] eqn:Hh; [|done].
  simpl in E. injection E as _ <-. split; [by left|].
  unfold aggregator_url, ilits in Hh. rewrite ends_chars_seq in Hh.
  destruct (starts_cls (ilit <$> str "http") s) eqn:Hs; [|done].
  apply starts_cls_head in Hs as (c & rest & -> & Hc). exists c, rest. split; [done|].
  unfold edit_start, ichr. change (N_of_ascii "h") with 104%N at 1.
  change (ilit 104 c = true) in Hc. rewrite Hc. by rewrite orb_true_r.
Qed.

Lemma aggregator_edits (t : text) :
  edits edit_start edit_out t (re_sub aggregator [] t).
Proof.
  apply sub_scan_edits; [by apply with_repl_proper|].
  intros b s n out E. unfold with_repl, match_at in E.
  destruct (head (ends aggregator b s)) as [k|] eqn:Hh; [|done].
  simpl in E. injection E as _ <-. split; [by left|].
  unfold aggregator, ilits in Hh. rewrite ends_chars in Hh.
  destruct (starts_cls (ilit <$> str "vseti.app") s) eqn:Hs; [|done].
  apply starts_cls_head in Hs as (c & rest & -> & Hc). exists c, rest. split; [done|].
  unfold edit_start, ichr. change (ilit (N_of_ascii "v") c = true) in Hc.
  rewrite Hc. by rewrite orb_true_r.
Qed.

Lemma blank_lines_edits (t : text) :
  edits edit_start edit_out t (re_sub blank_lines [newline; newline] t).
Proof.
  apply sub_scan_edits; [by apply with_repl_proper|].
  intros b s n out E. unfold with_repl, match_at, blank_lines in E.
  rewrite head_rep in E. case_decide as Hr; [|done].
  simpl in E. injection E as _ <-. split; [by right|].
  destruct s as [|c rest]; cbn [run] in Hr; [lia|].
  destruct (lit newline c) eqn:Hc; [|lia].
  apply N.eqb_eq in Hc as <-. by exists newline, rest.
Qed.

Lemma rstrip_edits (t : text) : edits edit_start edit_out t (rstrip t).
Proof.
  destruct (rstrip_prefix t) as (w & Ht & Hw). rewrite Ht at 1.
  apply edits_drop_tail; [by left|].
  intros c Hc. destruct w as [|x w]; [done|]. injection Hc as ->.
  apply Forall_cons in Hw as [Hx _]. unfold edit_start. rewrite Hx.
  by rewrite !orb_true_r.
Qed.

(** No tag of the dropped kind is left in the cleaned text. *)
Lemma clean_tagfree (x : text) : tagfree (clean_html_for_telegram x).
Proof.
  unfold clean_html_for_telegram.
  match goal with
  | |- tagfree (strip (re_sub _ _ (re_sub _ _ (re_sub _ _ (re_sub _ _ (re_sub other_tag [] ?u)))))) =>
      set (t0 := u)
  end.
  pose proof (proj2 (other_tag_sub [] t0)) as H1. cbv zeta in H1.
  fold (re_sub other_tag [] t0) in H1. set (t1 := re_sub other_tag [] t0) in *.
  pose proof (edits_tagfree _ _ edit_start_prefix edit_start_gt edit_out_plain
                _ _ (aggregator_url_edits t1) H1) as H2.
  set (t2 := re_sub aggregator_url [] t1) in *.
  pose proof (edits_tagfree _ _ edit_start_prefix edit_start_gt edit_out_plain
                _ _ (aggregator_edits t2) H2) as H3.
  set (t3 := re_sub aggregator [] t2) in *.
  pose proof (edits_tagfree _ _ edit_start_prefix edit_start_gt edit_out_plain
                _ _ (blank_lines_edits t3) H3) as H4.
  set (t4 := re_sub blank_lines [newline; newline] t3) in *.
  destruct (anchored_sub_suffix (Rep 0 isspace ⊙ Alt (ilits (str "html")) (ilits (str "body"))
              ⊙ Rep 0 isspace ⊙ Opt (one_of ":>-") ⊙ Rep 0 isspace) t4 eq_refl) as (w & Hw).
  fold service_word in Hw. rewrite Hw in H4. apply tagfree_suffix in H4.
  set (t5 := re_sub service_word [] t4) in *. unfold strip.
  apply (edits_tagfree _ _ edit_start_prefix edit_start_gt edit_out_plain
           _ _ (rstrip_edits (lstrip t5))).
  destruct (lstrip_suffix t5) as (w' & Hw' & _). rewrite Hw' in H4.
  by apply tagfree_suffix in H4.
Qed.

(** What the tag rule leaves out.  In the cleaned text no tag [<X>] is
    left unless [X] begins with one of the letters b, i, u, s, a, or with
    [code] or [pre], each also after a slash; and the substitution of the
    tag rule deletes whole tags and keeps every other character. *)
Lemma clean_html_for_telegram_drops_other_tags :
  (∀ x, ¬ tag_left (clean_html_for_telegram x))
  ∧ (∀ t, strips_tags t (re_sub other_tag [] t)).
Proof.
  split.
  - intros x. apply tagfree_no_tag_left, clean_tagfree.
  - intros t. apply (other_tag_sub [] t).
Qed.

(** C5. The cleaner returns [<script>alert(1)</script>] as it is, and of
    [<ul><li>x</li></ul>] it removes the [li] tags and leaves the [ul]
    tags: the lookahead of the tag rule tests the first letter of the name
    against b, i, u, s, a, so every tag whose name begins with one of them
    stays.  [<div>Hello</div>] gives [Hello], and [code] and [pre], which
    the rule lists, stay. *)
Theorem clean_html_for_telegram_keeps_script_tag :
  clean_html_for_telegram (str "<script>alert(1)</script>") = str "<script>alert(1)</script>"
  ∧ clean_html_for_telegram (str "<ul><li>x</li></ul>") = str "<ul>x</ul>"
  ∧ clean_html_for_telegram (str "<div>Hello</div>") = str "Hello"
  ∧ clean_html_for_telegram (str "<code>Hello</code>") = str "<code>Hello</code>".
Proof. vm_compute. done. Qed.

(** ** The stores under several writes *)

Lemma entry_update (example d1 d2 : text) :
  <[str "description" := PStr d2]>
    (<[str "example" := PStr example]> (<[str "description" := PStr d1]> (∅ : gmap text pyval)))
  = <[str "example" := PStr example]> (<[str "description" := PStr d2]> ∅).
Proof.
  rewrite insert_insert_ne by done. by rewrite insert_insert_eq.
Qed.





(** X2. A second [set_template] for the same user replaces the first,
    whether the first returned or raised: what the second call returns or
    raises, the store and the file are those of the second call alone. *)
Theorem set_template_last_write_wins (user_id : Z) (t1 d1 t2 d2 : text) :
  (∀ data : gmap text TemplateStore.UserTemplate,
     TemplateStore.set_template user_id t2 d2
       (TemplateStore.set_template user_id t1 d1 data).2.1
     = TemplateStore.set_template user_id t2 d2 data)
  ∧ (∀ st : pyval * disk,
     TemplateManager.set_template user_id t2 d2
       (TemplateManager.set_template user_id t1 d1 st).2
     = TemplateManager.set_template user_id t2 d2 st).
Proof.
  split.
  - intros data. unfold TemplateStore.set_template. cbn [fst snd].
    by rewrite insert_insert_eq.
  - intros [[] dk]; try reflexivity.
    unfold TemplateManager.set_template. cbn [fst snd].
    by rewrite insert_insert_eq.
Qed.

(** X3. Two users saving their templates one after the other: in either
    order the second call returns or raises alike, and every user has the
    same template afterwards, in memory and after a restart.  (The order
    of the keys, which the dict and the file keep, is the order of the
    calls.) *)
Theorem set_template_commutes (u v w : Z) (tu du tv dv : text) :
  u ≠ v →
  (∀ data : gmap text TemplateStore.UserTemplate,
     let a := TemplateStore.set_template u tu du
                (TemplateStore.set_template v tv dv data).2.1 in
     let b := TemplateStore.set_template v tv dv
                (TemplateStore.set_template u tu du data).2.1 in
     a.1 = b.1
     ∧ TemplateStore.get_template w a.2.1 = TemplateStore.get_template w b.2.1
     ∧ TemplateStore.get_template w (TemplateStore._load a.2.2)
       = TemplateStore.get_template w (TemplateStore._load b.2.2))
  ∧ (∀ st : pyval * disk,
     let a := TemplateManager.set_template u tu du
                (TemplateManager.set_template v tv dv st).2 in
     let b := TemplateManager.set_template v tv dv
                (TemplateManager.set_template u tu du st).2 in
     a.1 = b.1
     ∧ TemplateManager.get_template w a.2.1 = TemplateManager.get_template w b.2.1
     ∧ (t ←! TemplateManager.load_templates a.2.2; TemplateManager.get_template w t)
       = (t ←! TemplateManager.load_templates b.2.2; TemplateManager.get_template w t)).
Proof.
  intros Hne.
  assert (key_of u ≠ key_of v) as Hk by (intros H; by apply Hne, key_of_inj).
  split.
  - intros data. cbv zeta. unfold TemplateStore.set_template. cbn [fst snd].
    by rewrite (insert_insert_ne _ (key_of u) (key_of v)).
  - intros [[] dk]; try done. cbv zeta.
    unfold TemplateManager.set_template. cbn [fst snd].
    by rewrite (insert_insert_ne _ (key_of u) (key_of v)).
Qed.

Lemma set_template_commutes_witness :
  TemplateStore.get_template 7
    (TemplateStore.set_template 7 (str "a") (str "b")
       (TemplateStore.set_template 8 (str "c") (str "d") ∅).2.1).2.1
  = TemplateStore.get_template 7
      (TemplateStore.set_template 8 (str "c") (str "d")
         (TemplateStore.set_template 7 (str "a") (str "b") ∅).2.1).2.1.
Proof.
  apply (proj1 (set_template_commutes 7 8 7 (str "a") (str "b") (str "c") (str "d")
                  ltac:(lia)) ∅).
Defined.

(** X4. In a store that is a dict, [update_description] after
    [set_template] for the same user, whether or not the save of
    [set_template] raised, ends as a single [set_template] with the new
    description does: the example is kept and the description replaced,
    and the outcome, the store and the file are the same. *)
Theorem update_description_after_set_template
    (user_id : Z) (example d1 d2 : text) (d : gmap text pyval) (dk : disk) :
  TemplateManager.update_description user_id d2
    (TemplateManager.set_template user_id example d1 (PDict d, dk)).2
  = TemplateManager.set_template user_id example d2 (PDict d, dk).
Proof.
  unfold TemplateManager.set_template, TemplateManager.update_description.
  cbn [fst snd TemplateManager.has_key].
  rewrite bool_decide_eq_true_2 by (rewrite lookup_insert_eq; eauto).
  rewrite lookup_insert_eq. unfold TemplateManager.entry.
  rewrite insert_insert_eq. by rewrite entry_update.
Qed.








(** X7. Loading a document whose entries are all objects gives one
    template per entry, under the same key; a field the entry lacks is the
    empty string, and whatever else the entry holds is dropped. *)
Theorem load_fills_missing_fields (r : gmap text pyval) :
  map_Forall (λ _ v, TemplateStore.is_dict v = true) r →
  ∀ k, TemplateStore._load (Some (Document (PDict r))) !! k
       = match r !! k with
         | Some (PDict p) =>
             Some {| TemplateStore.template := default (PStr []) (p !! str "template");
                     TemplateStore.description := default (PStr []) (p !! str "description") |}
         | _ => None
         end.
Proof.
  intros Hr k. unfold TemplateStore._load. cbn [read_json bind TemplateStore.load_items].
  rewrite bool_decide_eq_true_2 by done. cbn [try_except].
  rewrite lookup_omap. destruct (r !! k) as [v|] eqn:E; [|done].
  specialize (Hr _ _ E). cbn beta in Hr. by destruct v.
Qed.

Lemma load_fills_missing_fields_witness :
  TemplateStore._load
    (Some (Document (PDict (<[str "7" := PDict (<[str "template" := PStr (str "T")]> ∅)]> ∅))))
    !! str "7"
  = Some {| TemplateStore.template := PStr (str "T"); TemplateStore.description := PStr [] |}.
Proof.
  rewrite load_fills_missing_fields.
  - reflexivity.
  - intros k v. destruct (decide (k = str "7")) as [->|Hk].
    + rewrite lookup_insert_eq. by intros [= <-].
    + rewrite lookup_insert_ne by done. by rewrite lookup_empty.
Defined.

(** ** What the cleaner does to the length and to runs of newlines *)

Lemma ends_min_len (r : regex) (b s : text) (n : nat) : n ∈ ends r b s → min_len r ≤ n.
Proof.
  revert b s n. induction r as [|p|p|k p|r1 IH1 r2 IH2|r1 IH1 r2 IH2| | |r IH|w];
    intros b s n; cbn [ends min_len]; try lia.
  - destruct s as [|c s]; [by intros ?%elem_of_nil|].
    destruct (p c); [|by intros ?%elem_of_nil]. by intros ->%list_elem_of_singleton.
  - rewrite elem_of_rev, elem_of_seq. lia.
  - intros (n1 & (n2 & -> & H2)%list_elem_of_fmap & H1)%list_elem_of_bind.
    apply IH1 in H1. apply IH2 in H2. lia.
  - intros [H|H]%elem_of_app; [apply IH1 in H|apply IH2 in H]; lia.
Qed.

Lemma re_sub_length (r : regex) (repl s : text) :
  nullable r = false → length repl ≤ min_len r → length (re_sub r repl s) ≤ length s.
Proof.
  intros Hn Hr. unfold re_sub.
  apply (sub_scan_ind (with_repl r (λ _, repl)) (λ _ s out, length out ≤ length s)).
  - by apply with_repl_proper.
  - done.
  - intros b c s' out _ H. simpl. lia.
  - intros b s' n rep out E Hlen H. unfold with_repl, match_at in E.
    destruct (head (ends r b s')) as [k|] eqn:Hk; [|done]. simpl in E.
    injection E as -> <-. apply head_elem_of, ends_min_len in Hk.
    rewrite length_app. rewrite length_drop in H. lia.
Qed.

Lemma strip_length (t : text) : length (strip t) ≤ length t.
Proof.
  destruct (strip_infix t) as (w1 & w2 & H). rewrite H at 2.
  rewrite !length_app. lia.
Qed.

(** X8. The cleaner never makes a text longer: every rule puts in no more
    characters than its match takes out. *)
Theorem clean_html_for_telegram_never_longer (x : text) :
  length (clean_html_for_telegram x) ≤ length x.
Proof.
  unfold clean_html_for_telegram.
  repeat match goal with
  | |- length (strip ?t) ≤ _ => etrans; [apply strip_length|]
  | |- length (re_sub ?r ?repl ?t) ≤ _ =>
      etrans; [apply (re_sub_length r repl t); [reflexivity|vm_compute; lia]|]
  end.
  done.
Qed.

(** X9. The result of the cleaner has no three newlines in a row. *)
Theorem clean_html_for_telegram_no_blank_run (x a b : text) :
  clean_html_for_telegram x ≠ a ++ [newline; newline; newline] ++ b.
Proof.
  intros H. pose proof (clean_calm x a _ H) as Hr.
  cbn in Hr. lia.
Qed.

(** ** Texts the sanitizer leaves alone *)

Lemma first_link_rule_same (t : text) :
  sub_scan (with_groups team_prefix handle_group (λ g1 g2, g1 ++ g2)) [] t 0 = t.
Proof.
  apply sub_scan_same.
  - by apply with_groups_proper.
  - intros b s n out. unfold with_groups.
    destruct (head _) as [[n1 n2]|]; simpl; [|done].
    intros [= <- <-]. apply take_take_drop.
Qed.

(** X10. Each rule of [format_contact_links] that changes the text needs a
    backslash in it: a text without one comes back unchanged, and the
    sanitizer then does what the cleaner alone does. *)
Theorem format_contact_links_needs_backslash (t : text) :
  Forall (λ c, c ≠ backslash) t →
  format_contact_links t = t ∧ sanitize t = clean_html_for_telegram t.
Proof.
  intros Ht.
  assert (format_contact_links t = t) as H.
  { apply format_contact_links_no_backslash. eapply Forall_impl; [exact Ht|].
    intros c Hc. unfold no_backslash. apply negb_true_iff. by apply N.eqb_neq. }
  split; [done|]. unfold sanitize. by rewrite H.
Qed.

Lemma format_contact_links_needs_backslash_witness :
  format_contact_links (str "Join: https://t.me/relate and @relate_hr")
  = str "Join: https://t.me/relate and @relate_hr".
Proof.
  apply format_contact_links_needs_backslash.
  apply Forall_forall. intros c Hc Hb. subst c. revert Hc.
  apply (bool_decide_unpack (backslash ∉ str "Join: https://t.me/relate and @relate_hr")).
  vm_compute. reflexivity.
Defined.

(** X11. A text in which no rewrite pattern matches, which has no three
    newlines in a row and no white space at either end, passes through the
    sanitizer unchanged. *)
Theorem sanitize_leaves_clean_text (y : text) :
  settled y = true → re_search blank_lines y = false → trimmed y →
  sanitize y = y.
Proof.
  intros Hs Hb Htrim.
  assert (∀ r, In r rewrite_patterns → re_search r y = false) as Hq
    by (intros r; by apply settled_quiet).
  assert (format_contact_links y = y) as Hf.
  { unfold format_contact_links. rewrite first_link_rule_same.
    rewrite (sub_scan_none (with_groups team_prefix team_url_group _)).
    - apply sub_scan_none. intros a s Hy. apply with_repl_none.
      apply (re_search_false bare_url y); [|done]. apply Hq. cbn. tauto.
    - intros a s Hy. apply with_groups_none.
      apply (re_search_false _ y); [|done]. apply Hq. cbn. tauto. }
  unfold sanitize. rewrite Hf. unfold clean_html_for_telegram.
  repeat (rewrite (re_sub_quiet _ _ y); [|first [exact Hb|apply Hq; cbn; tauto]]).
  by apply strip_id.
Qed.

Lemma sanitize_leaves_clean_text_witness :
  let y := str "<b>Designer</b>" ++ [newline; newline]
           ++ anchor (str "https://t.me/relate") (str "Apply") in
  sanitize y = y.
Proof.
  intros y. apply sanitize_leaves_clean_text.
  - vm_compute. reflexivity.
  - vm_compute. reflexivity.
  - split; intros c; vm_compute; intros [= <-]; reflexivity.
Defined.

(** X12. What [generate_message] returns is the fallback text or a
    sanitized completion: in the second case it has no white space at
    either end, no three newlines in a row, and no tag left that the tag
    rule removes. *)
Theorem generate_message_fallback_or_sanitized
    (api_key folder_id : option text) (post : completion_request → outcome response)
    (vacancy_text example description : text) (contact_info : option text) :
  ∃ t, (VacancyProcessor.generate_message api_key folder_id post
          vacancy_text example description contact_info).1 = Ret t
    ∧ (t = VacancyProcessor._generate_simple_message vacancy_text example contact_info
       ∨ ((∃ completion, t = sanitize (strip completion))
          ∧ trimmed t
          ∧ (∀ a b, t ≠ a ++ [newline; newline; newline] ++ b)
          ∧ ¬ tag_left t)).
Proof.
  unfold VacancyProcessor.generate_message.
  destruct (falsy api_key || falsy folder_id); cbn [fst]; [eauto|].
  destruct (post _) as [resp|e]; cbn [bind try_except]; [|eauto].
  destruct (status_code resp =? 200)%Z; [|eauto].
  destruct (json resp) as [v|e]; cbn [bind try_except]; [|eauto].
  destruct (completion_text v) as [t|e] eqn:E; cbn [bind try_except]; [|eauto].
  eexists. split; [reflexivity|]. right. split; [|split; [|split]].
  - unfold completion_text in E.
    repeat match type of E with
    | bind ?m _ = _ => destruct m; cbn [bind] in E; [|done]
    end.
    unfold call_strip in E. destruct a3; try done. injection E as <-. by eexists.
  - apply strip_trimmed.
  - intros a b H. pose proof (clean_calm _ a _ H) as Hr. cbn in Hr. lia.
  - apply tagfree_no_tag_left, clean_tagfree.
Qed.

(** ** The address the extractor requests *)

Lemma run_stop (p : cls) (s : text) (c : N) :
  head (drop (run p s) s) = Some c → p c = false.
Proof.
  induction s as [|x s IH]; simpl; [done|].
  destruct (p x) eqn:E; simpl; [done|]. by intros [= <-].
Qed.

Lemma spec_url_at_shape (t u : text) :
  spec_url_at t = Some u →
  ∃ b, t = u ++ b
    ∧ (starts (str "http://") u = true ∨ starts (str "https://") u = true)
    ∧ Forall (λ c, isspace c = false) u
    ∧ (∀ c, head b = Some c → isspace c = true).
Proof.
  unfold spec_url_at, spec_url_len. intros H.
  assert (∀ w k, starts w t = true → Forall (λ c, isspace c = false) w → k = length w →
            u = take (k + run nonspace (drop k t)) t →
            ∃ b, t = u ++ b ∧ starts w u = true ∧ Forall (λ c, isspace c = false) u
              ∧ (∀ c, head b = Some c → isspace c = true)) as Hcase.
  { intros w k Hw Hsp -> ->. exists (drop (length w + run nonspace (drop (length w) t)) t).
    apply starts_drop in Hw.
    split; [by rewrite take_drop|].
    assert (take (length w) t = w) as Htw by (rewrite Hw; apply take_app_length).
    rewrite <- take_take_drop, Htw.
    split; [|split].
    - apply starts_app. eauto.
    - apply Forall_app. split; [done|].
      eapply Forall_impl; [apply run_take|]. intros c Hc.
      by apply negb_true_iff in Hc.
    - intros c Hc. rewrite <- drop_drop in Hc. apply run_stop in Hc.
      by apply negb_false_iff in Hc. }
  destruct (starts (str "http://") t && _) eqn:E1.
  - apply andb_true_iff in E1 as [E1 _]. simpl in H. injection H as <-.
    destruct (Hcase (str "http://") 7 E1 ltac:(repeat constructor) eq_refl eq_refl)
      as (b & Hb1 & Hb2 & Hb3 & Hb4).
    exists b. split; [exact Hb1|]. split; [by left|]. by split.
  - destruct (starts (str "https://") t && _) eqn:E2; [|done].
    apply andb_true_iff in E2 as [E2 _]. simpl in H. injection H as <-.
    destruct (Hcase (str "https://") 8 E2 ltac:(repeat constructor) eq_refl eq_refl)
      as (b & Hb1 & Hb2 & Hb3 & Hb4).
    exists b. split; [exact Hb1|]. split; [by right|]. by split.
Qed.

Lemma spec_first_url_shape (t u : text) :
  spec_first_url t = Some u →
  ∃ a b, t = a ++ u ++ b
    ∧ (starts (str "http://") u = true ∨ starts (str "https://") u = true)
    ∧ Forall (λ c, isspace c = false) u
    ∧ (∀ c, head b = Some c → isspace c = true).
Proof.
  induction t as [|c t IH]; cbn [spec_first_url].
  - destruct (spec_url_at []) eqn:E; [|done]. intros [= ->].
    apply spec_url_at_shape in E as (b & ?). by exists [], b.
  - destruct (spec_url_at (c :: t)) eqn:E.
    + intros [= ->]. apply spec_url_at_shape in E as (b & ?). by exists [], b.
    + intros (a & b & -> & H)%IH. by exists (c :: a), b.
Qed.

(** X13. The address the extractor requests is a piece of the message: it
    begins with [http://] or [https://], holds no white space, and runs up
    to the next white space or the end of the message, whatever
    punctuation that takes in. *)
Theorem extract_url_content_requests_piece_of_text
    (http_get : text → outcome response) (soup_text : text → outcome text) (t url : text) :
  (extract_url_content http_get soup_text t).2 = [url] →
  ∃ a b, t = a ++ url ++ b
    ∧ (starts (str "http://") url = true ∨ starts (str "https://") url = true)
    ∧ Forall (λ c, isspace c = false) url
    ∧ (∀ c, head b = Some c → isspace c = true).
Proof.
  unfold extract_url_content. pose proof (findall_first_url t) as Hf.
  destruct (re_findall url_pattern t) as [|u us]; cbn [snd]; [done|].
  intros [= ->]. apply spec_first_url_shape. by rewrite <- Hf.
Qed.

Lemma extract_url_content_requests_piece_of_text_witness :
  ∃ a b, str "Apply at https://acme.example/jobs/7). Thanks"
         = a ++ str "https://acme.example/jobs/7)." ++ b
    ∧ (∀ c, head b = Some c → isspace c = true).
Proof.
  destruct (extract_url_content_requests_piece_of_text (λ _, Raise ConnectionError) (λ h, Ret h)
              (str "Apply at https://acme.example/jobs/7). Thanks")
              (str "https://acme.example/jobs/7).")) as (a & b & H1 & _ & _ & H4).
  - vm_compute. reflexivity.
  - by exists a, b.
Defined.

(** ** The lines of a fetched page *)

Lemma split_lines_cons (s : text) : ∃ l ls, split_lines s = l :: ls.
Proof.
  induction s as [|c s (l & ls & IH)]; simpl; [by eauto|].
  destruct (c =? newline)%N; [by eauto|]. rewrite IH. eauto.
Qed.

Lemma split_lines_no_newline (s : text) : Forall (λ l, newline ∉ l) (split_lines s).
Proof.
  induction s as [|c s IH]; simpl.
  - constructor; [|done]. by intros ?%elem_of_nil.
  - destruct (N.eqb_spec c newline) as [->|Hc].
    + constructor; [|done]. by intros ?%elem_of_nil.
    + destruct (split_lines s) as [|l ls].
      { constructor; [|done]. intros H%list_elem_of_singleton. by subst. }
      apply Forall_cons in IH as [Hl Hls]. constructor; [|done].
      intros [?|?]%elem_of_cons; [by subst|done].
Qed.

Lemma split_lines_line (l : text) : newline ∉ l → split_lines l = [l].
Proof.
  induction l as [|c l IH]; intros H; simpl; [done|].
  apply not_elem_of_cons in H as [Hc Hl].
  destruct (N.eqb_spec c newline) as [->|_]; [done|]. by rewrite IH.
Qed.

Lemma split_lines_app (l s : text) :
  newline ∉ l → split_lines (l ++ newline :: s) = l :: split_lines s.
Proof.
  induction l as [|c l IH]; intros H; simpl.
  - done.
  - apply not_elem_of_cons in H as [Hc Hl].
    destruct (N.eqb_spec c newline) as [->|_]; [done|]. by rewrite IH.
Qed.

Lemma split_join (ls : list text) :
  ls ≠ [] → Forall (λ l, newline ∉ l) ls → split_lines (join_lines ls) = ls.
Proof.
  induction ls as [|l ls IH]; [done|]. intros _ [Hl Hls]%Forall_cons.
  destruct ls as [|l' ls]; cbn [join_lines].
  - by apply split_lines_line.
  - rewrite split_lines_app by done. f_equal. by apply IH.
Qed.

Lemma strip_no_newline (l : text) : newline ∉ l → newline ∉ strip l.
Proof.
  intros H Hs. apply H. destruct (strip_infix l) as (w1 & w2 & ->). set_solver.
Qed.

(** The lines [clean_lines] keeps. *)
Lemma kept_lines (t : text) :
  let ls := filter (λ l, l ≠ []) (strip <$> split_lines t) in
  Forall (λ l, (newline ∉ l) ∧ l ≠ [] ∧ trimmed l) ls.
Proof.
  intros ls. subst ls. apply Forall_forall. intros l [Hne Hl]%list_elem_of_filter.
  apply list_elem_of_fmap in Hl as (l0 & -> & Hl0).
  pose proof (split_lines_no_newline t) as Hn. rewrite Forall_forall in Hn.
  split; [by apply strip_no_newline, Hn|]. split; [done|apply strip_trimmed].
Qed.

(** X14. The text taken from a page has no empty line and no line with
    white space at either end: it is empty, or each of its lines is
    non-empty and trimmed. *)
Theorem clean_lines_has_no_blank_line (t : text) :
  clean_lines t = []
  ∨ Forall (λ l, l ≠ [] ∧ trimmed l) (split_lines (clean_lines t)).
Proof.
  unfold clean_lines. pose proof (kept_lines t) as H. cbv zeta in H.
  destruct (filter _ _) as [|l ls] eqn:E; [by left|]. right.
  assert (Forall (λ l0, newline ∉ l0) (l :: ls)) as Hn.
  { eapply Forall_impl; [exact H|]. by intros ? [? _]. }
  rewrite split_join by done.
  eapply Forall_impl; [exact H|]. by intros ? (_ & ? & ?).
Qed.

(** X15. Cleaning the lines a second time changes nothing. *)
Theorem clean_lines_idempotent (t : text) : clean_lines (clean_lines t) = clean_lines t.
Proof.
  unfold clean_lines at 2 3. pose proof (kept_lines t) as H. cbv zeta in H.
  destruct (filter _ _) as [|l ls] eqn:E; [reflexivity|].
  unfold clean_lines.
  assert (Forall (λ l0, newline ∉ l0) (l :: ls)) as Hn.
  { eapply Forall_impl; [exact H|]. by intros ? [? _]. }
  rewrite split_join by done.
  f_equal. clear E Hn. induction H as [|x xs (_ & Hx & Ht) _ IH]; [done|].
  cbn [fmap list_fmap]. rewrite (strip_id x Ht). rewrite filter_cons_True by done.
  f_equal. exact IH.
Qed.

Lemma lstrip_spaces (l : text) : Forall (λ c, isspace c = true) l → lstrip l = [].
Proof. induction 1 as [|c l Hc _ IH]; simpl; [done|]. by rewrite Hc. Qed.

Lemma strip_spaces (l : text) : Forall (λ c, isspace c = true) l → strip l = [].
Proof. intros H. unfold strip. by rewrite lstrip_spaces. Qed.

Lemma split_lines_elem (s l : text) (c : N) : l ∈ split_lines s → c ∈ l → c ∈ s.
Proof.
  revert l. induction s as [|x s IH]; intros l; simpl.
  - intros ->%list_elem_of_singleton. by intros ?%elem_of_nil.
  - destruct (x =? newline)%N.
    + intros [->|H]%elem_of_cons Hc; [by apply elem_of_nil in Hc|].
      right. by apply (IH l).
    + destruct (split_lines s) as [|l0 ls] eqn:E.
      * intros ->%list_elem_of_singleton ->%list_elem_of_singleton. left.
      * intros [->|H]%elem_of_cons Hc.
        -- apply elem_of_cons in Hc as [->|Hc]; [left|]. right. apply (IH l0); [left|done].
        -- right. apply (IH l); [by right|done].
Qed.

Lemma filter_none {A} (P : A → Prop) `{!∀ x, Decision (P x)} (l : list A) :
  Forall (λ x, ¬ P x) l → filter P l = [].
Proof.
  induction 1 as [|x l Hx _ IH]; [done|]. by rewrite filter_cons_False.
Qed.

Lemma clean_lines_spaces (page : text) :
  Forall (λ c, isspace c = true) page → clean_lines page = [].
Proof.
  intros H. unfold clean_lines.
  assert (filter (λ l, l ≠ []) (strip <$> split_lines page) = []) as ->; [|done].
  apply filter_none. apply Forall_forall.
  intros l (l0 & -> & Hl0)%list_elem_of_fmap Hne. apply Hne. apply strip_spaces.
  apply Forall_forall. intros c Hc. rewrite Forall_forall in H. apply H.
  by apply (split_lines_elem page l0).
Qed.

(** X16. When the page behind the address yields only white space (or
    nothing), the extractor returns the empty text with the address, not
    the message. *)
Theorem extract_url_content_blank_page
    (http_get : text → outcome response) (soup_text : text → outcome text)
    (t url page : text) (resp : response) :
  (extract_url_content http_get soup_text t).2 = [url] →
  http_get url = Ret resp → ¬ (400 ≤ status_code resp < 600)%Z →
  soup_text (body resp) = Ret page → Forall (λ c, isspace c = true) page →
  (extract_url_content http_get soup_text t).1 = ([], Some url).
Proof.
  unfold extract_url_content.
  destruct (re_findall url_pattern t) as [|u us]; cbn [fst snd]; [done|].
  intros [= ->] Hg Hs Hp Hpage. unfold fetch_page. rewrite Hg. cbn [bind].
  unfold raise_for_status.
  destruct (Z.leb_spec 400 (status_code resp)), (Z.ltb_spec (status_code resp) 600);
    cbn [andb bind]; try lia; rewrite Hp; cbn [bind]; by rewrite clean_lines_spaces.
Qed.

Lemma extract_url_content_blank_page_witness :
  let http_get : text → outcome response :=
    λ _, Ret {| status_code := 200; body := str "<html></html>"; json := Raise JSONDecodeError |} in
  (extract_url_content http_get (λ _, Ret (str "  " ++ [newline] ++ str " "))
     (str "Designer wanted, see http://acme.example")).1
  = ([], Some (str "http://acme.example")).
Proof.
  intros http_get.
  apply (extract_url_content_blank_page http_get _ _ _ (str "  " ++ [newline] ++ str " ")
           {| status_code := 200; body := str "<html></html>"; json := Raise JSONDecodeError |}).
  - vm_compute. reflexivity.
  - reflexivity.
  - simpl. lia.
  - reflexivity.
  - repeat constructor.
Defined.

(** ** The dialogue of main.py *)

Section MainDialogue.

Import VacancyBotHandlers.

Variable telegram : nat → answer → outcome unit.
Variable YANDEX_API_KEY : option text.
Variables YANDEX_MODEL_URI YANDEX_FOLDER_ID : text.
Variable post : completion_request → outcome response.
Variable CommandStart : text → bool.
Variable casefold : text → text.

Local Abbreviation feed :=
  (feed_update telegram YANDEX_API_KEY YANDEX_MODEL_URI YANDEX_FOLDER_ID post
     CommandStart casefold).
Local Abbreviation feeds :=
  (feed_updates telegram YANDEX_API_KEY YANDEX_MODEL_URI YANDEX_FOLDER_ID post
     CommandStart casefold).

Lemma command_start_text (m : message) (t : text) :
  message_text m = Some t → caption m = None ∨ t ≠ [] → CommandStart t = false →
  command_start CommandStart m = false.
Proof.
  intros Ht Hc Hs. unfold command_start, text_or_caption. rewrite Ht.
  destruct t as [|c t]; [|done]. destruct Hc as [->|]; done.
Qed.

Lemma text_is_plain (w : string) (m : message) (t : text) :
  message_text m = Some t → casefold t ≠ str w → text_is casefold w m = false.
Proof. intros Ht Hw. unfold text_is. rewrite Ht. by apply bool_decide_eq_false_2. Qed.


Lemma feed_update_plain (m : message) (t : text) (w : world) :
  message_text m = Some t → caption m = None ∨ t ≠ [] → plain CommandStart casefold t →
  feed m w =
    if in_state waiting_template (context_of (key m) w) then receive_template telegram m w
    else if in_state waiting_description (context_of (key m) w)
         then receive_description telegram m w
    else match t with
         | _ :: _ => generate_response telegram YANDEX_API_KEY YANDEX_MODEL_URI
                       YANDEX_FOLDER_ID post m w
         | [] => (Ret (), w)
         end.
Proof.
  intros Ht Hc (Hs & Hu & Hv). unfold feed_update. cbn [propagate _register_handlers].
  rewrite !(text_is_plain _ _ t) by done. rewrite (command_start_text m t) by done.
  rewrite Ht.
  destruct (in_state waiting_template _); [done|].
  destruct (in_state waiting_description _); [done|]. by destruct t.
Qed.

Lemma context_of_put (w : world) (k : Z * Z) (c : context) (new : list answer) :
  context_of k (put w k c new) = c.
Proof. unfold context_of, put. cbn. by rewrite lookup_insert_eq. Qed.


Lemma receive_template_ok (m : message) (t : text) (w : world) :
  accepting telegram → message_text m = Some t →
  receive_template telegram m w
  = (Ret (), put w (key m)
               {| state := Some waiting_description;
                  data := <[str "template_text" := strip t]> (data (context_of (key m) w)) |}
               [with_keyboard m GotTemplate]).
Proof.
  intros Htg Ht.
  unfold receive_template, act_bind, text_strip, act_lift, update_data,
    message_answer, set_state, set_context.
  rewrite Ht. cbn. rewrite Htg. unfold context_of, put. cbn.
  by rewrite !lookup_insert_eq, insert_insert_eq.
Qed.

Lemma receive_description_ok (m : message) (t : text) (w : world) :
  accepting telegram → message_text m = Some t →
  receive_description telegram m w
  = let r := TemplateStore.set_template (from_user m)
               (default [] (data (context_of (key m) w) !! str "template_text"))
               (strip t) (templates w) in
    match r.1 with
    | Ret _ =>
        (Ret (),
         {| storage := <[key m := fresh]> (storage w); templates := r.2.1; path := r.2.2;
            answers := answers w ++ [with_keyboard m TemplateSaved]; posted := posted w |})
    | Raise e =>
        (Raise e,
         {| storage := storage w; templates := r.2.1; path := r.2.2;
            answers := answers w; posted := posted w |})
    end.
Proof.
  intros Htg Ht.
  unfold receive_description, act_bind, get_data, text_strip, act_lift, templates_set,
    message_answer, clear, set_context.
  rewrite Ht. cbv zeta. cbn [fst snd storage templates path answers posted].
  destruct (TemplateStore.set_template _ _ _ _).1 as [[]|e]; [|done].
  cbn [fst snd storage templates path answers posted]. by rewrite Htg.
Qed.




(** The handlers unfolded down to the calls of Telegram and of the
    completion API, with a case for each of their outcomes. *)
Ltac unfold_handlers :=
  unfold on_start, ask_template, receive_template, receive_description, show_template,
    generate_response, act_bind, act_try, act_ret, text_strip, act_lift, clear, update_data,
    get_data, templates_set, templates_get, call_llm, message_answer, set_state, set_context,
    TemplateStore.set_template;
  cbn [fst snd storage templates path answers posted].

Ltac split_outcomes :=
  repeat match goal with
  | |- context [telegram ?n ?a] => destruct (telegram n a); cbn [fst snd]
  | |- context [(VacancyBot._call_yandex_llm ?k ?u ?f ?p ?t ?d ?v).1] =>
      destruct ((VacancyBot._call_yandex_llm k u f p t d v).1); cbn [fst snd]
  | |- context [(TemplateStore._save ?d).1] =>
      destruct ((TemplateStore._save d).1) as [[]|]; cbn [fst snd]
  | |- context [match ?x with Some _ => _ | None => _ end] =>
      destruct x eqn:?; cbn [fst snd]
  end.


(** X19. A message without text, such as a photo or a sticker.  When its
    caption is the start command it is handled as that command.  When
    not, and the sender's dialogue waits for the template or the
    description, the handler raises before anything is stored or answered
    and the dialogue stays where it was; outside the dialogue such a
    message is given to no handler. *)
Theorem message_without_text (m : message) (w : world) :
  message_text m = None →
  feed_update telegram YANDEX_API_KEY YANDEX_MODEL_URI YANDEX_FOLDER_ID post
    CommandStart casefold m w
  = if command_start CommandStart m then on_start telegram m w
    else (match state (context_of (key m) w) with
          | Some _ => Raise AttributeError
          | None => Ret ()
          end, w).
Proof.
  intros Ht. unfold feed_update. cbn [propagate _register_handlers].
  destruct (command_start CommandStart m); [done|].
  unfold text_is. rewrite Ht. unfold in_state.
  destruct (state (context_of (key m) w)) as [[]|] eqn:E; [| |done].
  - unfold_handlers. by rewrite Ht.
  - unfold_handlers. by rewrite Ht.
Qed.


Lemma context_of_other (k k' : Z * Z) (c : context) (st : gmap (Z * Z) context) tp pa an po :
  k' ≠ k →
  context_of k' {| storage := <[k := c]> st; templates := tp; path := pa;
                   answers := an; posted := po |}
  = default fresh (st !! k').
Proof. intros Hk. unfold context_of. cbn. by rewrite lookup_insert_ne. Qed.

(** X20. A message touches only its sender: the dialogues of other users
    and chats and the templates of other users are as before, every answer
    goes to the chat of the message, and unless the sender's dialogue was
    waiting for the description no template is stored and no file
    written.  This holds whatever Telegram and the completion API do. *)
Theorem message_touches_only_its_sender (m : message) (w : world) :
  let w' := (feed_update telegram YANDEX_API_KEY YANDEX_MODEL_URI YANDEX_FOLDER_ID post
               CommandStart casefold m w).2 in
  (∀ k, k ≠ key m → context_of k w' = context_of k w)
  ∧ (∀ other, other ≠ from_user m →
       TemplateStore.get_template other (templates w')
       = TemplateStore.get_template other (templates w))
  ∧ (∃ new, answers w' = answers w ++ new ∧ Forall (λ a, chat_id a = chat m) new)
  ∧ (in_state waiting_description (context_of (key m) w) = false →
       templates w' = templates w ∧ path w' = path w).
Proof.
  cbv zeta. unfold feed_update. cbn [propagate _register_handlers].
  assert (∀ other, other ≠ from_user m → key_of (from_user m) ≠ key_of other) as Hkey.
  { intros other Ho Hk. apply Ho. symmetry. by apply key_of_inj. }
  repeat match goal with
  | |- context [if ?b then _ else _] => destruct b eqn:?
  end;
  unfold_handlers; split_outcomes;
  (split; [intros k Hk; unfold context_of; cbn; by rewrite ?lookup_insert_ne by done|]);
  (split; [intros other Ho; unfold TemplateStore.get_template, TemplateStore.set_template; cbn;
           by rewrite ?lookup_insert_ne by auto|]);
  (split; [|first [done|congruence]]);
  cbn [answers]; rewrite <- ?app_assoc;
  first [ by eexists; split; [reflexivity|repeat constructor]
        | exists []; split; [by rewrite app_nil_r|constructor] ].
Qed.


(** Run to its end with nothing in between, the task of a message does
    what its handler does. *)
Lemma finish_choose (m : message) (w : world) :
  finish telegram YANDEX_API_KEY YANDEX_MODEL_URI YANDEX_FOLDER_ID post
    (choose (_register_tasks CommandStart casefold) m w) w
  = feed_update telegram YANDEX_API_KEY YANDEX_MODEL_URI YANDEX_FOLDER_ID post
      CommandStart casefold m w.
Proof.
  unfold feed_update.
  cbn [propagate choose _register_handlers _register_tasks].
  repeat match goal with
  | |- context [if ?b then _ else _] => destruct b eqn:?
  end;
  unfold on_start_task, ask_template_task, show_template_task, receive_template_task,
    receive_description_task, generate_response_task, answering;
  unfold_handlers; cbn [finish]; unfold call_llm, sent_answer, act_lift, act_bind, act_ret;
  cbn [fst snd storage templates path answers posted];
  repeat (match goal with
  | |- context [match message_text m with _ => _ end] => destruct (message_text m)
  | |- context [match telegram ?n ?a with _ => _ end] => destruct (telegram n a) as [[]|]
  | |- context [(TemplateStore._save ?d).1] => destruct ((TemplateStore._save d).1) as [[]|]
  | |- context [match TemplateStore.get_template ?u ?d with _ => _ end] =>
      destruct (TemplateStore.get_template u d)
  | |- context [(VacancyBot._call_yandex_llm ?k ?u ?f ?p ?t ?d ?v).1] =>
      destruct ((VacancyBot._call_yandex_llm k u f p t d v).1)
  end;
  cbn [finish]; unfold call_llm, sent_answer, act_lift, act_bind, act_ret;
  cbn [fst snd storage templates path answers posted]);
  try reflexivity.
Qed.

(** X21. Handlers that overlap can lose the template text.  The dialogue
    waits for the template; the user sends it and, before Telegram has
    answered, the start command.  The handler of the text stores the text
    in the data of the dialogue and waits for its answer; the handler of
    the command clears the dialogue and waits for its own; then the first
    goes on and sets the state.  The dialogue is left waiting for the
    description with no template text, and the next text is saved as the
    description of the empty template.  Handled one after the other, the
    same two messages leave the dialogue. *)
Theorem start_while_template_is_received
    (c u : Z) (t1 t3 : text) (m2 : message) (w : world) :
  accepting telegram →
  state (context_of (c, u) w) = Some waiting_template →
  plain CommandStart casefold t1 → plain CommandStart casefold t3 →
  chat m2 = c → from_user m2 = u → command_start CommandStart m2 = true →
  let m t := {| chat := c; from_user := u; message_text := Some t; caption := None |} in
  let r := polling telegram YANDEX_API_KEY YANDEX_MODEL_URI YANDEX_FOLDER_ID post
             CommandStart casefold [Take; Take; Resume 0; Resume 0] [m t1; m2] [] w in
  r.1 = ([], [])
  ∧ context_of (c, u) r.2 = {| state := Some waiting_description; data := ∅ |}
  ∧ answers r.2 = answers w ++ [with_keyboard (m t1) GotTemplate; with_keyboard m2 Greeting]
  ∧ templates r.2 = templates w
  ∧ templates (feed_update telegram YANDEX_API_KEY YANDEX_MODEL_URI YANDEX_FOLDER_ID post
                 CommandStart casefold (m t3) r.2).2
    = <[key_of u := {| TemplateStore.template := PStr [];
                       TemplateStore.description := PStr (strip t3) |}]> (templates w)
  ∧ context_of (c, u)
      (feed_updates telegram YANDEX_API_KEY YANDEX_MODEL_URI YANDEX_FOLDER_ID post
         CommandStart casefold [m t1; m2] w)
    = fresh.
Proof.
  intros Htg Hst H1 H3 Hc Hu Hs m r. subst r.
  set (m1 := m t1). set (m3 := m t3).
  assert (key m1 = (c, u)) as Hk1 by reflexivity.
  assert (key m3 = (c, u)) as Hk3 by reflexivity.
  assert (key m2 = (c, u)) as Hk2 by (unfold key; by rewrite Hc, Hu).
  assert (message_text m1 = Some t1) as Ht1 by reflexivity.
  assert (message_text m3 = Some t3) as Ht3 by reflexivity.
  assert (from_user m3 = u) as Hu3 by reflexivity.
  assert (caption m1 = None ∨ t1 ≠ []) as Hc1 by (by left).
  assert (caption m3 = None ∨ t3 ≠ []) as Hc3 by (by left).
  clearbody m1 m3. clear m.
  assert (choose (_register_tasks CommandStart casefold) m1 w = receive_template_task m1)
    as Hch1.
  { cbn [choose _register_tasks]. destruct H1 as (Hs1 & Hb1 & Hb2).
    rewrite (command_start_text m1 t1) by done.
    rewrite !(text_is_plain _ _ t1) by done.
    unfold in_state. by rewrite Hk1, Hst. }
  assert (∀ w', choose (_register_tasks CommandStart casefold) m2 w' = on_start_task m2) as Hch2.
  { intros w'. cbn [choose _register_tasks]. by rewrite Hs. }
  assert (polling telegram YANDEX_API_KEY YANDEX_MODEL_URI YANDEX_FOLDER_ID post
            CommandStart casefold [Take; Take; Resume 0; Resume 0] [m1; m2] [] w
          = ([], [],
             put w (c, u) {| state := Some waiting_description; data := ∅ |}
               [with_keyboard m1 GotTemplate; with_keyboard m2 Greeting])) as ->.
  { cbn [polling]. rewrite Hch1. cbv zeta.
    unfold receive_template_task, answering.
    cbn [advance]. unfold act_bind, text_strip, act_lift, update_data, set_context.
    rewrite Ht1. cbn [fst snd app].
    rewrite Hch2. unfold on_start_task, answering. cbn [advance].
    unfold clear, set_context. cbn [fst snd]. rewrite !Htg.
    cbn [app lookup list_lookup advance].
    unfold set_state, set_context.
    cbn [fst snd advance delete list_delete lookup list_lookup].
    rewrite Hk1, Hk2. unfold context_of, sent_answer, with_keyboard, put.
    cbn [storage templates path answers posted].
    rewrite !lookup_insert_eq. cbn [default from_option id data state].
    rewrite !insert_insert_eq, <- app_assoc. reflexivity. }
  cbn [fst snd]. rewrite context_of_put.
  split; [done|]. split; [done|]. split; [done|]. split; [done|]. split.
  - rewrite (feed_update_plain m3 t3) by done.
    rewrite Hk3, context_of_put. cbn [in_state state].
    rewrite (receive_description_ok m3 t3) by done. cbv zeta.
    rewrite Hk3, Hu3, context_of_put. cbn [data]. rewrite lookup_empty. cbn [default].
    unfold TemplateStore.set_template. cbn [fst snd].
    by destruct (TemplateStore._save _).1 as [[]|].
  - cbn [feed_updates]. rewrite (feed_update_plain m1 t1) by done.
    unfold in_state. rewrite Hk1, Hst.
    rewrite (receive_template_ok m1 t1) by done. cbn [snd].
    unfold feed_update. cbn [propagate _register_handlers]. rewrite Hs.
    unfold_handlers. rewrite Hk2.
    unfold context_of. cbn [storage]. by rewrite lookup_insert_eq.
Qed.

(** X22. A plain text outside the dialogue asks for a reply.  Without a
    template of the sender nothing is posted to the completion API and
    the one answer asks for a template.  With a template, and Telegram
    accepting the answers, the handler does not raise: it answers that it
    is working, posts what [_call_yandex_llm] posts for the stripped text,
    and then answers with the completion, or with the failure if the call
    raised.  The store is not touched. *)
Theorem plain_text_asks_for_reply (m : message) (c : N) (t : text) (w : world) :
  message_text m = Some (c :: t) → plain CommandStart casefold (c :: t) →
  state (context_of (key m) w) = None →
  let r := feed_update telegram YANDEX_API_KEY YANDEX_MODEL_URI YANDEX_FOLDER_ID post
             CommandStart casefold m w in
  templates r.2 = templates w ∧ path r.2 = path w
  ∧ match TemplateStore.get_template (from_user m) (templates w) with
    | None =>
        answers r.2 = answers w ++ [with_keyboard m NeedTemplate] ∧ posted r.2 = posted w
    | Some tpl =>
        let llm := VacancyBot._call_yandex_llm YANDEX_API_KEY YANDEX_MODEL_URI YANDEX_FOLDER_ID
                     post (TemplateStore.template tpl) (TemplateStore.description tpl)
                     (strip (c :: t)) in
        accepting telegram →
        r.1 = Ret () ∧ posted r.2 = posted w ++ llm.2 ∧ length llm.2 ≤ 1
        ∧ answers r.2
          = answers w
            ++ [with_keyboard m Working;
                match llm.1 with
                | Ret reply_text =>
                    {| chat_id := chat m; sent := Completion reply_text; reply_markup := true;
                       disable_web_page_preview := true |}
                | Raise exc =>
                    {| chat_id := chat m; sent := Failed exc; reply_markup := false;
                       disable_web_page_preview := false |}
                end]
    end.
Proof.
  intros Ht Hp Hst. cbv zeta. rewrite (feed_update_plain m (c :: t)) by (done || by right).
  unfold in_state. rewrite Hst.
  unfold generate_response, act_bind, act_try, act_ret, text_strip, act_lift, clear,
    templates_get, call_llm, message_answer, set_context.
  cbn [fst snd storage templates path answers posted]. rewrite Ht.
  destruct (TemplateStore.get_template (from_user m) (templates w)) as [tpl|].
  - split; [|split].
    + split_outcomes; done.
    + split_outcomes; done.
    + intros Htg. rewrite !Htg.
      assert (length (VacancyBot._call_yandex_llm YANDEX_API_KEY YANDEX_MODEL_URI
                YANDEX_FOLDER_ID post (TemplateStore.template tpl)
                (TemplateStore.description tpl) (strip (c :: t))).2 ≤ 1) as Hlen.
      { unfold VacancyBot._call_yandex_llm. destruct (falsy YANDEX_API_KEY); simpl; lia. }
      destruct (VacancyBot._call_yandex_llm _ _ _ _ _ _ _).1; cbn; rewrite ?Htg; cbn;
        rewrite <- ?app_assoc; done.
  - split_outcomes; done.
Qed.

End MainDialogue.

(** *** The dialogue on small inputs *)



Lemma message_without_text_witness :
  let photo c := {| VacancyBotHandlers.chat := 7; VacancyBotHandlers.from_user := 7;
                    VacancyBotHandlers.message_text := None;
                    VacancyBotHandlers.caption := c |} in
  let w := put (new_world ∅) (7, 7)%Z
             {| VacancyBotHandlers.state := Some VacancyBotHandlers.waiting_template;
                VacancyBotHandlers.data := ∅ |} [] in
  VacancyBotHandlers.feed_update (λ _ _, Ret ()) None [] [] (λ _, Raise ConnectionError)
    (starts (str "/start")) (λ t, t) (photo (Some (str "my cv"))) w
  = (Raise AttributeError, w)
  ∧ VacancyBotHandlers.feed_update (λ _ _, Ret ()) None [] [] (λ _, Raise ConnectionError)
      (starts (str "/start")) (λ t, t) (photo (Some (str "/start"))) w
    = VacancyBotHandlers.on_start (λ _ _, Ret ()) (photo (Some (str "/start"))) w.
Proof.
  intros photo w. split.
  - rewrite (message_without_text (λ _ _, Ret ()) None [] [] (λ _, Raise ConnectionError)
               (starts (str "/start")) (λ t, t) (photo (Some (str "my cv"))) w eq_refl).
    unfold VacancyBotHandlers.context_of, w, put. cbn. by rewrite lookup_insert_eq.
  - by rewrite (message_without_text (λ _ _, Ret ()) None [] [] (λ _, Raise ConnectionError)
                  (starts (str "/start")) (λ t, t) (photo (Some (str "/start"))) w eq_refl).
Defined.

Lemma start_while_template_is_received_witness :
  let m t := {| VacancyBotHandlers.chat := 7; VacancyBotHandlers.from_user := 7;
                VacancyBotHandlers.message_text := Some (str t);
                VacancyBotHandlers.caption := None |} in
  let w := put (new_world ∅) (7, 7)%Z
             {| VacancyBotHandlers.state := Some VacancyBotHandlers.waiting_template;
                VacancyBotHandlers.data := ∅ |} [] in
  let r := VacancyBotHandlers.polling (λ _ _, Ret ()) None [] [] (λ _, Raise ConnectionError)
             (starts (str "/start")) (λ t, t)
             [VacancyBotHandlers.Take; VacancyBotHandlers.Take;
              VacancyBotHandlers.Resume 0; VacancyBotHandlers.Resume 0]
             [m "Hello, {company}!"; m "/start"] [] w in
  VacancyBotHandlers.context_of (7, 7)%Z r.2
  = {| VacancyBotHandlers.state := Some VacancyBotHandlers.waiting_description;
       VacancyBotHandlers.data := ∅ |}.
Proof.
  intros m w r.
  destruct (start_while_template_is_received (λ _ _, Ret ()) None [] []
              (λ _, Raise ConnectionError) (starts (str "/start")) (λ t, t) 7 7
              (str "Hello, {company}!") (str "for design roles") (m "/start") w)
    as (_ & H & _).
  - intros n a. reflexivity.
  - unfold VacancyBotHandlers.context_of, w, put. cbn. by rewrite lookup_insert_eq.
  - split; [reflexivity|]. split; intros E; vm_compute in E; discriminate E.
  - split; [reflexivity|]. split; intros E; vm_compute in E; discriminate E.
  - reflexivity.
  - reflexivity.
  - reflexivity.
  - exact H.
Defined.

Lemma plain_text_asks_for_reply_witness :
  let m := {| VacancyBotHandlers.chat := 7; VacancyBotHandlers.from_user := 7;
              VacancyBotHandlers.message_text := Some (str "Designer at Acme");
              VacancyBotHandlers.caption := None |} in
  let r := VacancyBotHandlers.feed_update (λ _ _, Ret ()) None [] []
             (λ _, Raise ConnectionError) (starts (str "/start")) (λ t, t) m (new_world ∅) in
  VacancyBotHandlers.answers r.2 = [with_keyboard m VacancyBotHandlers.NeedTemplate]
  ∧ VacancyBotHandlers.posted r.2 = [].
Proof.
  intros m r.
  destruct (plain_text_asks_for_reply (λ _ _, Ret ()) None [] [] (λ _, Raise ConnectionError)
              (starts (str "/start")) (λ t, t) m 68%N (str "esigner at Acme") (new_world ∅))
    as (_ & _ & H).
  - reflexivity.
  - split; [reflexivity|]. split; intros E; vm_compute in E; discriminate E.
  - reflexivity.
  - exact H.
Defined.

(** ** The handlers of bot.py *)

Section BotDialogue.

Import BotHandlers.

Variable telegram : nat → Z * call → outcome unit.
Variables api_key folder_id : option text.
Variable post : completion_request → outcome response.
Variable http_get : text → outcome response.
Variable soup_text : text → outcome text.
Variable python_str : pyval → text.

Local Abbreviation process_update' :=
  (process_update telegram api_key folder_id post http_get soup_text python_str).
Local Abbreviation process_updates' :=
  (process_updates telegram api_key folder_id post http_get soup_text python_str).
Local Abbreviation handle_vacancy' :=
  (handle_vacancy telegram api_key folder_id post http_get soup_text python_str).

(** The fields of a world that was built by the handlers. *)
Ltac cbn_world :=
  unfold user_data_of;
  cbn [manager user_data template_conv description_conv calls fetched posted fst snd
       with_manager with_user_data with_calls with_template_conv with_description_conv
       user_data_of default from_option id app fmap list_fmap chat user what first_name].

(** A text message outside both conversations goes to [handle_vacancy]. *)
Lemma process_update_text_idle (up : update) (c : N) (t : text) (w : world) :
  what up = Text (c :: t) →
  template_conv w !! (chat up, user up) = None →
  description_conv w !! (chat up, user up) = None →
  process_update' up w = (_ ⟵ handle_vacancy' up; act_ret ()) w.
Proof.
  intros Hw Ht Hd. unfold process_update, main. cbn [process].
  unfold is_command, is_text. rewrite Hw.
  unfold conversation_check. cbn [states_of template_conv_handler description_conv_handler].
  rewrite Ht, Hd. cbn [entry_points template_conv_handler description_conv_handler].
  unfold first_match.
  rewrite !filter_cons_False by (cbn [fst]; unfold pattern; by rewrite Hw).
  rewrite filter_nil. reflexivity.
Qed.

Lemma entry_example (example description : text) :
  getitem (TemplateManager.entry example description) (str "example") = Ret (PStr example).
Proof. cbn. by rewrite lookup_insert_eq. Qed.

Lemma entry_description (example description : text) :
  getitem (TemplateManager.entry example description) (str "description")
  = Ret (PStr description).
Proof. cbn. rewrite lookup_insert_ne by done. by rewrite lookup_insert_eq. Qed.

Lemma entry_found (example description : text) :
  found (Some (TemplateManager.entry example description)) = true.
Proof.
  cbn. rewrite bool_decide_eq_false_2; [done|]. intros E. by apply insert_non_empty in E.
Qed.

(** [handle_vacancy] for a user without an example. *)
Lemma handle_vacancy_asks_for_example (up : update) (d : gmap text pyval) (w : world) :
  (manager w).1 = PDict d → found (d !! key_of (user up)) = false →
  let a := (chat up, reply_text NeedExample load_example no_mode false) in
  handle_vacancy' up w
  = (match telegram (length (calls w)) a with Ret _ => Ret None | Raise e => Raise e end,
     with_calls (chat up) [reply_text NeedExample load_example no_mode false] w).
Proof.
  intros Hm Hf a. unfold handle_vacancy, act_bind, act_ret, get_template, send.
  rewrite Hm. cbn [TemplateManager.get_template]. rewrite Hf. subst a.
  by destruct (telegram _ _).
Qed.

(** X23. A vacancy text from a user without an example: the one call is
    the reply that asks for an example, with the button to load one;
    nothing is fetched, nothing is posted to the completion API, and the
    store, the conversations and the user data stay as they are. *)
Theorem handle_vacancy_without_example
    (up : update) (c : N) (t : text) (d : gmap text pyval) (w : world) :
  what up = Text (c :: t) →
  template_conv w !! (chat up, user up) = None →
  description_conv w !! (chat up, user up) = None →
  (manager w).1 = PDict d → found (d !! key_of (user up)) = false →
  let a := (chat up, reply_text NeedExample load_example no_mode false) in
  process_update telegram api_key folder_id post http_get soup_text python_str up w
  = (telegram (length (calls w)) a,
     {| manager := manager w; user_data := user_data w; template_conv := template_conv w;
        description_conv := description_conv w; calls := calls w ++ [a];
        fetched := fetched w; posted := posted w |}).
Proof.
  intros Hw Ht Hd Hm Hf a. rewrite (process_update_text_idle up c t) by done.
  unfold act_bind. rewrite (handle_vacancy_asks_for_example up d w Hm Hf). fold a.
  by destruct (telegram _ a) as [[]|].
Qed.

(** [handle_vacancy] for a user with a complete entry, when Telegram
    accepts every call. *)
Lemma handle_vacancy_run
    (up : update) (c : N) (t example description : text) (d : gmap text pyval) (w : world) :
  accepting telegram →
  what up = Text (c :: t) →
  (manager w).1 = PDict d →
  d !! key_of (user up) = Some (TemplateManager.entry example description) →
  let x := extract_url_content http_get soup_text (c :: t) in
  let g := VacancyProcessor.generate_message api_key folder_id post
             x.1.1 example description None in
  ∃ generated, g.1 = Ret generated
    ∧ handle_vacancy' up w
      = (Ret None,
         {| manager := manager w; user_data := user_data w; template_conv := template_conv w;
            description_conv := description_conv w;
            calls := calls w
              ++ (pair (chat up) <$>
                  ([reply_text Processing no_keyboard no_mode false]
                   ++ match x.1.2 with Some (_ :: _) => [edit_text Extracting] | _ => [] end
                   ++ [edit_text Generating; delete_message;
                       reply_text (Generated generated) no_keyboard HTML true;
                       reply_text MessageReady no_keyboard no_mode false]));
            fetched := fetched w ++ x.2; posted := posted w ++ g.2 |}).
Proof.
  intros Htg Hw Hm He x g.
  assert (∃ generated, g.1 = Ret generated) as [generated Hg].
  { subst g. unfold VacancyProcessor.generate_message.
    destruct (falsy api_key || falsy folder_id); cbn [fst]; [eauto|].
    destruct (post _) as [resp|e]; cbn [bind try_except]; [|eauto].
    destruct (status_code resp =? 200)%Z; [|eauto].
    destruct (json resp) as [v|e]; cbn [bind try_except]; [|eauto].
    destruct (completion_text v); cbn [bind try_except]; eauto. }
  exists generated. split; [done|].
  unfold handle_vacancy, act_bind, act_try, act_ret, act_lift, get_template, send, extract,
    generate, message_text.
  rewrite Hm, Hw. cbn [TemplateManager.get_template]. rewrite He, entry_found.
  cbn [default from_option id fst snd calls manager user_data template_conv
       description_conv fetched posted].
  rewrite Htg. fold x.
  destruct (x.1.2) as [[|u0 url]|];
    repeat first
      [ rewrite Htg | rewrite entry_example | rewrite entry_description
      | progress fold g | rewrite Hg
      | progress cbn [formatted fst snd calls manager user_data template_conv
                      description_conv fetched posted] ];
    cbn [fmap list_fmap app]; rewrite <- ?app_assoc; reflexivity.
Qed.

(** X24. A vacancy text from a user whose entry holds an example and a
    description, when Telegram accepts every call: the handler does not
    raise.  It extracts, generates from what the extraction returned, and
    the calls are the processing notice, its edits, its deletion, the
    generated message as HTML without preview, and the closing notice.
    What was fetched and posted is what the extractor and the generator
    fetch and post. *)
Theorem handle_vacancy_with_example
    (up : update) (c : N) (t example description : text) (d : gmap text pyval) (w : world) :
  accepting telegram →
  what up = Text (c :: t) →
  template_conv w !! (chat up, user up) = None →
  description_conv w !! (chat up, user up) = None →
  (manager w).1 = PDict d →
  d !! key_of (user up) = Some (TemplateManager.entry example description) →
  let x := extract_url_content http_get soup_text (c :: t) in
  let g := VacancyProcessor.generate_message api_key folder_id post
             x.1.1 example description None in
  ∃ generated, g.1 = Ret generated
    ∧ process_update telegram api_key folder_id post http_get soup_text python_str up w
      = (Ret (),
         {| manager := manager w; user_data := user_data w; template_conv := template_conv w;
            description_conv := description_conv w;
            calls := calls w
              ++ (pair (chat up) <$>
                  ([reply_text Processing no_keyboard no_mode false]
                   ++ match x.1.2 with Some (_ :: _) => [edit_text Extracting] | _ => [] end
                   ++ [edit_text Generating; delete_message;
                       reply_text (Generated generated) no_keyboard HTML true;
                       reply_text MessageReady no_keyboard no_mode false]));
            fetched := fetched w ++ x.2; posted := posted w ++ g.2 |}).
Proof.
  intros Htg Hw Ht Hd Hm He x g.
  destruct (handle_vacancy_run up c t example description d w Htg Hw Hm He)
    as (generated & Hg & Hrun).
  exists generated. split; [exact Hg|].
  rewrite (process_update_text_idle up c t) by done.
  unfold act_bind. by rewrite Hrun.
Qed.

(** *** The steps of the conversations *)

Lemma first_match_one (check : update → bool) (h : update → act world (option Z))
    (up : update) :
  first_match [(check, h)] up = if check up then Some h else None.
Proof.
  unfold first_match. destruct (check up) eqn:E.
  - by rewrite filter_cons_True by done.
  - rewrite filter_cons_False; [done|]. cbn. by rewrite E.
Qed.

Lemma process_update_cancel (up : update) (w : world) :
  what up = Command (str "cancel") →
  process_update' up w
  = (telegram (length (calls w)) (chat up, reply_text Cancelled no_keyboard no_mode false),
     with_calls (chat up) [reply_text Cancelled no_keyboard no_mode false]
       (with_user_data (user up) ∅ w)).
Proof.
  intros Hw. unfold process_update, main. cbn [process]. unfold is_command. rewrite Hw.
  change (bool_decide (str "cancel" = str "start")) with false.
  change (bool_decide (str "cancel" = str "generate")) with false.
  change (bool_decide (str "cancel" = str "cancel")) with true. cbv iota.
  unfold cancel, act_bind, act_ret, send, with_calls, with_user_data. cbn_world.
  by destruct (telegram _ _) as [[]|].
Qed.

Lemma process_update_set_template (up : update) (w : world) :
  accepting telegram →
  what up = Callback (str "set_template") →
  template_conv w !! (chat up, user up) = None →
  process_update' up w
  = (Ret (),
     with_template_conv (<[(chat up, user up) := TEMPLATE_INPUT]> (template_conv w))
       (with_calls (chat up)
          [answer_query; edit_message_text SendExample no_keyboard Markdown] w)).
Proof.
  intros Htg Hw Ht. unfold process_update, main. cbn [process]. unfold is_command. rewrite Hw.
  unfold conversation_check. cbn [states_of template_conv_handler]. rewrite Ht.
  cbn [entry_points template_conv_handler]. rewrite first_match_one.
  unfold pattern at 1. rewrite Hw.
  change (match_at _ _ _) with (Some 12).
  unfold conversation_handle, button_callback, act_bind, act_ret, send, query_data.
  rewrite Hw. rewrite Htg.
  change (bool_decide (str "set_template" = str "set_template")) with true. cbv iota.
  cbn [calls]. rewrite Htg. cbn [fst snd].
  change (TEMPLATE_INPUT =? END)%Z with false. cbv iota.
  cbn [set_states states_of template_conv_handler].
  unfold with_template_conv, with_calls. cbn_world. by rewrite <- app_assoc.
Qed.

Lemma process_update_example (up : update) (c : N) (t : text) (w : world) :
  accepting telegram →
  what up = Text (c :: t) →
  template_conv w !! (chat up, user up) = Some TEMPLATE_INPUT →
  process_update' up w
  = (Ret (),
     with_template_conv (<[(chat up, user up) := DESCRIPTION_INPUT]> (template_conv w))
       (with_calls (chat up) [reply_text ExampleReceived no_keyboard no_mode false]
          (with_user_data (user up)
             (<[str "template" := c :: t]> (user_data_of (user up) w)) w))).
Proof.
  intros Htg Hw Ht. unfold process_update, main. cbn [process]. unfold is_command. rewrite Hw.
  unfold conversation_check. cbn [states_of template_conv_handler]. rewrite Ht.
  cbn [states template_conv_handler].
  change (TEMPLATE_INPUT =? TEMPLATE_INPUT)%Z with true. cbv iota.
  rewrite first_match_one. unfold is_text at 1. rewrite Hw.
  unfold conversation_handle, receive_template, act_bind, act_ret, send, message_text.
  rewrite Hw. cbn [calls with_user_data]. rewrite Htg.
  change (DESCRIPTION_INPUT =? END)%Z with false. cbv iota.
  cbn [set_states states_of template_conv_handler].
  unfold with_template_conv, with_calls, with_user_data. cbn_world; reflexivity.
Qed.






(** X26. The cancel command does not leave a conversation.  The
    application handles it before the conversations see it: it empties
    the user data and replies, and the states of both conversations stay
    as they were.  So after the button that loads an example and a
    cancel, the next text is still taken as the example: it is kept in the
    user data, the conversation waits for the description, and nothing is
    fetched, posted or stored. *)
Theorem cancel_does_not_leave_the_conversation
    (ch us : Z) (fn : text) (c : N) (t : text) (w : world) :
  let up e := {| chat := ch; user := us; first_name := fn; what := e |} in
  (let w' := (process_update telegram api_key folder_id post http_get soup_text python_str
                (up (Command (str "cancel"))) w).2 in
   template_conv w' = template_conv w ∧ description_conv w' = description_conv w
   ∧ manager w' = manager w ∧ user_data_of us w' = ∅)
  ∧ (accepting telegram → template_conv w !! (ch, us) = None →
     let w' := process_updates telegram api_key folder_id post http_get soup_text python_str
                 [up (Callback (str "set_template")); up (Command (str "cancel"));
                  up (Text (c :: t))] w in
     template_conv w' !! (ch, us) = Some DESCRIPTION_INPUT
     ∧ user_data_of us w' !! str "template" = Some (c :: t)
     ∧ manager w' = manager w ∧ fetched w' = fetched w ∧ posted w' = posted w
     ∧ calls w'
       = calls w ++ (pair ch <$>
           [answer_query; edit_message_text SendExample no_keyboard Markdown;
            reply_text Cancelled no_keyboard no_mode false;
            reply_text ExampleReceived no_keyboard no_mode false])).
Proof.
  intros up. split.
  - cbv zeta. rewrite (process_update_cancel (up (Command (str "cancel"))) w eq_refl).
    cbn [snd]. unfold up. cbn_world. by rewrite lookup_insert_eq.
  - intros Htg Ht w'. subst w'. cbn [process_updates].
    rewrite (process_update_set_template (up (Callback (str "set_template"))) w Htg eq_refl Ht).
    cbn [snd].
    rewrite (process_update_cancel (up (Command (str "cancel"))) _ eq_refl). cbn [snd].
    rewrite (process_update_example (up (Text (c :: t))) c t _ Htg eq_refl);
      [|unfold up; cbn_world; by rewrite lookup_insert_eq]. cbn [snd].
    unfold up. cbn_world. rewrite !lookup_insert_eq. cbn_world. rewrite lookup_insert_eq.
    repeat split; try done. by rewrite <- !app_assoc.
Qed.


(** X27. When the address in the message is fetched, the page takes the
    place of the message: with the API configured, the one request posted
    carries the example, the description and the cleaned text of the page;
    the text of the message, and any instruction in it, is not passed
    on. *)
Theorem fetched_page_replaces_the_message
    (up : update) (c : N) (t example description : text) (d : gmap text pyval) (w : world)
    (url page : text) (resp : response) :
  accepting telegram →
  what up = Text (c :: t) →
  template_conv w !! (chat up, user up) = None →
  description_conv w !! (chat up, user up) = None →
  (manager w).1 = PDict d →
  d !! key_of (user up) = Some (TemplateManager.entry example description) →
  falsy api_key || falsy folder_id = false →
  (extract_url_content http_get soup_text (c :: t)).2 = [url] →
  http_get url = Ret resp → ¬ (400 ≤ status_code resp < 600)%Z →
  soup_text (body resp) = Ret page →
  let w' := (process_update telegram api_key folder_id post http_get soup_text python_str
               up w).2 in
  fetched w' = fetched w ++ [url]
  ∧ ∃ req, posted w' = posted w ++ [req]
      ∧ prompt_values req
        = [PStr example; PStr description; PStr (clean_lines page); PStr []].
Proof.
  intros Htg Hw Ht Hd Hm He Hcfg Hx Hg Hs Hp. cbv zeta.
  rewrite (process_update_text_idle up c t) by done. unfold act_bind.
  destruct (handle_vacancy_run up c t example description d w Htg Hw Hm He)
    as (generated & _ & ->).
  cbn [snd fetched posted act_ret]. rewrite Hx. split; [done|].
  assert ((extract_url_content http_get soup_text (c :: t)).1.1 = clean_lines page) as ->.
  { revert Hx. unfold extract_url_content.
    destruct (re_findall url_pattern (c :: t)) as [|u us]; cbn [fst snd]; [done|].
    intros [= ->]. unfold fetch_page. rewrite Hg. cbn [bind]. unfold raise_for_status.
    destruct (Z.leb_spec 400 (status_code resp)), (Z.ltb_spec (status_code resp) 600);
      cbn [andb bind]; try lia; by rewrite Hp. }
  unfold VacancyProcessor.generate_message. rewrite Hcfg. cbn [snd].
  eexists. split; [reflexivity|]. reflexivity.
Qed.



Lemma process_update_description_without_example
    (up : update) (c : N) (t : text) (w : world) :
  what up = Text (c :: t) →
  template_conv w !! (chat up, user up) = Some DESCRIPTION_INPUT →
  user_data_of (user up) w !! str "template" = None →
  process_update' up w
  = (Ret (),
     with_template_conv (delete (chat up, user up) (template_conv w))
       (with_user_data (user up) ∅ w)).
Proof.
  intros Hw Ht Hu. unfold process_update, main. cbn [process]. unfold is_command.
  rewrite Hw.
  unfold conversation_check. cbn [states_of template_conv_handler]. rewrite Ht.
  cbn [states template_conv_handler].
  change (DESCRIPTION_INPUT =? TEMPLATE_INPUT)%Z with false.
  change (DESCRIPTION_INPUT =? DESCRIPTION_INPUT)%Z with true. cbv iota.
  rewrite first_match_one. unfold is_text at 1. rewrite Hw.
  unfold conversation_handle, receive_template_description, act_bind, act_ret.
  rewrite Hu. cbn [fst snd].
  change (END =? END)%Z with true. cbv iota.
  cbn [set_states states_of template_conv_handler template_conv with_user_data].
  reflexivity.
Qed.

(** X29. A text after a cancel can go unanswered.  When the cancel comes
    while the conversation waits for the description, the user data is
    emptied but the conversation stays; the next text is then taken as the
    description of an example that is gone: nothing is stored, nothing is
    fetched or posted, the conversation ends, and the text gets no reply
    at all, also when Telegram accepts every call. *)
Theorem text_after_cancel_gets_no_reply
    (ch us : Z) (fn : text) (c1 c2 : N) (t1 t2 : text) (w : world) :
  accepting telegram →
  template_conv w !! (ch, us) = None →
  let up e := {| chat := ch; user := us; first_name := fn; what := e |} in
  let w' := process_updates telegram api_key folder_id post http_get soup_text python_str
              [up (Callback (str "set_template")); up (Text (c1 :: t1));
               up (Command (str "cancel")); up (Text (c2 :: t2))] w in
  manager w' = manager w
  ∧ template_conv w' !! (ch, us) = None
  ∧ user_data_of us w' = ∅
  ∧ calls w'
    = calls w ++ (pair ch <$>
        [answer_query; edit_message_text SendExample no_keyboard Markdown;
         reply_text ExampleReceived no_keyboard no_mode false;
         reply_text Cancelled no_keyboard no_mode false])
  ∧ fetched w' = fetched w ∧ posted w' = posted w.
Proof.
  intros Htg Ht up w'. subst w'. cbn [process_updates].
  rewrite (process_update_set_template (up (Callback (str "set_template"))) w Htg eq_refl Ht).
  cbn [snd].
  rewrite (process_update_example (up (Text (c1 :: t1))) c1 t1 _ Htg eq_refl);
    [|unfold up; cbn_world; by rewrite lookup_insert_eq]. cbn [snd].
  rewrite (process_update_cancel (up (Command (str "cancel"))) _ eq_refl). cbn [snd].
  rewrite (process_update_description_without_example (up (Text (c2 :: t2))) c2 t2 _ eq_refl);
    [|unfold up; cbn_world; by rewrite lookup_insert_eq
     |unfold up; cbn_world; rewrite lookup_insert_eq; cbn_world; by rewrite lookup_empty].
  cbn [snd]. unfold up. cbn_world. rewrite !lookup_insert_eq, lookup_delete_eq. cbn_world.
  split; [done|]. split; [done|]. split; [done|].
  split; [by rewrite <- !app_assoc|done].
Qed.

End BotDialogue.

(** *** The handlers of bot.py on small inputs *)

Lemma handle_vacancy_without_example_witness :
  let up := {| BotHandlers.chat := 7; BotHandlers.user := 7; BotHandlers.first_name := str "Ann";
               BotHandlers.what := BotHandlers.Text (str "Designer at Acme") |} in
  let w := BotHandlers.process_update (λ _ _, Ret ()) None None (λ _, Raise ConnectionError)
             (λ _, Raise ConnectionError) (λ h, Ret h) (λ _, []) up (idle (PDict ∅, None)) in
  BotHandlers.calls w.2
  = [(7%Z, BotHandlers.reply_text BotHandlers.NeedExample BotHandlers.load_example
             BotHandlers.no_mode false)]
  ∧ BotHandlers.fetched w.2 = [] ∧ BotHandlers.posted w.2 = [].
Proof.
  intros up w. subst w.
  rewrite (handle_vacancy_without_example (λ _ _, Ret ()) None None
             (λ _, Raise ConnectionError) (λ _, Raise ConnectionError) (λ h, Ret h) (λ _, [])
             up 68%N (str "esigner at Acme") ∅ (idle (PDict ∅, None)));
    by repeat split.
Defined.

Lemma handle_vacancy_with_example_witness :
  let up := {| BotHandlers.chat := 7; BotHandlers.user := 7; BotHandlers.first_name := str "Ann";
               BotHandlers.what := BotHandlers.Text (str "Designer at Acme") |} in
  let d : gmap text pyval := <[key_of 7 := TemplateManager.entry (str "E") (str "D")]> ∅ in
  ∃ generated w',
    BotHandlers.process_update (λ _ _, Ret ()) None None (λ _, Raise ConnectionError)
      (λ _, Raise ConnectionError) (λ h, Ret h) (λ _, []) up (idle (PDict d, None))
    = (Ret (), w')
    ∧ generated = VacancyProcessor._generate_simple_message (str "Designer at Acme") (str "E") None.
Proof.
  intros up d.
  destruct (handle_vacancy_with_example (λ _ _, Ret ()) None None
              (λ _, Raise ConnectionError) (λ _, Raise ConnectionError) (λ h, Ret h) (λ _, [])
              up 68%N (str "esigner at Acme") (str "E") (str "D") d (idle (PDict d, None)))
    as (generated & Hg & Hr).
  - intros n a. reflexivity.
  - reflexivity.
  - reflexivity.
  - reflexivity.
  - reflexivity.
  - apply lookup_insert_eq.
  - exists generated. eexists. split; [exact Hr|]. by injection Hg.
Defined.


Lemma fetched_page_replaces_the_message_witness :
  let up := {| BotHandlers.chat := 7; BotHandlers.user := 7; BotHandlers.first_name := str "Ann";
               BotHandlers.what :=
                 BotHandlers.Text (str "Make the title short. http://acme.example/job") |} in
  let d : gmap text pyval := <[key_of 7 := TemplateManager.entry (str "E") (str "D")]> ∅ in
  let resp := {| status_code := 200; body := str "<p>Designer</p>";
                 json := Raise JSONDecodeError |} in
  let w' := (BotHandlers.process_update (λ _ _, Ret ()) (Some (str "k")) (Some (str "f"))
               (λ _, Raise ConnectionError) (λ _, Ret resp) (λ _, Ret (str " Designer "))
               (λ _, []) up (idle (PDict d, None))).2 in
  ∃ req, BotHandlers.posted w' = [req]
    ∧ prompt_values req = [PStr (str "E"); PStr (str "D"); PStr (str "Designer"); PStr []].
Proof.
  intros up d resp w'.
  destruct (fetched_page_replaces_the_message (λ _ _, Ret ()) (Some (str "k")) (Some (str "f"))
              (λ _, Raise ConnectionError) (λ _, Ret resp) (λ _, Ret (str " Designer "))
              (λ _, []) up 77%N (str "ake the title short. http://acme.example/job")
              (str "E") (str "D") d (idle (PDict d, None))
              (str "http://acme.example/job") (str " Designer ") resp)
    as (_ & req & H1 & H2).
  - intros n a. reflexivity.
  - reflexivity.
  - reflexivity.
  - reflexivity.
  - reflexivity.
  - apply lookup_insert_eq.
  - reflexivity.
  - vm_compute. reflexivity.
  - reflexivity.
  - simpl. lia.
  - reflexivity.
  - exists req. split; [exact H1|exact H2].
Defined.


Lemma text_after_cancel_gets_no_reply_witness :
  let up e := {| BotHandlers.chat := 7; BotHandlers.user := 7;
                 BotHandlers.first_name := str "Ann"; BotHandlers.what := e |} in
  let w' := BotHandlers.process_updates (λ _ _, Ret ()) None None (λ _, Raise ConnectionError)
              (λ _, Raise ConnectionError) (λ h, Ret h) (λ _, [])
              [up (BotHandlers.Callback (str "set_template"));
               up (BotHandlers.Text (str "Example"));
               up (BotHandlers.Command (str "cancel"));
               up (BotHandlers.Text (str "Designer at Acme"))] (idle (PDict ∅, None)) in
  BotHandlers.manager w' = (PDict ∅, None)
  ∧ BotHandlers.calls w'
    = pair 7%Z <$>
        [BotHandlers.answer_query;
         BotHandlers.edit_message_text BotHandlers.SendExample BotHandlers.no_keyboard
           BotHandlers.Markdown;
         BotHandlers.reply_text BotHandlers.ExampleReceived BotHandlers.no_keyboard
           BotHandlers.no_mode false;
         BotHandlers.reply_text BotHandlers.Cancelled BotHandlers.no_keyboard
           BotHandlers.no_mode false].
Proof.
  intros up w'.
  destruct (text_after_cancel_gets_no_reply (λ _ _, Ret ()) None None
              (λ _, Raise ConnectionError) (λ _, Raise ConnectionError) (λ h, Ret h) (λ _, [])
              7 7 (str "Ann") 69%N 68%N (str "xample") (str "esigner at Acme")
              (idle (PDict ∅, None))) as (H1 & _ & _ & H4 & _).
  - intros n a. reflexivity.
  - reflexivity.
  - split; [exact H1|exact H4].
Defined.

(** ** What an update of bot.py may change *)

Lemma keeps_ret {W A} (R : W → W → Prop) (a : A) : Reflexive R → keeps R (act_ret a).
Proof. intros HR w. apply HR. Qed.

Lemma keeps_lift {W A} (R : W → W → Prop) (o : outcome A) :
  Reflexive R → keeps R (act_lift o).
Proof. intros HR w. apply HR. Qed.

Lemma keeps_bind {W A B} (R : W → W → Prop) (f : act W A) (k : A → act W B) :
  Transitive R → keeps R f → (∀ a, keeps R (k a)) → keeps R (act_bind f k).
Proof.
  intros HR Hf Hk w. unfold act_bind. specialize (Hf w).
  destruct (f w) as [[a|e] w']; cbn [snd] in *; [|done].
  etrans; [exact Hf|apply Hk].
Qed.

Lemma keeps_try {W A} (R : W → W → Prop) (f : act W A) (h : exn → act W A) :
  Transitive R → keeps R f → (∀ e, keeps R (h e)) → keeps R (act_try f h).
Proof.
  intros HR Hf Hh w. unfold act_try. specialize (Hf w).
  destruct (f w) as [[a|e] w']; cbn [snd] in *; [done|].
  etrans; [exact Hf|apply Hh].
Qed.

Lemma set_template_other (u other : Z) (ex de : text) (st : pyval * disk) :
  other ≠ u →
  TemplateManager.get_template other (TemplateManager.set_template u ex de st).2.1
  = TemplateManager.get_template other st.1.
Proof.
  intros Ho. destruct st as [t dk]. unfold TemplateManager.set_template. cbn [fst snd].
  destruct t as [| | | | |d]; try done. cbn [fst snd TemplateManager.get_template].
  rewrite lookup_insert_ne; [done|]. intros E. by apply Ho, key_of_inj.
Qed.

Lemma update_description_other (u other : Z) (de : text) (st : pyval * disk) :
  other ≠ u →
  TemplateManager.get_template other (TemplateManager.update_description u de st).2.1
  = TemplateManager.get_template other st.1.
Proof.
  intros Ho. destruct st as [t dk]. unfold TemplateManager.update_description. cbn [fst snd].
  destruct (TemplateManager.has_key t (key_of u)) as [[]|]; [| |done].
  - destruct t as [| | | | |d]; try done.
    destruct (d !! key_of u) as [[| | | | |e]|]; try done.
    cbn [fst snd TemplateManager.get_template].
    rewrite lookup_insert_ne; [done|]. intros E. by apply Ho, key_of_inj.
  - done.
Qed.

Section BotFrame.

Import BotHandlers.

Variable telegram : nat → Z * call → outcome unit.
Variables api_key folder_id : option text.
Variable post : completion_request → outcome response.
Variable http_get : text → outcome response.
Variable soup_text : text → outcome text.
Variable python_str : pyval → text.
Variable up : update.

Local Abbreviation R := (touches_only_sender up).

Lemma touches_refl : Reflexive R.
Proof.
  intros w. repeat split; try done. exists []. by rewrite app_nil_r.
Qed.

Lemma touches_trans : Transitive R.
Proof.
  intros w1 w2 w3 (A1 & B1 & C1 & n1 & D1 & E1) (A2 & B2 & C2 & n2 & D2 & E2).
  split; [|split; [|split]].
  - intros o Ho. by rewrite A2, A1.
  - intros o Ho. by rewrite B2, B1.
  - intros k Hk. destruct (C2 k Hk) as [-> ->]. by destruct (C1 k Hk) as [-> ->].
  - exists (n1 ++ n2). rewrite D2, D1, app_assoc. split; [done|]. by apply Forall_app.
Qed.

Lemma keeps_send (c : call) : keeps R (send telegram up c).
Proof.
  intros w. unfold send. cbn [snd]. repeat split; try done.
  eexists. split; [reflexivity|]. by repeat constructor.
Qed.

Lemma keeps_get_template : keeps R (get_template (user up)).
Proof. intros w. apply touches_refl. Qed.

Lemma keeps_set_template (ex de : text) : keeps R (set_template (user up) ex de).
Proof.
  intros w. unfold set_template. cbn [snd].
  repeat split; try done.
  - intros o Ho. cbn. by apply (set_template_other (user up) o ex de).
  - exists []. by rewrite app_nil_r.
Qed.

Lemma keeps_update_description (de : text) : keeps R (update_description (user up) de).
Proof.
  intros w. unfold update_description. cbn [snd].
  repeat split; try done.
  - intros o Ho. cbn. by apply (update_description_other (user up) o de).
  - exists []. by rewrite app_nil_r.
Qed.

Lemma keeps_user_data (f : world → gmap text text) :
  keeps R (λ w, (Ret (), with_user_data (user up) (f w) w)).
Proof.
  intros w. cbn [snd]. repeat split; try done.
  - intros o Ho. unfold user_data_of. cbn. by rewrite lookup_insert_ne.
  - exists []. by rewrite app_nil_r.
Qed.

Lemma keeps_read {A} (f : world → A) : keeps R (λ w, (Ret (f w), w)).
Proof. intros w. apply touches_refl. Qed.

Lemma keeps_extract (t : text) : keeps R (extract http_get soup_text t).
Proof.
  intros w. unfold extract. cbn [snd]. repeat split; try done.
  exists []. by rewrite app_nil_r.
Qed.

Lemma keeps_generate (v ex de : text) (ci : option text) :
  keeps R (generate api_key folder_id post v ex de ci).
Proof.
  intros w. unfold generate. cbn [snd]. repeat split; try done.
  exists []. by rewrite app_nil_r.
Qed.

Ltac keeps_step :=
  first
    [ apply keeps_bind; [apply touches_trans| |intros ?]
    | apply keeps_try; [apply touches_trans| |intros ?]
    | apply keeps_ret; apply touches_refl
    | apply keeps_lift; apply touches_refl
    | apply keeps_send | apply keeps_get_template | apply keeps_set_template
    | apply keeps_update_description | apply keeps_user_data | apply keeps_read
    | apply keeps_extract | apply keeps_generate
    | match goal with
      | |- keeps _ (if ?b then _ else _) => destruct b
      | |- keeps _ (match ?x with _ => _ end) => destruct x
      end ].

Lemma keeps_handlers :
  keeps R (start telegram up) ∧ keeps R (button_callback telegram up)
  ∧ keeps R (receive_template telegram up)
  ∧ keeps R (receive_template_description telegram up)
  ∧ keeps R (receive_description_update telegram up)
  ∧ keeps R (handle_vacancy telegram api_key folder_id post http_get soup_text python_str up)
  ∧ keeps R (cancel telegram up) ∧ keeps R (generate_command telegram up).
Proof.
  unfold start, button_callback, receive_template, receive_template_description,
    receive_description_update, handle_vacancy, cancel, generate_command.
  repeat match goal with |- _ ∧ _ => split end; repeat keeps_step.
Qed.


Lemma keeps_conversation_handle (cv : conversation) (h : update → act world (option Z)) :
  (∀ s w, R w (set_states cv (<[(chat up, user up) := s]> (states_of cv w)) w)) →
  (∀ w, R w (set_states cv (delete (chat up, user up) (states_of cv w)) w)) →
  keeps R (h up) → keeps R (conversation_handle cv h up).
Proof.
  intros Hset Hdel Hh w. unfold conversation_handle. specialize (Hh w).
  destruct (h up w) as [[[s|]|e] w']; cbn [snd] in *; try done.
  apply (touches_trans _ w'); [done|].
  destruct (s =? END)%Z; [apply Hdel|apply Hset].
Qed.

Lemma keeps_template_conv (h : update → act world (option Z)) :
  keeps R (h up) → keeps R (conversation_handle (template_conv_handler telegram) h up).
Proof.
  apply keeps_conversation_handle; intros; cbn [set_states states_of template_conv_handler];
    (split; [done|]; split; [done|]; split;
     [intros k' Hk; cbn; by rewrite ?lookup_insert_ne, ?lookup_delete_ne by done
     |exists []; by rewrite app_nil_r]).
Qed.

Lemma keeps_description_conv (h : update → act world (option Z)) :
  keeps R (h up) → keeps R (conversation_handle (description_conv_handler telegram) h up).
Proof.
  apply keeps_conversation_handle; intros;
    cbn [set_states states_of description_conv_handler];
    (split; [done|]; split; [done|]; split;
     [intros k' Hk; cbn; by rewrite ?lookup_insert_ne, ?lookup_delete_ne by done
     |exists []; by rewrite app_nil_r]).
Qed.

Lemma conversation_check_keeps (w : world) (h : update → act world (option Z)) :
  conversation_check (template_conv_handler telegram) up w = Some h
  ∨ conversation_check (description_conv_handler telegram) up w = Some h →
  keeps R (h up).
Proof.
  pose proof keeps_handlers as (_ & Hb & Hrt & Hrd & Hru & _ & Hc & _).
  unfold conversation_check.
  cbn [states_of entry_points states fallbacks template_conv_handler
       description_conv_handler].
  intros [H|H]; revert H;
    repeat match goal with
    | |- context [first_match [(?c, ?f)] up] => rewrite (first_match_one c f up)
    | |- context [match ?m !! ?k with _ => _ end] => destruct (m !! k)
    | |- context [if ?b then _ else _] => destruct b
    end;
    unfold first_match; rewrite ?filter_nil; cbn [head fmap option_fmap option_map];
    try done; by intros [= <-].
Qed.

(** X30. An update touches only its sender: whatever Telegram, the page
    and the completion API do, the entries and the user data of other
    users and the conversations of other chats and users are as before,
    and every call goes to the chat of the update. *)
Theorem update_touches_only_its_sender (w : world) :
  touches_only_sender up
    w (process_update telegram api_key folder_id post http_get soup_text python_str up w).2.
Proof.
  pose proof keeps_handlers as (Hs & Hb & _ & _ & _ & Hv & Hc & Hg).
  unfold process_update, main. cbn [process].
  assert (∀ f : act world (option Z), keeps R f → keeps R (_ ⟵ f; act_ret ())) as Hplain.
  { intros f Hf. apply keeps_bind; [apply touches_trans|done|].
    intros _. apply keeps_ret, touches_refl. }
  destruct (is_command "start" up); [by apply Hplain|].
  destruct (is_command "generate" up); [by apply Hplain|].
  destruct (is_command "cancel" up); [by apply Hplain|].
  destruct (conversation_check (template_conv_handler telegram) up w) as [h|] eqn:E1.
  { apply keeps_template_conv. apply (conversation_check_keeps w). by left. }
  destruct (conversation_check (description_conv_handler telegram) up w) as [h|] eqn:E2.
  { apply keeps_description_conv. apply (conversation_check_keeps w). by right. }
  destruct (match what up with Callback _ => true | _ => false end); [by apply Hplain|].
  destruct (is_text up); [by apply Hplain|]. apply touches_refl.
Qed.

End BotFrame.
